(** * A batch ETL pipeline for news articles: data quality and star-schema load

    Shallow embedding of the assignment under
    [Day 10_Data Warehouse Modeling/Assignment]:
    - [scripts/utils/data_quality.py]  (class [DataQuality]),
    - [scripts/etl/load.py]            (class [DataLoader]),
    - [main.py]                        (class [DataPipeline]).

    Part I holds the definitions, Part II the theorems. *)

From Stdlib Require Import List String Ascii ZArith QArith Bool Arith Lia.
Import ListNotations.

Close Scope Q_scope.
Local Open Scope string_scope.
Local Open Scope list_scope.
Local Open Scope nat_scope.

(* ===================================================================== *)
(** * Part I: definitions                                                 *)
(* ===================================================================== *)

(** ** Exceptions, logging and the state-and-exception monad *)

(** The Python exceptions that the modelled code can raise. [InvalidMethod]
    is the [ValueError] that [impute_value] raises itself; the others come
    out of pandas or of Python's attribute and item access. *)
Inductive exn : Type :=
| InvalidMethod (method : string)
| KeyError (key : string)
| IndexError
| AttributeError (attr : string)
| TypeError
| OSError
| DateParseError.

Inductive result (A : Type) : Type :=
| Ok (a : A)
| Raise (e : exn).
Arguments Ok {A} a.
Arguments Raise {A} e.

(** A computation over a mutable state [S] that may raise: the state reached
    when the exception is raised is kept, as in-place mutation is. *)
Definition M (S A : Type) : Type := S -> result A * S.

Definition ret {S A} (a : A) : M S A := fun s => (Ok a, s).

Definition bind {S A B} (m : M S A) (k : A -> M S B) : M S B :=
  fun s => match m s with
           | (Ok a, s') => k a s'
           | (Raise e, s') => (Raise e, s')
           end.

Definition raise {S A} (e : exn) : M S A := fun s => (Raise e, s).
Definition get_state {S} : M S S := fun s => (Ok s, s).

Notation "x <- m ;; k" := (bind m (fun x => k))
  (at level 61, m at next level, right associativity).
Notation "m ;;; k" := (bind m (fun _ => k))
  (at level 61, right associativity).

(** [for x in l: body x], stopping at the first exception. *)
Fixpoint for_each {S A} (l : list A) (body : A -> M S unit) : M S unit :=
  match l with
  | [] => ret tt
  | x :: xs => body x ;;; for_each xs body
  end.

Inductive level : Type := INFO | WARNING | ERROR.

(** ** pandas values, series and frames *)

Module Pandas.

(** A cell as a row of [iterrows] shows it. [VNull] stands for [None], [NaN]
    and [NaT], which [pd.isna] does not tell apart. *)
Inductive value : Type :=
| VNull
| VBool (b : bool)
| VInt (z : Z)
| VFloat (q : Q)
| VTime (ns : Z)
| VStr (s : string).

(** Equality of cells as [duplicated] and [unique] see it: nulls are equal
    to each other, numbers are compared by value. *)
Definition value_eqb (a b : value) : bool :=
  match a, b with
  | VNull, VNull => true
  | VBool x, VBool y => Bool.eqb x y
  | VInt x, VInt y => Z.eqb x y
  | VFloat x, VFloat y => Qeq_bool x y
  | VTime x, VTime y => Z.eqb x y
  | VStr x, VStr y => String.eqb x y
  | _, _ => false
  end.

Definition isna (v : value) : bool :=
  match v with VNull => true | _ => false end.

Definition notna (v : value) : bool := negb (isna v).

(** A column with its dtype: [int64] (which holds no null), [float64] (a
    finite float is a rational; [None] is [NaN]), [datetime64[ns]]
    (nanoseconds since the epoch; [None] is [NaT]) and [object] holding
    strings ([None] is a missing value). *)
Inductive series : Type :=
| SInt (xs : list Z)
| SFloat (xs : list (option Q))
| STime (xs : list (option Z))
| SObj (xs : list (option string)).

Definition opt_value {A} (f : A -> value) (o : option A) : value :=
  match o with Some a => f a | None => VNull end.

Definition cells (s : series) : list value :=
  match s with
  | SInt xs => map VInt xs
  | SFloat xs => map (opt_value VFloat) xs
  | STime xs => map (opt_value VTime) xs
  | SObj xs => map (opt_value VStr) xs
  end.

Definition dtype (s : series) : string :=
  match s with
  | SInt _ => "int64"
  | SFloat _ => "float64"
  | STime _ => "datetime64[ns]"
  | SObj _ => "object"
  end.

(** [dtype == expected] as numpy evaluates it for a dtype and the value
    that a dictionary of expected types holds for it. numpy reads the
    value as a dtype first, and a type has more than one spelling
    (['int64'], ['i8'], ['int']), so the comparison is taken from an
    interface, the dtype under the name that [str] gives it. *)
Class Dtypes : Type := {
  dtype_equal : string -> string -> bool
}.

Definition is_numeric_dtype (s : series) : bool :=
  match s with SInt _ | SFloat _ => true | _ => false end.

Definition is_datetime64_any_dtype (s : series) : bool :=
  match s with STime _ => true | _ => false end.

(** A frame: its columns in order, each with its name. *)
Definition DataFrame : Type := list (string * series).

Definition columns (df : DataFrame) : list string := map fst df.

Definition has_column (df : DataFrame) (c : string) : bool :=
  existsb (String.eqb c) (columns df).

(** [df[c]] read: the column, or [KeyError]. *)
Fixpoint column (df : DataFrame) (c : string) : option series :=
  match df with
  | [] => None
  | (n, s) :: rest => if String.eqb c n then Some s else column rest c
  end.

(** [df[c] = s]: replaces the column where it stands, or appends it. *)
Fixpoint set_column (df : DataFrame) (c : string) (s : series) : DataFrame :=
  match df with
  | [] => [(c, s)]
  | (n, old) :: rest =>
      if String.eqb c n then (n, s) :: rest else (n, old) :: set_column rest c s
  end.

(** [df.drop(c, axis=1, inplace=True)]. *)
Definition drop_column (df : DataFrame) (c : string) : DataFrame :=
  filter (fun p => negb (String.eqb c (fst p))) df.

(** [len(df)]. *)
Definition nrows (df : DataFrame) : nat :=
  match df with
  | [] => 0
  | (_, s) :: _ => List.length (cells s)
  end.

(** A row as [iterrows] yields it: the cells under their column names. *)
Definition row : Type := list (string * value).

(** [row.get(c)]: [None] when the row has no such label. *)
Fixpoint get (r : row) (c : string) : value :=
  match r with
  | [] => VNull
  | (n, v) :: rest => if String.eqb c n then v else get rest c
  end.

(** [row.get(c, default)]. *)
Fixpoint get_default (r : row) (c : string) (default : value) : value :=
  match r with
  | [] => default
  | (n, v) :: rest => if String.eqb c n then v else get_default rest c default
  end.

Definition row_at (df : DataFrame) (i : nat) : row :=
  map (fun p => (fst p, nth i (cells (snd p)) VNull)) df.

Definition iterrows (df : DataFrame) : list row :=
  map (row_at df) (seq 0 (nrows df)).

(** Boolean-mask indexing [l[mask]]. *)
Fixpoint select {A} (mask : list bool) (l : list A) : list A :=
  match mask, l with
  | b :: m, x :: r => if b then x :: select m r else select m r
  | _, _ => []
  end.

Definition select_series (mask : list bool) (s : series) : series :=
  match s with
  | SInt xs => SInt (select mask xs)
  | SFloat xs => SFloat (select mask xs)
  | STime xs => STime (select mask xs)
  | SObj xs => SObj (select mask xs)
  end.

(** [df[mask]]. *)
Definition select_rows (mask : list bool) (df : DataFrame) : DataFrame :=
  map (fun p => (fst p, select_series mask (snd p))) df.

(** [duplicated(keep='first')] over a list of keys: an entry is marked when
    an earlier entry equals it. [seen] holds the earlier entries. *)
Fixpoint duplicated_from {K} (eqb : K -> K -> bool) (seen l : list K) : list bool :=
  match l with
  | [] => []
  | k :: rest => existsb (eqb k) seen :: duplicated_from eqb (k :: seen) rest
  end.

Definition duplicated_keys {K} (eqb : K -> K -> bool) (l : list K) : list bool :=
  duplicated_from eqb [] l.

Fixpoint cells_eqb (a b : list value) : bool :=
  match a, b with
  | [], [] => true
  | x :: a', y :: b' => value_eqb x y && cells_eqb a' b'
  | _, _ => false
  end.

(** [df.duplicated(keep='first')]: rows compared over all columns. *)
Definition duplicated (df : DataFrame) : list bool :=
  duplicated_keys cells_eqb (map (fun r => map snd r) (iterrows df)).

(** [df.drop_duplicates(subset=c, keep='first')], which pandas computes as
    [df[~df.duplicated(subset=c)]]; a missing column is a [KeyError]. *)
Definition drop_duplicates (df : DataFrame) (c : string) : result DataFrame :=
  match column df c with
  | None => Raise (KeyError c)
  | Some s => Ok (select_rows (map negb (duplicated_keys value_eqb (cells s))) df)
  end.

(** [Series.unique()]: the distinct values in order of first appearance. *)
Definition unique (l : list value) : list value :=
  select (map negb (duplicated_keys value_eqb l)) l.

Definition count_true (mask : list bool) : nat := List.length (filter id mask).

(** [groupby(all columns).transform('size')] at one row: the number of rows
    equal to it. [groupby] leaves rows with a null key out of every group,
    and their size is missing. *)
Definition group_size (all : list (list value)) (r : list value) : value :=
  if existsb isna r then VNull
  else VInt (Z.of_nat (List.length (filter (cells_eqb r) all))).

(** [groupby(all columns).transform('size')] on the frame: the size of its
    group for each row. When each row holds a null, no row is left in any
    group, and pandas, with no group to take the sizes from, raises
    [IndexError]. *)
Definition transform_size (all : list (list value)) : result (list value) :=
  match all with
  | [] => Ok []
  | _ :: _ =>
      if forallb (existsb isna) all then Raise IndexError
      else Ok (map (group_size all) all)
  end.

(** *** Statistics and fills

    What pandas computes in [float64] is taken from an interface: the value
    of a mean, a median, a skewness or an interpolated point depends on
    rounding, the shape of the operation around it does not. *)
Class Numerics : Type := {
  (** mean and median of a non-empty list of floats *)
  mean_of : list Q -> Q;
  median_of : list Q -> Q;
  (** [Series.skew()] of the non-null floats, [None] for [NaN] *)
  skew_of : list Q -> option Q;
  (** the value at index [k] on the line through [(i, a)] and [(j, b)] *)
  interp_float : nat -> Q -> nat -> Q -> nat -> Q;
  interp_time : nat -> Z -> nat -> Z -> nat -> Z
}.

(** [Series.dropna()] on the cells of a column. *)
Fixpoint dropna {A} (xs : list (option A)) : list A :=
  match xs with
  | [] => []
  | Some x :: r => x :: dropna r
  | None :: r => dropna r
  end.

Definition count_null {A} (xs : list (option A)) : nat :=
  List.length (filter (fun o => match o with None => true | Some _ => false end) xs).

(** The numbers of a numeric column, nulls left out. *)
Definition numbers (s : series) : list Q :=
  match s with
  | SInt xs => map inject_Z xs
  | SFloat xs => dropna xs
  | _ => []
  end.

(** A float result turned into a timestamp, as the cast to [int64] does. *)
Definition to_ns (q : Q) : Z := Z.quot (Qnum q) (Zpos (Qden q)).

Section Statistics.

Context {N : Numerics}.

Definition stat (f : list Q -> Q) (l : list Q) : value :=
  match l with
  | [] => VNull
  | _ => VFloat (f l)
  end.

Definition stat_time (f : list Q -> Q) (l : list Z) : value :=
  match l with
  | [] => VNull
  | _ => VTime (to_ns (f (map inject_Z l)))
  end.

(** [Series.mean()] and [Series.median()], nulls skipped: [NaN] when no
    value is left; strings are refused (pandas 2). *)
Definition reduce (f : list Q -> Q) (s : series) : result value :=
  match s with
  | SInt xs => Ok (stat f (map inject_Z xs))
  | SFloat xs => Ok (stat f (dropna xs))
  | STime xs => Ok (stat_time f (dropna xs))
  | SObj xs => match dropna xs with [] => Ok VNull | _ => Raise TypeError end
  end.

Definition mean (s : series) : result value := reduce mean_of s.
Definition median (s : series) : result value := reduce median_of s.

(** [Series.dropna().skew() != 0]; [NaN != 0] holds. *)
Definition skew (s : series) : option Q := skew_of (numbers s).

Definition ne_zero (x : option Q) : bool :=
  match x with
  | None => true
  | Some q => negb (Qeq_bool q 0)
  end.

End Statistics.

Definition fill {A} (v : A) (xs : list (option A)) : list (option A) :=
  map (fun o => match o with None => Some v | Some x => Some x end) xs.

(** [Series.fillna(v)]: a null [v] fills nothing; an [int64] column has
    nothing to fill. The value comes from the column itself, so its type
    fits; a value of another type is not put in. pandas infers the type of
    an [object] column again after [fillna]: a column that holds nothing
    but nulls comes back from [fillna(NaN)] as [float64]. *)
Definition fillna (s : series) (v : value) : series :=
  match s, v with
  | SFloat xs, VFloat q => SFloat (fill q xs)
  | SFloat xs, VInt z => SFloat (fill (inject_Z z) xs)
  | STime xs, VTime ns => STime (fill ns xs)
  | SObj xs, VStr x => SObj (fill x xs)
  | SObj xs, VNull =>
      match xs, dropna xs with
      | _ :: _, [] => SFloat (map (fun _ => None) xs)
      | _, _ => s
      end
  | _, _ => s
  end.

(** Insertion sort, for the order in which [mode()] lists its values. *)
Fixpoint insert_sorted {A} (leb : A -> A -> bool) (x : A) (l : list A) : list A :=
  match l with
  | [] => [x]
  | y :: r => if leb x y then x :: y :: r else y :: insert_sorted leb x r
  end.

Definition sort {A} (leb : A -> A -> bool) (l : list A) : list A :=
  fold_right (insert_sorted leb) [] l.

Definition occurrences {A} (eqb : A -> A -> bool) (l : list A) (x : A) : nat :=
  List.length (filter (eqb x) l).

(** The most frequent values of [l], each once, in ascending order. *)
Definition modes {A} (eqb leb : A -> A -> bool) (l : list A) : list A :=
  let top := fold_right Nat.max 0 (map (occurrences eqb l) l) in
  let distinct := select (map negb (duplicated_keys eqb l)) l in
  sort leb (filter (fun x => occurrences eqb l x =? top) distinct).

(** [Series.mode()], nulls left out. *)
Definition mode (s : series) : list value :=
  match s with
  | SInt xs => map VInt (modes Z.eqb Z.leb xs)
  | SFloat xs => map VFloat (modes Qeq_bool Qle_bool (dropna xs))
  | STime xs => map VTime (modes Z.eqb Z.leb (dropna xs))
  | SObj xs => map VStr (modes String.eqb String.leb (dropna xs))
  end.

(** The first valid cell from index [k] on. *)
Fixpoint next_valid {A} (k : nat) (xs : list (option A)) : option (nat * A) :=
  match xs with
  | [] => None
  | Some x :: _ => Some (k, x)
  | None :: r => next_valid (S k) r
  end.

(** [interpolate()] with its defaults (linear over positions, forward): a
    null between two values takes the point on their line, a null after
    the last value takes that value, a null before the first value stays. *)
Fixpoint interpolate_from {A} (interp : nat -> A -> nat -> A -> nat -> A)
    (prev : option (nat * A)) (k : nat) (xs : list (option A)) : list (option A) :=
  match xs with
  | [] => []
  | Some x :: r => Some x :: interpolate_from interp (Some (k, x)) (S k) r
  | None :: r =>
      match prev with
      | None => None
      | Some (i, a) =>
          match next_valid (S k) r with
          | None => Some a
          | Some (j, b) => Some (interp i a j b k)
          end
      end :: interpolate_from interp prev (S k) r
  end.

(** [Series.interpolate()]: columns that are neither float nor temporal
    come back as they are. *)
Definition interpolate {N : Numerics} (s : series) : series :=
  match s with
  | SFloat xs => SFloat (interpolate_from interp_float None 0 xs)
  | STime xs => STime (interpolate_from interp_time None 0 xs)
  | _ => s
  end.

(** A timestamp floored to the second. *)
Definition floor_s (ns : Z) : Z := (ns / 1000000000 * 1000000000)%Z.

(** [Series.dt.floor('s')]: only a temporal column has [.dt]. *)
Definition dt_floor_s (s : series) : result series :=
  match s with
  | STime xs => Ok (STime (map (option_map floor_s) xs))
  | _ => Raise (AttributeError "dt")
  end.

Definition null_count (s : series) : nat :=
  List.length (filter isna (cells s)).

(** *** Real arithmetic in place of [float64]

    An instance to compute with. Its skewness is the third central moment
    over the second: [Series.skew()] without its positive factor, which
    changes neither its sign nor whether it is 0. *)
Module Ideal.

Definition sum (l : list Q) : Q := fold_right Qplus 0%Q l.

Definition mean_of (l : list Q) : Q :=
  Qred (sum l / inject_Z (Z.of_nat (List.length l)))%Q.

Definition median_of (l : list Q) : Q :=
  let sorted := sort Qle_bool l in
  let n := List.length l in
  if Nat.even n then
    Qred ((nth (n / 2 - 1) sorted 0%Q + nth (n / 2) sorted 0%Q) / 2)%Q
  else nth (n / 2) sorted 0%Q.

Definition moment (p : positive) (l : list Q) : Q :=
  let m := mean_of l in sum (map (fun x => Qpower_positive (x - m) p) l).

Definition skew_of (l : list Q) : option Q :=
  if List.length l <? 3 then None
  else if Qeq_bool (moment 2 l) 0 then Some 0%Q
  else Some (Qred (moment 3 l / moment 2 l))%Q.

Definition interp_float (i : nat) (a : Q) (j : nat) (b : Q) (k : nat) : Q :=
  Qred (a + (b - a) * inject_Z (Z.of_nat (k - i)) / inject_Z (Z.of_nat (j - i)))%Q.

Definition interp_time (i : nat) (a : Z) (j : nat) (b : Z) (k : nat) : Z :=
  (a + Z.quot ((b - a) * Z.of_nat (k - i)) (Z.of_nat (j - i)))%Z.

Definition numerics : Numerics :=
  {| Pandas.mean_of := mean_of;
     Pandas.median_of := median_of;
     Pandas.skew_of := skew_of;
     Pandas.interp_float := interp_float;
     Pandas.interp_time := interp_time |}.

End Ideal.

(** *** The spellings of a dtype

    An instance to compute with: each of the four types under the usual
    spellings that numpy reads as it on a little-endian machine whose C
    [long] has 64 bits. What else numpy reads as one of them is outside
    this instance. *)
Module Spelled.

Definition spellings (name : string) : list string :=
  if String.eqb name "int64"
  then ["int64"; "i8"; "<i8"; "=i8"; "int"; "int_"; "intp"; "l"; "q"; "p"]
  else if String.eqb name "float64"
  then ["float64"; "f8"; "<f8"; "=f8"; "float"; "double"; "d"]
  else if String.eqb name "datetime64[ns]"
  then ["datetime64[ns]"; "M8[ns]"; "<M8[ns]"; "=M8[ns]"]
  else if String.eqb name "object" then ["object"; "O"; "|O"]
  else [name].

Definition dtype_equal (name expected : string) : bool :=
  existsb (String.eqb expected) (spellings name).

Definition dtypes : Dtypes := {| Pandas.dtype_equal := dtype_equal |}.

End Spelled.

End Pandas.
Import Pandas.

(** ** scripts/utils/data_quality.py *)

Module DataQuality.

(** The messages that [DataQuality] hands to its logger, one constructor for
    each format string of the file. *)
Inductive message : Type :=
| MsgDuplicateRows (name : string) (duplicate_count : nat)
| MsgNoDuplicates
| MsgRemovingDuplicates (dataset_name : string)
| MsgUnknownMethod (method : string)
| MsgImputed (column_name dataset_name method : string)
| MsgDatasetNotFound (dataset_name : string)
| MsgColumnDropped (column_name dataset_name : string) (null_percentage : Q)
| MsgColumnNotDroppable (column_name dataset_name : string)
| MsgColumnMissing (column_name dataset_name : string).

(** [self]: the datasets by name, in the insertion order of the Python
    dictionary, and what was sent to [self.logger]. A dictionary holds a
    name once: [NoDup (map fst datasets)] is the invariant of the field. *)
Record t : Type := {
  datasets : list (string * DataFrame);
  logger : list (level * message)
}.

Definition log (l : level) (m : message) : M t unit :=
  fun self => (Ok tt, {| datasets := datasets self; logger := logger self ++ [(l, m)] |}).

(** [self.datasets.get(name)]. *)
Fixpoint ds_get (ds : list (string * DataFrame)) (name : string) : option DataFrame :=
  match ds with
  | [] => None
  | (n, df) :: rest => if String.eqb name n then Some df else ds_get rest name
  end.

(** [self.datasets[name] = df]. *)
Fixpoint ds_set (ds : list (string * DataFrame)) (name : string) (df : DataFrame)
  : list (string * DataFrame) :=
  match ds with
  | [] => [(name, df)]
  | (n, old) :: rest =>
      if String.eqb name n then (n, df) :: rest else (n, old) :: ds_set rest name df
  end.

Definition set_dataset (name : string) (df : DataFrame) : M t unit :=
  fun self => (Ok tt, {| datasets := ds_set (datasets self) name df; logger := logger self |}).

Definition lift {A} (r : result A) : M t A := fun self => (r, self).

(** The report of [check_duplicates]: a frame that is only read row by row,
    kept as its column labels and its rows. *)
Record DuplicateReport : Type := {
  report_columns : list string;
  report_rows : list row
}.

(** [r[c] = v] on one row of a frame. *)
Fixpoint set_cell (r : row) (c : string) (v : value) : row :=
  match r with
  | [] => [(c, v)]
  | (n, old) :: rest =>
      if String.eqb c n then (n, v) :: rest else (n, old) :: set_cell rest c v
  end.

(** Lines 61-65: the duplicated rows of one dataset, labelled with the
    dataset and the size of their group, the label in front. The sizes are
    computed for the whole frame (line 63), where [transform('size')] can
    raise; the duplicated rows take theirs. *)
Definition duplicates_of (name : string) (df : DataFrame) : result (list row) :=
  let all := map (fun r => map snd r) (iterrows df) in
  match transform_size all with
  | Raise e => Raise e
  | Ok sizes =>
      Ok (map (fun sized =>
                 let r1 := set_cell (fst sized) "Dataset" (VStr name) in
                 let r2 := set_cell r1 "Jumlah Duplikasi" (snd sized) in
                 ("Dataset", VStr name)
                   :: filter (fun p => negb (String.eqb "Dataset" (fst p))) r2)
              (select (duplicated df) (combine (iterrows df) sizes)))
  end.

Definition duplicates_columns (df : DataFrame) : list string :=
  "Dataset"
    :: filter (fun c => negb (String.eqb "Dataset" c))
              (map fst (set_cell (set_cell (row_at df 0) "Dataset" VNull)
                                 "Jumlah Duplikasi" VNull)).

(** [pd.concat([combined, duplicates_df], ignore_index=True)]. *)
Definition concat (combined : DuplicateReport) (cols : list string) (rows : list row)
  : DuplicateReport :=
  {| report_columns :=
       report_columns combined
         ++ filter (fun c => negb (existsb (String.eqb c) (report_columns combined))) cols;
     report_rows := report_rows combined ++ rows |}.

Fixpoint check_duplicates_loop (items : list (string * DataFrame))
    (combined_duplicates : DuplicateReport) : M t DuplicateReport :=
  match items with
  | [] => ret combined_duplicates
  | (name, df) :: rest =>
      let duplicate_count := count_true (duplicated df) in
      if 0 <? duplicate_count then
        log INFO (MsgDuplicateRows name duplicate_count) ;;;
        duplicates_df <- lift (duplicates_of name df) ;;
        check_duplicates_loop rest
          (concat combined_duplicates (duplicates_columns df) duplicates_df)
      else check_duplicates_loop rest combined_duplicates
  end.

(** [check_duplicates] (lines 49-67). *)
Definition check_duplicates : M t DuplicateReport :=
  self <- get_state ;;
  check_duplicates_loop (datasets self)
    {| report_columns := ["Dataset"]; report_rows := [] |}.

(** [handle_duplicates] (lines 111-128). A name of the report that is not a
    key of [self.datasets] is passed over. *)
Definition handle_duplicates_body (dataset_name : value) : M t unit :=
  self <- get_state ;;
  match dataset_name with
  | VStr name =>
      match ds_get (datasets self) name with
      | Some df =>
          log INFO (MsgRemovingDuplicates name) ;;;
          df' <- lift (drop_duplicates df "url") ;;
          set_dataset name df'
      | None => ret tt
      end
  | _ => ret tt
  end.

Definition handle_duplicates (duplicates_df : DuplicateReport) : M t unit :=
  if negb (existsb (String.eqb "Dataset") (report_columns duplicates_df)) then
    log INFO MsgNoDuplicates
  else
    let datasets_with_duplicates :=
      unique (map (fun r => get r "Dataset") (report_rows duplicates_df)) in
    for_each datasets_with_duplicates handle_duplicates_body.

(** A dataset that [check_duplicates] reports: some row of it equals an
    earlier row in every column. *)
Definition has_duplicates (df : DataFrame) : bool :=
  0 <? count_true (duplicated df).

(** Each row of the frame holds a null, so that [groupby] over all columns
    leaves no group. *)
Definition ungrouped (df : DataFrame) : bool :=
  forallb (fun r => existsb isna (map snd r)) (iterrows df).

(** The cells of the [url] column, none when the frame has no such column. *)
Definition urls (df : DataFrame) : list value :=
  match column df "url" with
  | Some s => cells s
  | None => []
  end.

(** No two rows of the frame hold the same [url]. *)
Definition no_repeated_url (df : DataFrame) : Prop :=
  forall i j, i < j -> j < List.length (urls df) ->
    value_eqb (nth i (urls df) VNull) (nth j (urls df) VNull) = false.

(** The two calls of [DataTransformer.transform_data], in its order. *)
Definition check_then_handle_duplicates : M t unit :=
  duplicates_df <- check_duplicates ;;
  handle_duplicates duplicates_df.

(** *** Nulls *)

(** A frame that a method works on in place, with the logger. *)
Definition frame_state : Type := DataFrame * list (level * message).

Definition get_column (c : string) : M frame_state series :=
  fun st => match column (fst st) c with
            | Some s => (Ok s, st)
            | None => (Raise (KeyError c), st)
            end.

Definition assign_column (c : string) (s : series) : M frame_state unit :=
  fun st => (Ok tt, (set_column (fst st) c s, snd st)).

Definition frame_log (l : level) (m : message) : M frame_state unit :=
  fun st => (Ok tt, (fst st, snd st ++ [(l, m)])).

Definition lift_frame {A} (r : result A) : M frame_state A := fun st => (r, st).

(** [series[0]] on the result of [mode()]. *)
Definition first_mode (l : list value) : result value :=
  match l with
  | v :: _ => Ok v
  | [] => Raise (KeyError "0")
  end.

Section Nulls.

Context {N : Numerics}.

(** [impute_value] (lines 130-158). *)
Definition impute_value (column_name method dataset_name : string) : M frame_state unit :=
  (if String.eqb method "mean" then
     s <- get_column column_name ;;
     v <- lift_frame (mean s) ;;
     assign_column column_name (fillna s v)
   else if String.eqb method "median" then
     s <- get_column column_name ;;
     v <- lift_frame (median s) ;;
     assign_column column_name (fillna s v)
   else if String.eqb method "mode" then
     s <- get_column column_name ;;
     v <- lift_frame (first_mode (mode s)) ;;
     assign_column column_name (fillna s v)
   else if String.eqb method "interpolate" then
     s <- get_column column_name ;;
     assign_column column_name (interpolate s) ;;;
     s' <- get_column column_name ;;
     floored <- lift_frame (dt_floor_s s') ;;
     assign_column column_name floored
   else
     frame_log ERROR (MsgUnknownMethod method) ;;;
     raise (InvalidMethod method)) ;;;
  frame_log INFO (MsgImputed column_name dataset_name method).

(** One row of the null report, as [check_null_values] lays it out. *)
Record NullReportRow : Type := {
  Dataset : string;
  Kolom : string;
  Tipe_Data : string;
  Jumlah_Null_Values : nat;
  Persentase_Null_Values : Q;
  Apakah_Tipe_Data_Date : bool
}.

(** A method called on [df], the frame kept under [name] in
    [self.datasets]: what it does to the frame is done to the dataset. *)
Definition on_dataset (name : string) (df : DataFrame) (m : M frame_state unit) : M t unit :=
  fun self =>
    let '(r, (df', lg)) := m (df, logger self) in
    (r, {| datasets := ds_set (datasets self) name df'; logger := lg |}).

(** The type-driven choice of lines 187-194. *)
Definition method_for (s : series) : string :=
  if is_numeric_dtype s then
    let skewness_value := skew s in
    if ne_zero skewness_value then "median" else "mean"
  else if is_datetime64_any_dtype s then "interpolate"
  else "mode".

(** The body of the loop of [handle_null_values]. *)
Definition handle_null_row (drop_null_threshold : Q) (row : NullReportRow) : M t unit :=
  let dataset_name := Dataset row in
  let column_name := Kolom row in
  let null_percentage := Persentase_Null_Values row in
  self <- get_state ;;
  match ds_get (datasets self) dataset_name with
  | None => log ERROR (MsgDatasetNotFound dataset_name)
  | Some df =>
      if negb (Qle_bool null_percentage drop_null_threshold) then
        if has_column df column_name then
          set_dataset dataset_name (drop_column df column_name) ;;;
          log INFO (MsgColumnDropped column_name dataset_name null_percentage)
        else log ERROR (MsgColumnNotDroppable column_name dataset_name)
      else
        match column df column_name with
        | Some s =>
            on_dataset dataset_name df
              (impute_value column_name (method_for s) dataset_name)
        | None => log ERROR (MsgColumnMissing column_name dataset_name)
        end
  end.

(** [handle_null_values] (lines 160-197). *)
Definition handle_null_values (null_values_df : list NullReportRow)
    (drop_null_threshold : Q) : M t unit :=
  for_each null_values_df (handle_null_row drop_null_threshold).

End Nulls.

(** *** Types and ranges *)

Inductive check_kind : Type := Data_Type | Value_Range.

Inductive status : Type := Pass | Fail.

Inductive detail : Type :=
| TypeName (name : string)
| Range (min_val max_val : Q)
| Out_of_range_values_exist
| All_values_in_range.

Record ValidationRow : Type := {
  vDataset : string;
  vColumn : string;
  vCheck : check_kind;
  vExpected : detail;
  vActual : detail;
  vStatus : status
}.

(** [d[k]] guarded by [k in d], for the two dictionaries of the call. *)
Fixpoint lookup {V} (d : list (string * V)) (k : string) : option V :=
  match d with
  | [] => None
  | (n, v) :: rest => if String.eqb k n then Some v else lookup rest k
  end.

Definition between (min_val max_val x : Q) : bool :=
  Qle_bool min_val x && Qle_bool x max_val.

(** [((df[c] >= min_val) & (df[c] <= max_val)).all()]: a comparison with a
    null is false. *)
Definition all_in_range (min_val max_val : Q) (s : series) : bool :=
  match s with
  | SInt xs => forallb (fun z => between min_val max_val (inject_Z z)) xs
  | SFloat xs =>
      forallb (fun o => match o with
                        | Some q => between min_val max_val q
                        | None => false
                        end) xs
  | _ => true
  end.

Section Validation.

Context {T : Dtypes}.

Definition validate_column (expected_types : list (string * string))
    (value_ranges : list (string * (Q * Q))) (name : string) (col : string * series)
  : list ValidationRow :=
  let '(column, s) := col in
  (match lookup expected_types column with
   | Some expected_type =>
       let actual_type := dtype s in
       let type_match := dtype_equal actual_type expected_type in
       [{| vDataset := name; vColumn := column; vCheck := Data_Type;
           vExpected := TypeName expected_type; vActual := TypeName actual_type;
           vStatus := if type_match then Pass else Fail |}]
   | None => []
   end)
  ++
  (match lookup value_ranges column with
   | Some (min_val, max_val) =>
       if is_numeric_dtype s then
         if negb (all_in_range min_val max_val s) then
           [{| vDataset := name; vColumn := column; vCheck := Value_Range;
               vExpected := Range min_val max_val;
               vActual := Out_of_range_values_exist; vStatus := Fail |}]
         else
           [{| vDataset := name; vColumn := column; vCheck := Value_Range;
               vExpected := Range min_val max_val;
               vActual := All_values_in_range; vStatus := Pass |}]
       else []
   | None => []
   end).

(** [validate_data_types_and_ranges] (lines 199-253); it reads
    [self.datasets] and writes nothing. *)
Definition validate_data_types_and_ranges (self : t)
    (expected_types : list (string * string))
    (value_ranges : list (string * (Q * Q))) : list ValidationRow :=
  flat_map (fun item =>
              flat_map (validate_column expected_types value_ranges (fst item)) (snd item))
           (datasets self).

End Validation.

(** A cell is a number of the interval; a null is not. *)
Definition cell_within (min_val max_val : Q) (v : value) : Prop :=
  match v with
  | VInt z => (min_val <= inject_Z z /\ inject_Z z <= max_val)%Q
  | VFloat q => (min_val <= q /\ q <= max_val)%Q
  | _ => False
  end.

Definition range_row (name column : string) (min_val max_val : Q) (ok : bool)
  : ValidationRow :=
  {| vDataset := name; vColumn := column; vCheck := Value_Range;
     vExpected := Range min_val max_val;
     vActual := if ok then All_values_in_range else Out_of_range_values_exist;
     vStatus := if ok then Pass else Fail |}.

(** A year column with one value missing. *)
Definition year_frame : DataFrame :=
  [("year", SFloat [Some (2000 # 1)%Q; None])].

(** Nulls that come before the first value of a column. *)
Fixpoint skip_leading {A} (xs : list (option A)) : list (option A) :=
  match xs with
  | None :: r => skip_leading r
  | _ => xs
  end.

(** What [handle_null_values] leaves of a column that it has imputed: no
    null, but for a float column without any value, which stays as it is,
    and for the nulls that come before the first value of a temporal
    column. *)
Definition repaired (s : series) : Prop :=
  match s with
  | SInt _ => True
  | SFloat xs => count_null xs = 0 \/ dropna xs = []
  | STime xs => count_null (skip_leading xs) = 0
  | SObj xs => count_null xs = 0
  end.

(** The column is not in the frame, or it has been imputed. *)
Definition settled (df : DataFrame) (c : string) : Prop :=
  column df c = None \/ exists s, column df c = Some s /\ repaired s.

(** Four articles, the date of the first one missing. *)
Definition late_frame : DataFrame :=
  [("published_date",
    STime [None; Some 1710460800000000000%Z; Some 1710547200000000000%Z;
           Some 1710633600000000000%Z])].

Definition late_report : list NullReportRow :=
  [{| Dataset := "bbc_df"; Kolom := "published_date"; Tipe_Data := "datetime64[ns]";
      Jumlah_Null_Values := 1; Persentase_Null_Values := (25 # 1)%Q;
      Apakah_Tipe_Data_Date := true |}].

(** A float column without any value. *)
Definition void_frame : DataFrame := [("score", SFloat [None; None])].

Definition void_report : list NullReportRow :=
  [{| Dataset := "bbc_df"; Kolom := "score"; Tipe_Data := "float64";
      Jumlah_Null_Values := 2; Persentase_Null_Values := (100 # 1)%Q;
      Apakah_Tipe_Data_Date := false |}].

(** Ages with one missing, skewed to the right. *)
Definition age_frame : DataFrame :=
  [("age", SFloat [Some (1 # 1)%Q; None; Some (3 # 1)%Q; Some (8 # 1)%Q])].

Definition age_report : list NullReportRow :=
  [{| Dataset := "bbc_df"; Kolom := "age"; Tipe_Data := "float64";
      Jumlah_Null_Values := 1; Persentase_Null_Values := (25 # 1)%Q;
      Apakah_Tipe_Data_Date := false |}].

(** Two articles under one [url], their titles apart. *)
Definition same_url_frame : DataFrame :=
  [("title", SObj [Some "first"; Some "second"]);
   ("url", SObj [Some "http://x/1"; Some "http://x/1"])].

(** The same two articles, the first one extracted twice. *)
Definition same_url_frame_dup : DataFrame :=
  [("title", SObj [Some "first"; Some "second"; Some "first"]);
   ("url", SObj [Some "http://x/1"; Some "http://x/1"; Some "http://x/1"])].

Definition with_dataset (df : DataFrame) : t :=
  {| datasets := [("bbc_df", df)]; logger := [] |}.

End DataQuality.

(** ** scripts/etl/load.py *)

Module Load.

Record date : Type := { year : Z; month : Z; day : Z }.

Definition date_eqb (a b : date) : bool :=
  Z.eqb (year a) (year b) && Z.eqb (month a) (month b) && Z.eqb (day a) (day b).

(** The two calls of [pd.to_datetime(...).date()] that [parse_date] makes:
    with [format='%d-%m-%Y'], and without a format. [None] when the call
    raises. *)
Class Dates : Type := {
  to_date_dmy : value -> option date;
  to_date_dayfirst : value -> option date
}.

(** [parse_date] (lines 48-65). *)
Definition parse_date {D : Dates} (date_str : value) : result date :=
  match to_date_dmy date_str with
  | Some d => Ok d
  | None =>
      match to_date_dayfirst date_str with
      | Some d => Ok d
      | None => Raise DateParseError
      end
  end.

(** *** The warehouse *)

(** A table with a generated key: its rows under their keys in the order
    in which they came, and the next value of the sequence. *)
Record table (A : Type) : Type := {
  rows : list (Z * A);
  serial : Z
}.
Arguments rows {A} _.
Arguments serial {A} _.

Definition empty_table {A} : table A := {| rows := []; serial := 1 |}.

(** [SELECT id FROM t WHERE p] followed by [fetchone()]. *)
Definition find {A} (p : A -> bool) (t : table A) : option Z :=
  match List.find (fun r => p (snd r)) (rows t) with
  | Some r => Some (fst r)
  | None => None
  end.

(** [INSERT INTO t SELECT a WHERE NOT EXISTS (SELECT 1 FROM t WHERE p)]. *)
Definition insert_if_absent {A} (p : A -> bool) (a : A) (t : table A) : table A :=
  if existsb (fun r => p (snd r)) (rows t) then t
  else {| rows := rows t ++ [(serial t, a)]; serial := (serial t + 1)%Z |}.

Record DateRow : Type := {
  d_date : date; d_day : Z; d_month : Z; d_year : Z
}.

Record ArticleRow : Type := {
  a_title : value; a_description : value; a_url : value
}.

Record FactRow : Type := {
  f_news_id : Z;
  f_date_id : Z;
  f_category_id : Z;
  f_source_category_id : Z;
  f_tag_id : Z;
  f_is_live : bool;
  f_in_pagination : value
}.

(** Modelled from the spec: the schema of the warehouse, whose DDL is not
    among the sources (section 6: five dimension tables with a generated
    key and a unique natural key, and [fact_news] with its unique 5-key).
    A statement that the loader sends is taken to be accepted by the
    server. *)
Record Warehouse : Type := {
  dim_date : table DateRow;
  dim_category : table value;
  dim_source_category : table value;
  dim_tag : table value;
  dim_article : table ArticleRow;
  fact_news : list FactRow
}.

Definition empty_warehouse : Warehouse :=
  {| dim_date := empty_table; dim_category := empty_table;
     dim_source_category := empty_table; dim_tag := empty_table;
     dim_article := empty_table; fact_news := [] |}.

(** [column = %s] in SQL: never true of a null. *)
Definition sql_eq (param stored : value) : bool :=
  notna param && notna stored && value_eqb stored param.

Definition same_key (a b : FactRow) : bool :=
  Z.eqb (f_news_id a) (f_news_id b) && Z.eqb (f_date_id a) (f_date_id b)
  && Z.eqb (f_category_id a) (f_category_id b)
  && Z.eqb (f_source_category_id a) (f_source_category_id b)
  && Z.eqb (f_tag_id a) (f_tag_id b).

(** [INSERT INTO fact_news ... ON CONFLICT (5-key) DO NOTHING]. *)
Definition insert_fact (f : FactRow) (facts : list FactRow) : list FactRow :=
  if existsb (same_key f) facts then facts else facts ++ [f].

(** *** The loader *)

Inductive message : Type :=
| MsgDimensionsLoaded
| MsgDimensionsFailed (e : exn)
| MsgRowWithoutDate
| MsgCategoryNotFound (category : value)
| MsgSourceCategoryNotFound (source_category : value)
| MsgDateNotFound (date_obj : date)
| MsgArticleNotFound (url : value)
| MsgTagNotFound (tag : string)
| MsgFactsLoaded
| MsgFactsFailed (e : exn).

(** [self]: the database behind [self.db_connection], every statement
    committed as it is sent, and what was sent to [self.logger]. *)
Record t : Type := {
  db : Warehouse;
  logger : list (level * message)
}.

Definition log (l : level) (m : message) : M t unit :=
  fun self => (Ok tt, {| db := db self; logger := logger self ++ [(l, m)] |}).

Definition execute (f : Warehouse -> Warehouse) : M t unit :=
  fun self => (Ok tt, {| db := f (db self); logger := logger self |}).

Definition query {A} (f : Warehouse -> A) : M t A :=
  fun self => (Ok (f (db self)), self).

Definition lift {A} (r : result A) : M t A := fun self => (r, self).

(** [str.split(',')]. *)
Fixpoint split_commas (s : string) : list string :=
  match s with
  | EmptyString => [EmptyString]
  | String c rest =>
      if Ascii.eqb c ","%char then EmptyString :: split_commas rest
      else match split_commas rest with
           | [] => [String c EmptyString]
           | w :: ws => String c w :: ws
           end
  end.

(** The characters that [str.strip()] takes off. A character of a string
    is a code point below 256: the white space among them is the blank,
    the controls 9 to 13 and 28 to 31, the next line (133) and the
    no-break space (160). *)
Definition is_space (c : ascii) : bool :=
  let n := nat_of_ascii c in
  (n =? 32) || ((9 <=? n) && (n <=? 13)) || ((28 <=? n) && (n <=? 31))
  || (n =? 133) || (n =? 160).

Fixpoint lstrip (s : string) : string :=
  match s with
  | EmptyString => EmptyString
  | String c rest => if is_space c then lstrip rest else s
  end.

Fixpoint rstrip (s : string) : string :=
  match s with
  | EmptyString => EmptyString
  | String c rest =>
      match rstrip rest with
      | EmptyString => if is_space c then EmptyString else String c EmptyString
      | r => String c r
      end
  end.

Definition strip (s : string) : string := rstrip (lstrip s).

Definition nonempty (s : string) : bool :=
  match s with EmptyString => false | _ => true end.

(** [[t.strip() for t in tags_field.split(',') if t.strip()]]; only a
    string has [split]. *)
Definition parse_tags (tags_field : value) : result (list string) :=
  match tags_field with
  | VStr s => Ok (filter nonempty (map strip (split_commas s)))
  | _ => Raise (AttributeError "split")
  end.

Definition when (b : bool) (m : M t unit) : M t unit :=
  if b then m else ret tt.

Section Loader.

Context {D : Dates}.

Definition insert_date (date_obj : date) (w : Warehouse) : Warehouse :=
  {| dim_date :=
       insert_if_absent (fun r => date_eqb (d_date r) date_obj)
         {| d_date := date_obj; d_day := day date_obj;
            d_month := month date_obj; d_year := year date_obj |}
         (dim_date w);
     dim_category := dim_category w;
     dim_source_category := dim_source_category w;
     dim_tag := dim_tag w; dim_article := dim_article w;
     fact_news := fact_news w |}.

Definition insert_category (name : value) (w : Warehouse) : Warehouse :=
  {| dim_date := dim_date w;
     dim_category := insert_if_absent (sql_eq name) name (dim_category w);
     dim_source_category := dim_source_category w;
     dim_tag := dim_tag w; dim_article := dim_article w;
     fact_news := fact_news w |}.

Definition insert_source_category (name : value) (w : Warehouse) : Warehouse :=
  {| dim_date := dim_date w; dim_category := dim_category w;
     dim_source_category :=
       insert_if_absent (sql_eq name) name (dim_source_category w);
     dim_tag := dim_tag w; dim_article := dim_article w;
     fact_news := fact_news w |}.

Definition insert_tag (tag : string) (w : Warehouse) : Warehouse :=
  {| dim_date := dim_date w; dim_category := dim_category w;
     dim_source_category := dim_source_category w;
     dim_tag := insert_if_absent (sql_eq (VStr tag)) (VStr tag) (dim_tag w);
     dim_article := dim_article w; fact_news := fact_news w |}.

Definition insert_article (title desc url : value) (w : Warehouse) : Warehouse :=
  {| dim_date := dim_date w; dim_category := dim_category w;
     dim_source_category := dim_source_category w; dim_tag := dim_tag w;
     dim_article :=
       insert_if_absent (fun r => sql_eq url (a_url r))
         {| a_title := title; a_description := desc; a_url := url |}
         (dim_article w);
     fact_news := fact_news w |}.

Definition add_fact (f : FactRow) (w : Warehouse) : Warehouse :=
  {| dim_date := dim_date w; dim_category := dim_category w;
     dim_source_category := dim_source_category w; dim_tag := dim_tag w;
     dim_article := dim_article w;
     fact_news := insert_fact f (fact_news w) |}.

(** The body of the loop of [load_to_dimension_tables] (lines 86-154). *)
Definition load_dimension_row (row : Pandas.row) : M t unit :=
  if isna (get row "updated") then ret tt
  else
    date_obj <- lift (parse_date (get row "updated")) ;;
    execute (insert_date date_obj) ;;;
    when (notna (get row "category"))
      (execute (insert_category (get row "category"))) ;;;
    when (notna (get row "source_category"))
      (execute (insert_source_category (get row "source_category"))) ;;;
    (let tags_field := get row "tags" in
     when (notna tags_field)
       (tags <- lift (parse_tags tags_field) ;;
        for_each tags (fun tag => execute (insert_tag tag)))) ;;;
    (let title := get row "title" in
     let desc := get row "description" in
     let url := get row "url" in
     when (notna title && notna desc && notna url)
       (execute (insert_article title desc url))).

(** [try: ... return True / except Exception: ... return False]. *)
Definition try_load (body : M t unit) (done : message) (failed : exn -> message)
  : M t bool :=
  fun self =>
    match body self with
    | (Ok _, self') => (log INFO done ;;; ret true) self'
    | (Raise e, self') => (log ERROR (failed e) ;;; ret false) self'
    end.

(** [load_to_dimension_tables] (lines 67-161). *)
Definition load_to_dimension_tables (data : DataFrame) : M t bool :=
  try_load (for_each (iterrows data) load_dimension_row)
           MsgDimensionsLoaded MsgDimensionsFailed.

(** Lines 232-255: one tag of a row whose four keys were found. *)
Definition load_fact_tag (row : Pandas.row)
    (news_id date_id category_id source_category_id : Z) (tag : string) : M t unit :=
  res <- query (fun w => find (sql_eq (VStr tag)) (dim_tag w)) ;;
  match res with
  | None => log WARNING (MsgTagNotFound tag)
  | Some tag_id =>
      execute (add_fact
        {| f_news_id := news_id; f_date_id := date_id;
           f_category_id := category_id;
           f_source_category_id := source_category_id; f_tag_id := tag_id;
           f_is_live := value_eqb (get row "live") (VStr "Yes");
           f_in_pagination := get_default row "in_pagination" (VBool false) |})
  end.

(** The body of the loop of [load_to_fact_table] (lines 183-255). *)
Definition load_fact_row (row : Pandas.row) : M t unit :=
  if isna (get row "updated") then log WARNING MsgRowWithoutDate
  else
    date_obj <- lift (parse_date (get row "updated")) ;;
    res <- query (fun w => find (sql_eq (get row "category")) (dim_category w)) ;;
    match res with
    | None => log WARNING (MsgCategoryNotFound (get row "category"))
    | Some category_id =>
    res <- query (fun w => find (sql_eq (get row "source_category"))
                                (dim_source_category w)) ;;
    match res with
    | None => log WARNING (MsgSourceCategoryNotFound (get row "source_category"))
    | Some source_category_id =>
    res <- query (fun w => find (fun r => date_eqb (d_date r) date_obj) (dim_date w)) ;;
    match res with
    | None => log WARNING (MsgDateNotFound date_obj)
    | Some date_id =>
    res <- query (fun w => find (fun r => sql_eq (get row "url") (a_url r))
                                (dim_article w)) ;;
    match res with
    | None => log WARNING (MsgArticleNotFound (get row "url"))
    | Some news_id =>
        let tags_field := get row "tags" in
        when (notna tags_field)
          (tags <- lift (parse_tags tags_field) ;;
           for_each tags
             (load_fact_tag row news_id date_id category_id source_category_id))
    end end end end.

(** [load_to_fact_table] (lines 163-262). *)
Definition load_to_fact_table (data : DataFrame) : M t bool :=
  try_load (for_each (iterrows data) load_fact_row)
           MsgFactsLoaded MsgFactsFailed.

(** The two calls that [DataPipeline.run] makes on the loader (lines
    78-88): the facts only after the dimensions have succeeded. *)
Definition full_load (data : DataFrame) : M t bool :=
  success_dim <- load_to_dimension_tables data ;;
  if success_dim then load_to_fact_table data else ret false.

End Loader.

(** *** The statements of a load

    Which statements the dimension load sends depends on the rows alone,
    not on the warehouse: they are listed here, the loops above are shown
    to send them in Part II. *)

Inductive statement : Type :=
| InsertDate (date_obj : date)
| InsertCategory (name : value)
| InsertSourceCategory (name : value)
| InsertTag (tag : string)
| InsertArticle (title desc url : value).

Definition run_statement (w : Warehouse) (st : statement) : Warehouse :=
  match st with
  | InsertDate d => insert_date d w
  | InsertCategory v => insert_category v w
  | InsertSourceCategory v => insert_source_category v w
  | InsertTag s => insert_tag s w
  | InsertArticle t d u => insert_article t d u w
  end.

Definition run_statements (w : Warehouse) (l : list statement) : Warehouse :=
  fold_left run_statement l w.

Section Plans.

Context {D : Dates}.

(** The statements of one row, and how its turn of the loop ends. *)
Definition dimension_row_plan (row : Pandas.row) : list statement * result unit :=
  if isna (get row "updated") then ([], Ok tt)
  else
    match parse_date (get row "updated") with
    | Raise e => ([], Raise e)
    | Ok date_obj =>
        let first :=
          [InsertDate date_obj]
            ++ (if notna (get row "category")
                then [InsertCategory (get row "category")] else [])
            ++ (if notna (get row "source_category")
                then [InsertSourceCategory (get row "source_category")] else []) in
        match (if notna (get row "tags") then parse_tags (get row "tags") else Ok []) with
        | Raise e => (first, Raise e)
        | Ok tags =>
            (first ++ map InsertTag tags
               ++ (if notna (get row "title") && notna (get row "description")
                      && notna (get row "url")
                   then [InsertArticle (get row "title") (get row "description")
                                       (get row "url")]
                   else []),
             Ok tt)
        end
    end.

(** The statements of the rows up to the first exception. *)
Fixpoint dimension_plan (rows : list Pandas.row) : list statement * result unit :=
  match rows with
  | [] => ([], Ok tt)
  | row :: rest =>
      match dimension_row_plan row with
      | (sts, Ok _) =>
          let '(more, r) := dimension_plan rest in (sts ++ more, r)
      | (sts, Raise e) => (sts, Raise e)
      end
  end.

(** The four keys of a row, looked up in the order of [load_fact_row];
    a miss gives the warning that is logged for it. *)
Definition fact_keys (w : Warehouse) (row : Pandas.row) (date_obj : date)
  : (Z * Z * Z * Z) + message :=
  match find (sql_eq (get row "category")) (dim_category w) with
  | None => inr (MsgCategoryNotFound (get row "category"))
  | Some category_id =>
  match find (sql_eq (get row "source_category")) (dim_source_category w) with
  | None => inr (MsgSourceCategoryNotFound (get row "source_category"))
  | Some source_category_id =>
  match find (fun r => date_eqb (d_date r) date_obj) (dim_date w) with
  | None => inr (MsgDateNotFound date_obj)
  | Some date_id =>
  match find (fun r => sql_eq (get row "url") (a_url r)) (dim_article w) with
  | None => inr (MsgArticleNotFound (get row "url"))
  | Some news_id => inl (news_id, date_id, category_id, source_category_id)
  end end end end.

Definition fact_of (row : Pandas.row) (keys : Z * Z * Z * Z) (tag_id : Z) : FactRow :=
  let '(news_id, date_id, category_id, source_category_id) := keys in
  {| f_news_id := news_id; f_date_id := date_id; f_category_id := category_id;
     f_source_category_id := source_category_id; f_tag_id := tag_id;
     f_is_live := value_eqb (get row "live") (VStr "Yes");
     f_in_pagination := get_default row "in_pagination" (VBool false) |}.

(** The facts that the tags of a row ask for, and the warnings for the
    tags that [dim_tag] does not hold. *)
Fixpoint tag_plan (w : Warehouse) (row : Pandas.row) (keys : Z * Z * Z * Z)
    (tags : list string) : list FactRow * list (level * message) :=
  match tags with
  | [] => ([], [])
  | tag :: rest =>
      let '(facts, msgs) := tag_plan w row keys rest in
      match find (sql_eq (VStr tag)) (dim_tag w) with
      | None => (facts, (WARNING, MsgTagNotFound tag) :: msgs)
      | Some tag_id => (fact_of row keys tag_id :: facts, msgs)
      end
  end.

(** The facts of one row, its messages, and how its turn ends. *)
Definition fact_row_plan (w : Warehouse) (row : Pandas.row)
  : list FactRow * list (level * message) * result unit :=
  if isna (get row "updated") then ([], [(WARNING, MsgRowWithoutDate)], Ok tt)
  else
    match parse_date (get row "updated") with
    | Raise e => ([], [], Raise e)
    | Ok date_obj =>
        match fact_keys w row date_obj with
        | inr warning => ([], [(WARNING, warning)], Ok tt)
        | inl keys =>
            if notna (get row "tags") then
              match parse_tags (get row "tags") with
              | Raise e => ([], [], Raise e)
              | Ok tags => (tag_plan w row keys tags, Ok tt)
              end
            else ([], [], Ok tt)
        end
    end.

Fixpoint fact_plan (w : Warehouse) (rows : list Pandas.row)
  : list FactRow * list (level * message) * result unit :=
  match rows with
  | [] => ([], [], Ok tt)
  | row :: rest =>
      match fact_row_plan w row with
      | (facts, msgs, Ok _) =>
          let '(more, later, r) := fact_plan w rest in
          (facts ++ more, msgs ++ later, r)
      | (facts, msgs, Raise e) => (facts, msgs, Raise e)
      end
  end.

End Plans.

(** The warehouse with other facts. *)
Definition with_facts (w : Warehouse) (facts : list FactRow) : Warehouse :=
  {| dim_date := dim_date w; dim_category := dim_category w;
     dim_source_category := dim_source_category w; dim_tag := dim_tag w;
     dim_article := dim_article w; fact_news := facts |}.

Definition insert_facts (facts new : list FactRow) : list FactRow :=
  fold_left (fun acc f => insert_fact f acc) new facts.

(** *** What the warehouse holds *)

Definition holds {A} (p : A -> bool) (t : table A) : bool :=
  existsb (fun r => p (snd r)) (rows t).

Definition has_date (w : Warehouse) (d : date) : bool :=
  holds (fun r => date_eqb (d_date r) d) (dim_date w).

Definition has_category (w : Warehouse) (name : value) : bool :=
  holds (sql_eq name) (dim_category w).

Definition has_source_category (w : Warehouse) (name : value) : bool :=
  holds (sql_eq name) (dim_source_category w).

Definition has_tag (w : Warehouse) (tag : string) : bool :=
  holds (sql_eq (VStr tag)) (dim_tag w).

Definition has_article (w : Warehouse) (url : value) : bool :=
  holds (fun r => sql_eq url (a_url r)) (dim_article w).

(** The key that a statement would insert is in the warehouse. *)
Definition present (w : Warehouse) (st : statement) : bool :=
  match st with
  | InsertDate d => has_date w d
  | InsertCategory v => has_category w v
  | InsertSourceCategory v => has_source_category w v
  | InsertTag s => has_tag w s
  | InsertArticle _ _ u => has_article w u
  end.

(** The loader sends no statement whose key is null. *)
Definition keyed (st : statement) : bool :=
  match st with
  | InsertDate _ | InsertTag _ => true
  | InsertCategory v | InsertSourceCategory v => notna v
  | InsertArticle _ _ u => notna u
  end.

(** The natural keys of a table are pairwise different. *)
Definition unique_keys {A} (key_eq : A -> A -> bool) (t : table A) : Prop :=
  forall i j, i < j -> j < List.length (rows t) ->
    forall a b, nth_error (rows t) i = Some a -> nth_error (rows t) j = Some b ->
      key_eq (snd b) (snd a) = false.

Definition dimensions_unique (w : Warehouse) : Prop :=
  unique_keys (fun a b => date_eqb (d_date a) (d_date b)) (dim_date w) /\
  unique_keys sql_eq (dim_category w) /\
  unique_keys sql_eq (dim_source_category w) /\
  unique_keys sql_eq (dim_tag w) /\
  unique_keys (fun a b => sql_eq (a_url a) (a_url b)) (dim_article w).

(** *** Dates to compute with

    An instance for strings and timestamps. With the format
    ['%d-%m-%Y']: day and month in one or two digits, the year in four,
    as the format reads them. In the second attempt of [parse_date]:
    year, month and day as ISO 8601 writes them. The day has to be a day
    of its month and of the days that a timestamp holds, 1677-09-22 to
    2262-04-11. A timestamp is taken as it is, and its date is the day it
    falls on. What else pandas reads is outside this instance. *)
Module Strict.

Definition digit (c : ascii) : option Z :=
  let n := nat_of_ascii c in
  if (48 <=? n) && (n <=? 57) then Some (Z.of_nat (n - 48)) else None.

Fixpoint number (acc : Z) (cs : list ascii) : option Z :=
  match cs with
  | [] => Some acc
  | c :: r =>
      match digit c with
      | Some d => number (acc * 10 + d)%Z r
      | None => None
      end
  end.

Definition leap (y : Z) : bool :=
  ((y mod 4 =? 0) && negb (y mod 100 =? 0) || (y mod 400 =? 0))%Z.

Definition days_in_month (y m : Z) : Z :=
  (if m =? 2 then (if leap y then 29 else 28)
   else if (m =? 4) || (m =? 6) || (m =? 9) || (m =? 11) then 30
   else 31)%Z.

(** A day of the calendar that a timestamp of pandas holds. *)
Definition civil (y m d : Z) : option date :=
  if ((1 <=? m) && (m <=? 12) && (1 <=? d) && (d <=? days_in_month y m)
      && (16770922 <=? y * 10000 + m * 100 + d)
      && (y * 10000 + m * 100 + d <=? 22620411))%Z
  then Some {| year := y; month := m; day := d |}
  else None.

(** The pieces of a string between its hyphens. *)
Fixpoint fields (s : string) : list (list ascii) :=
  match s with
  | EmptyString => [[]]
  | String c rest =>
      if Ascii.eqb c "-"%char then [] :: fields rest
      else match fields rest with
           | [] => [[c]]
           | w :: ws => (c :: w) :: ws
           end
  end.

(** [%d] and [%m]: one digit or two; [%d] also reads a blank and a
    digit. [%Y]: four digits. *)
Definition month_number (cs : list ascii) : option Z :=
  match cs with
  | [_] | [_; _] => number 0 cs
  | _ => None
  end.

Definition day_number (cs : list ascii) : option Z :=
  match cs with
  | [c1; c2] => if Ascii.eqb c1 " "%char then number 0 [c2] else number 0 cs
  | _ => month_number cs
  end.

Definition year_number (cs : list ascii) : option Z :=
  match cs with
  | [_; _; _; _] => number 0 cs
  | _ => None
  end.

(** The day on which a timestamp falls, from its days since 1970-01-01. *)
Definition civil_from_days (days : Z) : date :=
  (let z := days + 719468 in
   let era := z / 146097 in
   let doe := z - era * 146097 in
   let yoe := (doe - doe / 1460 + doe / 36524 - doe / 146096) / 365 in
   let doy := doe - (365 * yoe + yoe / 4 - yoe / 100) in
   let mp := (5 * doy + 2) / 153 in
   let m := if mp <? 10 then mp + 3 else mp - 9 in
   {| year := (if m <=? 2 then yoe + era * 400 + 1 else yoe + era * 400);
      month := m;
      day := doy - (153 * mp + 2) / 5 + 1 |})%Z.

Definition date_of_timestamp (ns : Z) : date :=
  civil_from_days (ns / 86400000000000)%Z.

Definition to_date_dmy (v : value) : option date :=
  match v with
  | VStr s =>
      match fields s with
      | [d; m; y] =>
          match day_number d, month_number m, year_number y with
          | Some d, Some m, Some y => civil y m d
          | _, _, _ => None
          end
      | _ => None
      end
  | VTime ns => Some (date_of_timestamp ns)
  | _ => None
  end.

Definition to_date_iso (v : value) : option date :=
  match v with
  | VStr s =>
      match fields s with
      | [[y1; y2; y3; y4]; [m1; m2]; [d1; d2]] =>
          match number 0 [d1; d2], number 0 [m1; m2], number 0 [y1; y2; y3; y4] with
          | Some d, Some m, Some y => civil y m d
          | _, _, _ => None
          end
      | _ => None
      end
  | VTime ns => Some (date_of_timestamp ns)
  | _ => None
  end.

Definition dates : Dates :=
  {| Load.to_date_dmy := to_date_dmy; Load.to_date_dayfirst := to_date_iso |}.

End Strict.


Definition tech_frame : DataFrame :=
  [("title", SObj [Some "t"]); ("description", SObj [Some "d"]);
   ("url", SObj [Some "http://x/1"]); ("category", SObj [Some "Tech"]);
   ("source_category", SObj [None]); ("tags", SObj [Some "ai, ai, policy"]);
   ("updated", SObj [Some "15-03-2024"]); ("live", SObj [Some "Yes"])].

(** The same article under a source category. *)
Definition sourced_frame : DataFrame :=
  [("title", SObj [Some "t"]); ("description", SObj [Some "d"]);
   ("url", SObj [Some "http://x/1"]); ("category", SObj [Some "Tech"]);
   ("source_category", SObj [Some "BBC"]); ("tags", SObj [Some "ai, ai, policy"]);
   ("updated", SObj [Some "15-03-2024"]); ("live", SObj [Some "Yes"])].


(** A frame whose date cannot be read. *)
Definition undated_frame : DataFrame :=
  [("url", SObj [Some "http://x/3"]); ("updated", SObj [Some "yesterday"])].

Definition fresh : t := {| db := empty_warehouse; logger := [] |}.

End Load.

(** ** main.py *)

Module Main.

(** What the collaborators of the pipeline answer in one run: whether the
    configuration loads, the connection opens and closes, the extraction
    succeeds; the frame that [process_data] reads, the frame that
    [transform_data] returns for it ([None] for Python's [None]) and
    whether [to_parquet] writes it. *)
Record Env : Type := {
  load_config_ok : bool;
  connect_ok : bool;
  close_ok : bool;
  extract_data : bool;
  process_data : option DataFrame;
  transform_data : DataFrame -> option DataFrame;
  to_parquet_ok : bool
}.

Inductive message : Type :=
| MsgConfigLoaded
| MsgConfigFailed
| MsgConnectionOpened
| MsgConnectionFailed
| MsgConnectionClosed
| MsgCloseFailed
| MsgExtractionFailed
| MsgTransformed
| MsgTransformationFailed
| MsgDimensionStageFailed
| MsgFactStageFailed
| MsgEtlDone.

(** The calls that [run] makes on the connection and on the loader. *)
Inductive call : Type :=
| Connect
| Close
| LoadDimensions
| LoadFacts.

Inductive connection : Type := NotOpened | Opened | Closed.

(** How the process ends: [run] returns, [sys.exit(code)], or an exception
    that nothing catches. *)
Inductive ending : Type :=
| Returned
| SysExit (code : Z)
| Uncaught (e : exn).

Record World : Type := {
  loader : Load.t;
  conn : connection;
  calls : list call;
  logger : list (level * message)
}.

Definition P (A : Type) : Type := World -> (A + ending) * World.

Definition pret {A} (a : A) : P A := fun w => (inl a, w).

Definition pbind {A B} (m : P A) (k : A -> P B) : P B :=
  fun w => match m w with
           | (inl a, w') => k a w'
           | (inr e, w') => (inr e, w')
           end.

Definition sys_exit {A} (code : Z) : P A := fun w => (inr (SysExit code), w).
Definition uncaught {A} (e : exn) : P A := fun w => (inr (Uncaught e), w).

Definition log (l : level) (m : message) : P unit :=
  fun w => (inl tt, {| loader := loader w; conn := conn w; calls := calls w;
                       logger := logger w ++ [(l, m)] |}).

Definition called (c : call) : P unit :=
  fun w => (inl tt, {| loader := loader w; conn := conn w;
                       calls := calls w ++ [c]; logger := logger w |}).

Definition set_conn (c : connection) : P unit :=
  fun w => (inl tt, {| loader := loader w; conn := c; calls := calls w;
                       logger := logger w |}).

(** A method of the loader, run on the shared connection. It raises
    nothing: [try_load] has caught it. *)
Definition on_loader (m : M Load.t bool) : P bool :=
  fun w =>
    let '(r, l') := m (loader w) in
    (match r with Ok b => inl b | Raise e => inr (Uncaught e) end,
     {| loader := l'; conn := conn w; calls := calls w; logger := logger w |}).

Notation "x <-- m ;; k" := (pbind m (fun x => k))
  (at level 61, m at next level, right associativity).
Notation "m >> k" := (pbind m (fun _ => k))
  (at level 61, right associativity).

Section Pipeline.

Context {D : Load.Dates} (env : Env).

Definition load_config : P unit :=
  if load_config_ok env then log INFO MsgConfigLoaded
  else log ERROR MsgConfigFailed >> sys_exit 1.

Definition initialize_db_connection : P unit :=
  called Connect >>
  if connect_ok env then set_conn Opened >> log INFO MsgConnectionOpened
  else log ERROR MsgConnectionFailed >> sys_exit 1.

Definition close_db_connection : P unit :=
  called Close >>
  if close_ok env then set_conn Closed >> log INFO MsgConnectionClosed
  else log ERROR MsgCloseFailed >> sys_exit 1.

(** Lines 50-73 of [run]: configuration, connection, extraction and
    transformation; the transformed frame is what the load gets. *)
Definition prepare : P DataFrame :=
  load_config >>
  initialize_db_connection >>
  (if extract_data env then pret tt
   else log ERROR MsgExtractionFailed >> close_db_connection >> sys_exit 1) >>
  match process_data env with
  | Some data =>
      match transform_data env data with
      | Some transformed_data =>
          if to_parquet_ok env
          then log INFO MsgTransformed >> pret transformed_data
          else uncaught OSError
      | None => uncaught (AttributeError "to_parquet")
      end
  | None =>
      log ERROR MsgTransformationFailed >> close_db_connection >> sys_exit 1
  end.

(** Lines 75-91 of [run]: the load on the shared connection. *)
Definition load (transformed_data : DataFrame) : P unit :=
  success_dim <--
    (called LoadDimensions >>
     on_loader (Load.load_to_dimension_tables transformed_data)) ;;
  (if success_dim then pret tt
   else log ERROR MsgDimensionStageFailed >> close_db_connection >> sys_exit 1) >>
  success_fact <--
    (called LoadFacts >>
     on_loader (Load.load_to_fact_table transformed_data)) ;;
  (if success_fact then pret tt
   else log ERROR MsgFactStageFailed >> close_db_connection >> sys_exit 1) >>
  close_db_connection >>
  log INFO MsgEtlDone.

(** [run] (lines 49-91). *)
Definition run : P unit :=
  transformed_data <-- prepare ;;
  load transformed_data.

End Pipeline.

(** A run in which everything works but the reading of the date. *)
Definition undated_env : Env :=
  {| load_config_ok := true; connect_ok := true; close_ok := true;
     extract_data := true; process_data := Some Load.undated_frame;
     transform_data := fun data => Some data; to_parquet_ok := true |}.

Definition start : World :=
  {| loader := Load.fresh; conn := NotOpened; calls := []; logger := [] |}.

Definition connected : World :=
  {| loader := Load.fresh; conn := Opened; calls := [Connect];
     logger := [(INFO, MsgConfigLoaded); (INFO, MsgConnectionOpened);
                (INFO, MsgTransformed)] |}.

End Main.

(* ===================================================================== *)
(** * Part I, continued: the rest of the code and the terms of its
      properties                                                          *)
(* ===================================================================== *)

(** ** Terms for the load *)

Module LoadTerms.
Import Load.

(** The character occurs in the string. *)
Fixpoint has_char (c : ascii) (s : string) : bool :=
  match s with
  | EmptyString => false
  | String x rest => Ascii.eqb x c || has_char c rest
  end.

(** The row names its category, its source category and its article. *)
Definition complete (row : Pandas.row) : bool :=
  notna (get row "category") && notna (get row "source_category")
  && notna (get row "title") && notna (get row "description")
  && notna (get row "url").

(** [new] is [old] with rows added at its end. *)
Definition extends {A} (old new : list A) : Prop :=
  exists more, new = old ++ more.

(** Each table of the warehouse has kept its rows, in their places and
    under their keys. *)
Definition warehouse_extends (old new : Warehouse) : Prop :=
  extends (rows (dim_date old)) (rows (dim_date new)) /\
  extends (rows (dim_category old)) (rows (dim_category new)) /\
  extends (rows (dim_source_category old)) (rows (dim_source_category new)) /\
  extends (rows (dim_tag old)) (rows (dim_tag new)) /\
  extends (rows (dim_article old)) (rows (dim_article new)) /\
  extends (fact_news old) (fact_news new).

(** No two facts share their five keys. *)
Definition facts_unique (facts : list FactRow) : Prop :=
  forall i j a b, i < j -> nth_error facts i = Some a -> nth_error facts j = Some b ->
    same_key b a = false.

(** The row of [Load.sourced_frame]. *)
Definition sourced_row : Pandas.row :=
  [("title", VStr "t"); ("description", VStr "d"); ("url", VStr "http://x/1");
   ("category", VStr "Tech"); ("source_category", VStr "BBC");
   ("tags", VStr "ai, ai, policy"); ("updated", VStr "15-03-2024");
   ("live", VStr "Yes")].

(** Two articles of a file that has no [updated] column. *)
Definition dateless_frame : DataFrame :=
  [("title", SObj [Some "a"; Some "b"]);
   ("url", SObj [Some "http://x/1"; Some "http://x/2"]);
   ("category", SObj [Some "Tech"; Some "Tech"])].

(** Two articles, the date of the second one unreadable. *)
Definition half_dated_frame : DataFrame :=
  [("title", SObj [Some "a"; Some "b"]);
   ("category", SObj [Some "Tech"; Some "World"]);
   ("updated", SObj [Some "15-03-2024"; Some "yesterday"])].

(** Two articles, the tags of the second one a number. *)
Definition numbered_frame : DataFrame :=
  [("title", SObj [Some "a"; Some "b"]);
   ("category", SObj [Some "Tech"; Some "World"]);
   ("source_category", SObj [Some "BBC"; Some "CNN"]);
   ("tags", SFloat [None; Some (3 # 2)%Q]);
   ("updated", SObj [Some "15-03-2024"; Some "16-03-2024"])].

Definition numbered_first : Pandas.row :=
  [("title", VStr "a"); ("category", VStr "Tech"); ("source_category", VStr "BBC");
   ("tags", VNull); ("updated", VStr "15-03-2024")].

Definition numbered_second : Pandas.row :=
  [("title", VStr "b"); ("category", VStr "World"); ("source_category", VStr "CNN");
   ("tags", VFloat (3 # 2)%Q); ("updated", VStr "16-03-2024")].

End LoadTerms.

(** ** Terms for the quality of data *)

Module DataQualityTerms.
Import DataQuality.

(** Every column of the frame has as many cells as the frame has rows. *)
Definition rectangular (df : DataFrame) : Prop :=
  forall c s, In (c, s) df -> List.length (cells s) = nrows df.

(** The datasets in which [check_duplicates] finds a duplicated row. *)
Definition with_duplicates (ds : list (string * DataFrame)) : list (string * DataFrame) :=
  filter (fun item => has_duplicates (snd item)) ds.

(** The duplicated rows of all datasets together. *)
Definition total_duplicates (ds : list (string * DataFrame)) : nat :=
  fold_right (fun item n => count_true (duplicated (snd item)) + n) 0 ds.

(** A dataset at which line 63 raises: it has a duplicated row, so the
    line is reached, and a null in every row, so that [groupby] is left
    without a group. *)
Definition ungroupable (df : DataFrame) : bool :=
  has_duplicates df && ungrouped df.

(** The datasets that the loop of [check_duplicates] gets to: all of
    them, or those up to the first one at which it raises. *)
Fixpoint reached (ds : list (string * DataFrame)) : list (string * DataFrame) :=
  match ds with
  | [] => []
  | item :: rest =>
      if ungroupable (snd item) then [item] else item :: reached rest
  end.

(** The report of a check that has ended well. *)
Definition report_of (r : result DuplicateReport) : DuplicateReport :=
  match r with
  | Ok duplicates_df => duplicates_df
  | Raise _ => {| report_columns := []; report_rows := [] |}
  end.

(** A frame with a doubled row and no [url] column. *)
Definition nameless_frame : DataFrame :=
  [("title", SObj [Some "a"; Some "a"])].

(** A frame with a doubled row and no section in any row. *)
Definition sectionless_frame : DataFrame :=
  [("url", SObj [Some "u"; Some "u"]); ("section", SObj [None; None])].

End DataQualityTerms.

(** ** Terms for the handling of nulls *)

Module NullTerms.
Import DataQuality.

(** The methods that [impute_value] knows. *)
Definition known_methods : list string := ["mean"; "median"; "mode"; "interpolate"].

(** The value that a filling method computes from the column. *)
Definition fill_value {N : Numerics} (method : string) (s : series) : result value :=
  if String.eqb method "mean" then mean s
  else if String.eqb method "median" then median s
  else first_mode (mode s).

(** A column of strings that has cells and no value in any of them. *)
Definition blank (s : series) : bool :=
  match s with
  | SObj (x :: xs) => match dropna (x :: xs) with [] => true | _ :: _ => false end
  | _ => false
  end.

(** A column of strings without any value. *)
Definition blank_frame : DataFrame := [("section", SObj [None; None])].

Definition blank_report : list NullReportRow :=
  [{| Dataset := "bbc_df"; Kolom := "section"; Tipe_Data := "object";
      Jumlah_Null_Values := 2; Persentase_Null_Values := (100 # 1)%Q;
      Apakah_Tipe_Data_Date := false |}].

(** Titles, one of them missing, and readings taken within a second. *)
Definition titles_frame : DataFrame :=
  [("title", SObj [Some "a"; None; Some "a"; Some "b"]);
   ("read_at", STime [Some 1500000000%Z; None; Some 3700000000%Z;
                      Some 3900000000%Z])].

Definition titles_report : list NullReportRow :=
  [{| Dataset := "bbc_df"; Kolom := "title"; Tipe_Data := "object";
      Jumlah_Null_Values := 1; Persentase_Null_Values := (25 # 1)%Q;
      Apakah_Tipe_Data_Date := false |}].

End NullTerms.

(** ** Terms for the pipeline *)

Module PipelineTerms.
Import Main.

(** A run in which [transform_data] has caught an exception and returned
    [None]. *)
Definition untransformed_env : Env :=
  {| load_config_ok := true; connect_ok := true; close_ok := true;
     extract_data := true; process_data := Some DataQualityTerms.nameless_frame;
     transform_data := fun _ => None; to_parquet_ok := true |}.

End PipelineTerms.

(** ** scripts/etl/transform.py, and the frames as the objects they are

    [DataTransformer.transform_data] hands its frame to a [DataQuality],
    lets it work and returns the frame it was given. Which of the
    operations of [DataQuality] write into the frame of the caller and
    which make a new frame decides what is returned, so here a frame is an
    object at an address and [self.dq.datasets] binds names to
    addresses. *)

Module Transform.

(** What pandas does around a frame, taken from an interface:
    [pd.to_datetime(s, errors='coerce')], whose result is a temporal
    column with [NaT] where a cell is not read, and the [float64] value of
    [(count / len) * 100]. *)
Class Frames : Type := {
  to_datetime : series -> list (option Z);
  percentage : nat -> nat -> Q
}.

(** The two facts about the interface that proofs rely on: the converted
    column has the length of the column, and a count equal to the length
    gives 100. *)
Definition keeps_length {F : Frames} : Prop :=
  forall s, List.length (to_datetime s) = List.length (cells s).

Definition full_is_hundred {F : Frames} : Prop :=
  forall n, 0 < n -> (percentage n n == 100 # 1)%Q.

(** The lines written by the loggers of the two classes, in the order in
    which they are written. *)
Inductive message : Type :=
| Quality (m : DataQuality.message)
| MsgDatasetHasNulls (name : string)
| MsgValidation (validation_df : list DataQuality.ValidationRow)
| MsgTransformFailed (e : exn).

Record t : Type := {
  (** the frames, each at its address *)
  frames : list DataFrame;
  (** [self.dq.datasets]: the address that a name is bound to *)
  datasets : list (string * nat);
  logger : list (level * message)
}.

Definition deref (fr : list DataFrame) (a : nat) : DataFrame := nth a fr [].

Fixpoint update {A} (l : list A) (i : nat) (x : A) : list A :=
  match l, i with
  | [], _ => []
  | _ :: r, 0 => x :: r
  | y :: r, S i' => y :: update r i' x
  end.

Definition log (l : level) (m : message) : M t unit :=
  fun self => (Ok tt, {| frames := frames self; datasets := datasets self;
                         logger := logger self ++ [(l, m)] |}).

Definition lift {A} (r : result A) : M t A := fun self => (r, self).

(** A write into the frame at an address: [df[c] = ...],
    [df.drop(..., inplace=True)]. *)
Definition modify_frame (a : nat) (f : DataFrame -> DataFrame) : M t unit :=
  fun self => (Ok tt, {| frames := update (frames self) a (f (deref (frames self) a));
                         datasets := datasets self; logger := logger self |}).

(** [self.datasets[name] = df] for a frame [df] that has just been made:
    it gets an address of its own, and the name is bound to it. *)
Definition rebind (name : string) (df : DataFrame) : M t unit :=
  fun self =>
    (Ok tt, {| frames := frames self ++ [df];
               datasets := map (fun item => if String.eqb name (fst item)
                                            then (fst item, List.length (frames self))
                                            else item) (datasets self);
               logger := logger self |}).

(** The datasets as [DataQuality] sees them: each name with the frame at
    its address. *)
Definition view (self : t) : DataQuality.t :=
  {| DataQuality.datasets :=
       map (fun item => (fst item, deref (frames self) (snd item))) (datasets self);
     DataQuality.logger := [] |}.

Definition from_quality (lg : list (level * DataQuality.message))
  : list (level * message) :=
  map (fun entry => (fst entry, Quality (snd entry))) lg.

(** A method of [DataQuality] that reads the frames and writes to none. *)
Definition reading {A} (m : M DataQuality.t A) : M t A :=
  fun self =>
    let '(r, v) := m (view self) in
    (r, {| frames := frames self; datasets := datasets self;
           logger := logger self ++ from_quality (DataQuality.logger v) |}).

Definition write_back (bound : list (string * nat)) (ds : list (string * DataFrame))
    (fr : list DataFrame) : list DataFrame :=
  fold_left (fun fr item =>
               match DataQuality.ds_get ds (fst item) with
               | Some df => update fr (snd item) df
               | None => fr
               end) bound fr.

(** A method of [DataQuality] all of whose writes go into the frames that
    the names are bound to: what it has made of the frame of a name is at
    the address of the name afterwards. *)
Definition in_place {A} (m : M DataQuality.t A) : M t A :=
  fun self =>
    let '(r, v) := m (view self) in
    (r, {| frames := write_back (datasets self) (DataQuality.datasets v) (frames self);
           datasets := datasets self;
           logger := logger self ++ from_quality (DataQuality.logger v) |}).

(** [handle_duplicates] (data_quality.py, lines 111-128) with the objects:
    [drop_duplicates] returns a new frame, and the name is bound to it.
    The frame that the name was bound to is not written to. *)
Definition handle_duplicates_body (dataset_name : value) : M t unit :=
  self <- get_state ;;
  match dataset_name with
  | VStr name =>
      match DataQuality.lookup (datasets self) name with
      | Some a =>
          log INFO (Quality (DataQuality.MsgRemovingDuplicates name)) ;;;
          df' <- lift (drop_duplicates (deref (frames self) a) "url") ;;
          rebind name df'
      | None => ret tt
      end
  | _ => ret tt
  end.

Definition handle_duplicates (duplicates_df : DataQuality.DuplicateReport) : M t unit :=
  if negb (existsb (String.eqb "Dataset") (DataQuality.report_columns duplicates_df))
  then log INFO (Quality DataQuality.MsgNoDuplicates)
  else
    let datasets_with_duplicates :=
      unique (map (fun r => get r "Dataset") (DataQuality.report_rows duplicates_df)) in
    for_each datasets_with_duplicates handle_duplicates_body.

(** [str.lower()] on a code point below 256: the capital letters are A
    to Z and 192 to 222 without the multiplication sign (215). *)
Definition lower_char (c : ascii) : ascii :=
  let n := nat_of_ascii c in
  if ((65 <=? n) && (n <=? 90)) || ((192 <=? n) && (n <=? 222) && negb (n =? 215))
  then ascii_of_nat (n + 32) else c.

Fixpoint lower (s : string) : string :=
  match s with
  | EmptyString => EmptyString
  | String c r => String (lower_char c) (lower r)
  end.

(** [needle in s]. *)
Fixpoint contains (needle s : string) : bool :=
  String.prefix needle s ||
  match s with
  | EmptyString => false
  | String _ r => contains needle r
  end.

Definition is_date_column (col : string) : bool :=
  contains "date" (lower col) || contains "timestamp" (lower col).

Section Transformer.

Context {N : Numerics} {F : Frames} {T : Dtypes}.

(** [_convert_to_datetime] (data_quality.py, lines 96-109), as what it
    writes into the frame: the columns to convert are listed first, then
    each is replaced. *)
Definition convert_to_datetime (df : DataFrame) : DataFrame :=
  let date_columns := filter is_date_column (columns df) in
  fold_left (fun df col =>
               match column df col with
               | Some s => set_column df col (STime (to_datetime s))
               | None => df
               end) date_columns df.

(** The rows of the null report for one dataset: one for each column that
    holds a null, in the order of the columns. *)
Definition null_rows (name : string) (df : DataFrame) : list DataQuality.NullReportRow :=
  flat_map (fun col =>
              let n := null_count (snd col) in
              if 0 <? n then
                [{| DataQuality.Dataset := name;
                    DataQuality.Kolom := fst col;
                    DataQuality.Tipe_Data := dtype (snd col);
                    DataQuality.Jumlah_Null_Values := n;
                    DataQuality.Persentase_Null_Values := percentage n (nrows df);
                    DataQuality.Apakah_Tipe_Data_Date :=
                      is_datetime64_any_dtype (snd col) |}]
              else []) df.

(** [check_null_values] (data_quality.py, lines 69-94). The conversion
    writes into the frame of the dataset. *)
Fixpoint check_null_values_loop (items : list (string * nat))
    (combined_nulls : list DataQuality.NullReportRow)
  : M t (list DataQuality.NullReportRow) :=
  match items with
  | [] => ret combined_nulls
  | (name, a) :: rest =>
      modify_frame a convert_to_datetime ;;;
      self <- get_state ;;
      let null_value_summary := null_rows name (deref (frames self) a) in
      match null_value_summary with
      | [] => check_null_values_loop rest combined_nulls
      | _ =>
          log INFO (MsgDatasetHasNulls name) ;;;
          check_null_values_loop rest (combined_nulls ++ null_value_summary)
      end
  end.

Definition check_null_values : M t (list DataQuality.NullReportRow) :=
  self <- get_state ;;
  check_null_values_loop (datasets self) [].

Definition expected_data_types : list (string * string) :=
  [("year", "int64"); ("day", "int64"); ("month", "int64")].

Definition value_ranges : list (string * (Q * Q)) :=
  [("year", ((1900 # 1)%Q, (2100 # 1)%Q)); ("day", ((1 # 1)%Q, (31 # 1)%Q));
   ("month", ((1 # 1)%Q, (12 # 1)%Q))].

(** Lines 94-116 of [transform_data]: the body of its [try]. *)
Definition transform_steps : M t unit :=
  duplicates_df <- reading DataQuality.check_duplicates ;;
  handle_duplicates duplicates_df ;;;
  null_values_df <- check_null_values ;;
  in_place (DataQuality.handle_null_values null_values_df (25 # 1)%Q) ;;;
  self <- get_state ;;
  log INFO (MsgValidation
              (DataQuality.validate_data_types_and_ranges (view self)
                 expected_data_types value_ranges)).

(** [self.dq = DataQuality({'bbc_df': data})]: the one dataset is the
    frame of the caller, at address 0. *)
Definition held (data : DataFrame) : t :=
  {| frames := [data]; datasets := [("bbc_df", 0)]; logger := [] |}.

(** [transform_data] (transform.py, lines 80-121): what it returns, the
    frame of the caller or [None], and what has been logged. *)
Definition transform_data (data : DataFrame)
  : option DataFrame * list (level * message) :=
  match transform_steps (held data) with
  | (Ok _, self) => (Some (deref (frames self) 0), logger self)
  | (Raise e, self) => (None, logger self ++ [(ERROR, MsgTransformFailed e)])
  end.

(** What the null step of [transform_data] (lines 101-102) makes of the
    frame that the dataset is bound to, the frame taken as a value: the
    conversion that [check_null_values] starts with, then
    [handle_null_values] on its report. *)
Definition cleaned (df : DataFrame) : result DataFrame :=
  let converted := convert_to_datetime df in
  match DataQuality.handle_null_values (null_rows "bbc_df" converted) (25 # 1)%Q
          (DataQuality.with_dataset converted) with
  | (Ok _, v) =>
      match DataQuality.ds_get (DataQuality.datasets v) "bbc_df" with
      | Some df' => Ok df'
      | None => Ok converted
      end
  | (Raise e, _) => Raise e
  end.

End Transformer.

(** *** An instance to compute with

    Integers are nanoseconds, floats are cut to nanoseconds, and no string
    is read as a time; the percentage is the exact one. *)
Module Exact.

Definition to_datetime (s : series) : list (option Z) :=
  match s with
  | SInt xs => map Some xs
  | SFloat xs => map (option_map to_ns) xs
  | STime xs => xs
  | SObj xs => map (fun _ => None) xs
  end.

Definition percentage (count len : nat) : Q :=
  Qred (inject_Z (Z.of_nat (count * 100)) / inject_Z (Z.of_nat len)).

Definition frames : Frames :=
  {| Transform.to_datetime := to_datetime; Transform.percentage := percentage |}.

End Exact.

(** Two articles, the first one extracted twice, a title missing. *)
Definition doubled_frame : DataFrame :=
  [("title", SObj [Some "a"; None; Some "a"]);
   ("url", SObj [Some "http://x/1"; Some "http://x/2"; Some "http://x/1"]);
   ("updated", SObj [Some "15-03-2024"; Some "16-03-2024"; Some "15-03-2024"])].

(** Four articles, no row twice, one title of four missing. *)
Definition single_frame : DataFrame :=
  [("title", SObj [Some "a"; None; Some "a"; Some "b"]);
   ("url", SObj [Some "http://x/1"; Some "http://x/2"; Some "http://x/3";
                 Some "http://x/4"]);
   ("published_date", STime [Some 1710460800000000000%Z; Some 1710547200000000000%Z;
                             None; Some 1710633600000000000%Z])].

End Transform.

(** ** scripts/utils/logger.py

    [logging.getLogger(name)] gives the one logger of that name, kept by
    the [logging] module in a hierarchy: the logger of [scripts.etl] is
    above the logger of [scripts.etl.load], the root is above all, and a
    record goes to the handlers of its logger and of the loggers above
    it. [Logger] adds two handlers to the logger each time it is
    constructed. The hierarchy is kept here as [logging.Manager] keeps
    it, with its placeholders. *)

Module Logging.

Definition NOTSET : nat := 0.
Definition DEBUG : nat := 10.
Definition INFO : nat := 20.
Definition WARNING : nat := 30.
Definition ERROR : nat := 40.
Definition CRITICAL : nat := 50.

(** Where a handler writes: the file [etl_pipeline.log], the console, or
    the standard error of [logging.lastResort]. *)
Inductive sink : Type := File | Console | LastResort.

Record handler : Type := {
  target : sink;
  threshold : nat
}.

(** A logger of the hierarchy: the root, or the logger of a name. *)
Inductive ref : Type := Root | Named (name : string).

Record logger : Type := {
  level : nat;
  handlers : list handler;
  parent : ref
}.

(** What [Manager.loggerDict] holds under a name: a logger, or a
    placeholder with the loggers below it that have been made. *)
Inductive node : Type :=
| Real (l : logger)
| PlaceHolder (loggerMap : list string).

Record manager : Type := {
  root_level : nat;
  root_handlers : list handler;
  loggerDict : list (string * node)
}.

(** The module as it is imported: the root at [WARNING], without handler. *)
Definition imported : manager :=
  {| root_level := WARNING; root_handlers := []; loggerDict := [] |}.

Fixpoint lookup (d : list (string * node)) (name : string) : option node :=
  match d with
  | [] => None
  | (n, x) :: rest => if String.eqb name n then Some x else lookup rest name
  end.

Fixpoint store (d : list (string * node)) (name : string) (x : node)
  : list (string * node) :=
  match d with
  | [] => [(name, x)]
  | (n, old) :: rest =>
      if String.eqb name n then (n, x) :: rest else (n, old) :: store rest name x
  end.

(** [name.rfind(".", 0, stop)], the place counted from [i]. *)
Fixpoint rfind_from (s : string) (i stop : nat) (last : option nat) : option nat :=
  match s with
  | EmptyString => last
  | String c rest =>
      if i <? stop
      then rfind_from rest (S i) stop (if Ascii.eqb c "." then Some i else last)
      else last
  end.

Definition rfind (s : string) (stop : nat) : option nat := rfind_from s 0 stop None.

(** The names that [_fixupParents] goes through, from the longest on:
    [name[:i]] for [i = name.rfind(".")], then for
    [i = name.rfind(".", 0, i - 1)], as long as [i > 0]. *)
Fixpoint prefixes_from (fuel : nat) (name : string) (i : option nat) : list string :=
  match fuel, i with
  | S fuel', Some (S i') =>
      substring 0 (S i') name :: prefixes_from fuel' name (rfind name i')
  | _, _ => []
  end.

Definition prefixes (name : string) : list string :=
  prefixes_from (String.length name) name (rfind name (String.length name)).

(** [_fixupParents]: a placeholder is left under each name up to the
    first one that has a logger, which is the parent; without such a name
    the parent is the root. *)
Fixpoint fixupParents (name : string) (substrs : list string)
    (d : list (string * node)) : list (string * node) * ref :=
  match substrs with
  | [] => (d, Root)
  | substr :: rest =>
      match lookup d substr with
      | None => fixupParents name rest (d ++ [(substr, PlaceHolder [name])])
      | Some (Real _) => (d, Named substr)
      | Some (PlaceHolder loggerMap) =>
          fixupParents name rest
            (store d substr
               (PlaceHolder (if existsb (String.eqb name) loggerMap then loggerMap
                             else loggerMap ++ [name])))
      end
  end.

Definition ref_name (r : ref) : string :=
  match r with
  | Root => "root"
  | Named name => name
  end.

Definition set_parent (d : list (string * node)) (name : string) (p : ref)
  : list (string * node) :=
  match lookup d name with
  | Some (Real l) =>
      store d name (Real {| level := level l; handlers := handlers l; parent := p |})
  | _ => d
  end.

(** [_fixupChildren]: the loggers of the placeholder get the new logger
    as parent, but for those whose parent has a name that begins with the
    name of the new logger. *)
Definition fixupChildren (loggerMap : list string) (name : string)
    (d : list (string * node)) : list (string * node) :=
  fold_left (fun d c =>
               match lookup d c with
               | Some (Real l) =>
                   if String.eqb (substring 0 (String.length name) (ref_name (parent l)))
                                 name
                   then d
                   else set_parent d c (Named name)
               | _ => d
               end) loggerMap d.

Definition is_root (name : string) : bool :=
  String.eqb name "" || String.eqb name "root".

(** The logger that [logging.getLogger(name)] returns. *)
Definition ref_of (name : string) : ref :=
  if is_root name then Root else Named name.

Definition fresh_logger : logger :=
  {| level := NOTSET; handlers := []; parent := Root |}.

(** [logging.getLogger(name)]: the one logger of that name, made on
    first use, without level and without handler, and set into the
    hierarchy. *)
Definition getLogger (name : string) (m : manager) : manager :=
  if is_root name then m
  else
    match lookup (loggerDict m) name with
    | Some (Real _) => m
    | Some (PlaceHolder loggerMap) =>
        let d1 := store (loggerDict m) name (Real fresh_logger) in
        let d2 := fixupChildren loggerMap name d1 in
        let '(d3, p) := fixupParents name (prefixes name) d2 in
        {| root_level := root_level m; root_handlers := root_handlers m;
           loggerDict := set_parent d3 name p |}
    | None =>
        let d1 := loggerDict m ++ [(name, Real fresh_logger)] in
        let '(d3, p) := fixupParents name (prefixes name) d1 in
        {| root_level := root_level m; root_handlers := root_handlers m;
           loggerDict := set_parent d3 name p |}
    end.

(** [setLevel] and [addHandler] on a logger. *)
Definition setLevel (r : ref) (log_level : nat) (m : manager) : manager :=
  match r with
  | Root => {| root_level := log_level; root_handlers := root_handlers m;
               loggerDict := loggerDict m |}
  | Named name =>
      match lookup (loggerDict m) name with
      | Some (Real l) =>
          {| root_level := root_level m; root_handlers := root_handlers m;
             loggerDict := store (loggerDict m) name
                             (Real {| level := log_level; handlers := handlers l;
                                      parent := parent l |}) |}
      | _ => m
      end
  end.

Definition addHandler (r : ref) (h : handler) (m : manager) : manager :=
  match r with
  | Root => {| root_level := root_level m; root_handlers := root_handlers m ++ [h];
               loggerDict := loggerDict m |}
  | Named name =>
      match lookup (loggerDict m) name with
      | Some (Real l) =>
          {| root_level := root_level m; root_handlers := root_handlers m;
             loggerDict := store (loggerDict m) name
                             (Real {| level := level l; handlers := handlers l ++ [h];
                                      parent := parent l |}) |}
      | _ => m
      end
  end.

Definition file_handler : handler := {| target := File; threshold := DEBUG |}.
Definition console_handler : handler := {| target := Console; threshold := INFO |}.

(** [Logger(name, log_level)] (lines 26-72): [getLogger], [setLevel], then
    [_setup_logging], which adds a new file handler and a new console
    handler to whatever handlers the logger has. The directory of the
    log file is taken to be there or to be made, and the file to open. *)
Definition Logger (name : string) (log_level : nat) (m : manager) : manager :=
  let m := getLogger name m in
  let m := setLevel (ref_of name) log_level m in
  let m := addHandler (ref_of name) file_handler m in
  addHandler (ref_of name) console_handler m.

(** The level and the handlers of the logger under a name, if there is
    one. *)
Definition state_of (d : list (string * node)) (name : string)
  : option (nat * list handler) :=
  match lookup d name with
  | Some (Real l) => Some (level l, handlers l)
  | _ => None
  end.

(** The level and the handlers that a logger has of its own. *)
Definition own (m : manager) (r : ref) : option (nat * list handler) :=
  match r with
  | Root => Some (root_level m, root_handlers m)
  | Named name => state_of (loggerDict m) name
  end.


(** The logger and the loggers above it, up to the root, each with its
    level and its handlers. A parent has a shorter name than its child,
    so the length of the name bounds the steps. *)
Fixpoint chain (fuel : nat) (m : manager) (r : ref) : list (nat * list handler) :=
  match r with
  | Root => [(root_level m, root_handlers m)]
  | Named name =>
      match fuel, lookup (loggerDict m) name with
      | S fuel', Some (Real l) => (level l, handlers l) :: chain fuel' m (parent l)
      | _, _ => []
      end
  end.

Definition lineage (m : manager) (r : ref) : list (nat * list handler) :=
  chain (S (String.length (ref_name r))) m r.

(** The hierarchy as [getLogger] keeps it: the parent of a logger is the
    root or a logger of a shorter name, and a placeholder lists loggers
    of longer names. *)
Definition is_logger (d : list (string * node)) (name : string) : Prop :=
  exists l, lookup d name = Some (Real l).

Definition above (d : list (string * node)) (name : string) (p : ref) : Prop :=
  match p with
  | Root => True
  | Named q => String.length q < String.length name /\ is_logger d q
  end.

Definition well_formed (d : list (string * node)) : Prop :=
  (forall name l, lookup d name = Some (Real l) -> above d name (parent l)) /\
  (forall s loggerMap c,
     lookup d s = Some (PlaceHolder loggerMap) -> In c loggerMap ->
     String.length s < String.length c /\ is_logger d c).

(** [getEffectiveLevel]: the first level that is set, from the logger
    upwards. *)
Fixpoint getEffectiveLevel (c : list (nat * list handler)) : nat :=
  match c with
  | [] => NOTSET
  | (l, _) :: rest => if l =? 0 then getEffectiveLevel rest else l
  end.

(** The sinks that a record of the given level is written to by the
    handlers that take it. *)
Definition written (levelno : nat) (hs : list handler) : list sink :=
  map target (filter (fun h => threshold h <=? levelno) hs).

(** [logger.log(levelno, msg)]: [isEnabledFor], with nothing disabled,
    then [callHandlers]: the handlers of the logger and of the loggers
    above it, or [lastResort], a handler at [WARNING], when there is no
    handler at all. *)
Definition emit (m : manager) (r : ref) (levelno : nat) : list sink :=
  let c := lineage m r in
  if (0 <? levelno) && (getEffectiveLevel c <=? levelno) then
    match flat_map snd c with
    | [] => if WARNING <=? levelno then [LastResort] else []
    | hs => written levelno hs
    end
  else [].


(** The loggers after the classes of the given modules have been
    constructed, each calling [Logger(__name__)], in that order. *)
Definition constructed (names : list string) : manager :=
  fold_left (fun m name => Logger name DEBUG m) names imported.

End Logging.

(** ** The pipeline with its transformer *)

Module EndToEnd.

(** A run in which the configuration, the connection, the extraction and
    the writing of the result work, and the transformation is
    [DataTransformer.transform_data]. *)
Definition pipeline_env {N : Numerics} {F : Transform.Frames} {T : Dtypes}
    (staging : option DataFrame) : Main.Env :=
  {| Main.load_config_ok := true; Main.connect_ok := true; Main.close_ok := true;
     Main.extract_data := true; Main.process_data := staging;
     Main.transform_data := fun data => fst (Transform.transform_data data);
     Main.to_parquet_ok := true |}.

End EndToEnd.

(* ===================================================================== *)
(** * Part II: theorems                                                   *)
(* ===================================================================== *)

(** ** The monad *)

Lemma bind_ok {S A B} (m : M S A) (k : A -> M S B) s a s' :
  m s = (Ok a, s') -> bind m k s = k a s'.
Proof. intros H. unfold bind. rewrite H. reflexivity. Qed.

(** ** Masks and [duplicated] *)

Section Masks.

Context {K : Type} (eqb : K -> K -> bool).

Lemma duplicated_from_length seen (l : list K) :
  List.length (duplicated_from eqb seen l) = List.length l.
Proof.
  revert seen. induction l as [|k l IH]; intros seen; simpl; [reflexivity|].
  now rewrite IH.
Qed.

Lemma select_In {A} (mask : list bool) (l : list A) x :
  In x (select mask l) -> In x l.
Proof.
  revert mask. induction l as [|y l IH]; intros [|b mask]; simpl; try tauto.
  destruct b; simpl; intros H.
  - destruct H as [H|H]; [now left | right; eauto].
  - right; eauto.
Qed.

(** Whoever survives [~duplicated] equals nobody seen before it. *)
Lemma kept_not_seen seen (l : list K) x :
  In x (select (map negb (duplicated_from eqb seen l)) l) ->
  existsb (eqb x) seen = false.
Proof.
  revert seen. induction l as [|k l IH]; intros seen; simpl; [tauto|].
  destruct (existsb (eqb k) seen) eqn:E; simpl.
  - intros H. apply IH in H. simpl in H.
    apply orb_false_iff in H. tauto.
  - intros [->|H]; [assumption|].
    apply IH in H. simpl in H. apply orb_false_iff in H. tauto.
Qed.

(** No two survivors are equal: the later one differs from the earlier. *)
Lemma kept_pairwise seen (l : list K) d i j :
  let kept := select (map negb (duplicated_from eqb seen l)) l in
  i < j -> j < List.length kept ->
  eqb (nth j kept d) (nth i kept d) = false.
Proof.
  revert seen i j. induction l as [|k l IH]; intros seen i j; simpl.
  - intros _ H. inversion H.
  - destruct (existsb (eqb k) seen) eqn:E; simpl.
    + apply IH.
    + intros Hij Hj. destruct j as [|j]; [lia|].
      destruct i as [|i].
      * assert (Hin : In (nth j (select (map negb (duplicated_from eqb (k :: seen) l)) l) d)
                         (select (map negb (duplicated_from eqb (k :: seen) l)) l))
          by (apply nth_In; lia).
        apply kept_not_seen in Hin. simpl in Hin.
        apply orb_false_iff in Hin. tauto.
      * apply IH; lia.
Qed.

(** An entry is marked exactly when it equals an earlier entry. *)
Lemma duplicated_from_nth seen (l : list K) d i :
  i < List.length l ->
  nth i (duplicated_from eqb seen l) false = true <->
  (existsb (eqb (nth i l d)) seen = true \/
   exists j, j < i /\ eqb (nth i l d) (nth j l d) = true).
Proof.
  revert seen i. induction l as [|k l IH]; intros seen i Hi; simpl in Hi; [lia|].
  destruct i as [|i]; simpl.
  - split; [intros H; now left|].
    intros [H|[j [Hj _]]]; [assumption | lia].
  - rewrite IH by lia. simpl. rewrite orb_true_iff. split.
    + intros [[H|H]|[j [Hj H]]].
      * right. exists 0. split; [lia | assumption].
      * now left.
      * right. exists (S j). split; [lia | assumption].
    + intros [H|[j [Hj H]]]; [left; now right|].
      destruct j as [|j]; [left; now left|].
      right. exists j. split; [lia | assumption].
Qed.

End Masks.

(** ** Cells and frames *)

Lemma value_eqb_refl v : value_eqb v v = true.
Proof.
  destruct v; simpl; auto using Z.eqb_refl, String.eqb_refl, Bool.eqb_reflx.
  apply Qeq_bool_iff. reflexivity.
Qed.

Lemma value_eqb_sym a b : value_eqb a b = value_eqb b a.
Proof.
  destruct a, b; simpl; auto using Z.eqb_sym, String.eqb_sym.
  - destruct b, b0; reflexivity.
  - destruct (Qeq_bool q q0) eqn:E1, (Qeq_bool q0 q) eqn:E2; auto.
    + apply Qeq_bool_iff in E1. symmetry in E1. apply Qeq_bool_iff in E1. congruence.
    + apply Qeq_bool_iff in E2. symmetry in E2. apply Qeq_bool_iff in E2. congruence.
Qed.

Lemma value_eqb_VStr s v : value_eqb (VStr s) v = true -> v = VStr s.
Proof.
  destruct v; simpl; try discriminate.
  intros H. apply String.eqb_eq in H. now subst.
Qed.

Lemma select_map {A B} (f : A -> B) mask (l : list A) :
  select mask (map f l) = map f (select mask l).
Proof.
  revert mask. induction l as [|x l IH]; intros [|b mask]; simpl; auto.
  destruct b; simpl; now rewrite IH.
Qed.

Lemma select_length {A} mask (l : list A) :
  List.length mask = List.length l ->
  List.length (select mask l) = count_true mask.
Proof.
  revert mask. induction l as [|x l IH]; intros [|b mask]; simpl; intros H;
    try reflexivity; try discriminate.
  injection H as H. destruct b; unfold count_true in *; simpl; rewrite IH; auto.
Qed.

Lemma cells_select_series mask s :
  cells (select_series mask s) = select mask (cells s).
Proof. destruct s; simpl; now rewrite select_map. Qed.

Lemma column_select_rows mask df c :
  column (select_rows mask df) c = option_map (select_series mask) (column df c).
Proof.
  induction df as [|[n s] df IH]; simpl; [reflexivity|].
  destruct (String.eqb c n); auto.
Qed.

(** After [drop_duplicates(subset='url')] no two rows share their [url]. *)
Lemma drop_duplicates_no_repeated_url df df' :
  drop_duplicates df "url" = Ok df' -> DataQuality.no_repeated_url df'.
Proof.
  unfold drop_duplicates. destruct (column df "url") as [s|] eqn:Hc; [|discriminate].
  intros [= <-]. unfold DataQuality.no_repeated_url, DataQuality.urls.
  rewrite column_select_rows, Hc. simpl. rewrite cells_select_series.
  intros i j Hij Hj. rewrite value_eqb_sym.
  apply (kept_pairwise value_eqb [] (cells s) VNull i j Hij Hj).
Qed.

(** ** [check_duplicates] and [handle_duplicates] *)

Module DataQualityLemmas.
Import DataQuality.

Lemma ds_get_set_same ds name df df0 :
  ds_get ds name = Some df0 -> ds_get (ds_set ds name df) name = Some df.
Proof.
  induction ds as [|[n old] ds IH]; simpl; [discriminate|].
  destruct (String.eqb name n) eqn:E; simpl; rewrite E; auto.
Qed.

Lemma ds_get_set_other ds name df d :
  d <> name -> ds_get (ds_set ds name df) d = ds_get ds d.
Proof.
  intros Hd. induction ds as [|[n old] ds IH]; simpl.
  - destruct (String.eqb d name) eqn:E; [apply String.eqb_eq in E; contradiction | reflexivity].
  - destruct (String.eqb name n) eqn:E; simpl.
    + apply String.eqb_eq in E. subst n.
      destruct (String.eqb d name) eqn:E'; [apply String.eqb_eq in E'; contradiction | reflexivity].
    + destruct (String.eqb d n); auto.
Qed.

Lemma ds_get_In ds name df : ds_get ds name = Some df -> In (name, df) ds.
Proof.
  induction ds as [|[n old] ds IH]; simpl; [discriminate|].
  destruct (String.eqb name n) eqn:E.
  - intros [= ->]. apply String.eqb_eq in E. subst. now left.
  - auto.
Qed.

Lemma In_ds_get ds name df :
  NoDup (map fst ds) -> In (name, df) ds -> ds_get ds name = Some df.
Proof.
  induction ds as [|[n old] ds IH]; simpl; [tauto|].
  intros Hnd [H|H]; inversion Hnd as [|? ? Hn Hnd']; subst.
  - injection H as -> ->. now rewrite String.eqb_refl.
  - destruct (String.eqb name n) eqn:E; [|auto].
    apply String.eqb_eq in E. subst n. exfalso. apply Hn.
    change name with (fst (name, df)). now apply in_map.
Qed.

Lemma transform_size_length all sizes :
  transform_size all = Ok sizes -> List.length sizes = List.length all.
Proof.
  unfold transform_size. destruct all as [|r all]; [now intros [= <-]|].
  destruct (forallb (existsb isna) (r :: all)); [discriminate|].
  intros [= <-]. simpl. now rewrite length_map.
Qed.

Lemma forallb_map {A B} (p : B -> bool) (f : A -> B) l :
  forallb p (map f l) = forallb (fun a => p (f a)) l.
Proof. induction l as [|a l IH]; simpl; [reflexivity | now rewrite IH]. Qed.

Lemma select_combine_length {A B} mask (l : list A) (l' : list B) :
  List.length mask = List.length l -> List.length l' = List.length l ->
  List.length (select mask (combine l l')) = count_true mask.
Proof.
  intros H1 H2. apply select_length. rewrite length_combine, H2, Nat.min_id.
  exact H1.
Qed.

(** What line 63 decides: the rows of the report of one dataset, or
    [IndexError] for a frame that has rows, a null in each. *)
Lemma duplicates_of_cases name df :
  match duplicates_of name df with
  | Ok rows =>
      (iterrows df = [] \/ ungrouped df = false) /\
      List.length rows = count_true (duplicated df) /\
      forall r, In r rows -> get r "Dataset" = VStr name
  | Raise e => e = IndexError /\ ungrouped df = true /\ iterrows df <> []
  end.
Proof.
  unfold duplicates_of. cbv zeta.
  destruct (transform_size (map (fun r => map snd r) (iterrows df)))
    as [sizes|e] eqn:Hs.
  - split; [|split].
    + unfold transform_size in Hs. unfold ungrouped.
      destruct (iterrows df) as [|r rows] eqn:Hrows; [now left|]. right.
      rewrite <- (forallb_map (existsb isna) (fun r => map snd r)).
      cbn [map] in *.
      now destruct (forallb (existsb isna) (map snd r :: map (fun r => map snd r) rows)).
    + rewrite length_map. apply select_combine_length.
      * unfold duplicated, duplicated_keys.
        now rewrite duplicated_from_length, length_map.
      * apply transform_size_length in Hs. now rewrite length_map in Hs.
    + intros r H. apply in_map_iff in H as [r0 [<- _]]. reflexivity.
  - unfold transform_size in Hs. unfold ungrouped.
    destruct (iterrows df) as [|r rows] eqn:Hrows; [discriminate|].
    rewrite <- (forallb_map (existsb isna) (fun r => map snd r)).
    cbn [map] in *.
    destruct (forallb (existsb isna) (map snd r :: map (fun r => map snd r) rows));
      [|discriminate].
    injection Hs as <-. repeat split. discriminate.
Qed.

Lemma has_duplicates_iterrows df : has_duplicates df = true -> iterrows df <> [].
Proof.
  unfold has_duplicates, duplicated, duplicated_keys. intros H E. rewrite E in H.
  discriminate.
Qed.

(** The labels of the report: those it had, and the name of every dataset
    of the loop that holds a duplicated row. The datasets stay as they
    are. The loop raises at the first dataset with a duplicated row whose
    rows hold a null each. *)
Lemma check_duplicates_loop_spec items : forall combined self,
  exists r lg,
    check_duplicates_loop items combined self
      = (r, {| datasets := datasets self; logger := lg |}) /\
    match r with
    | Ok rep =>
        (existsb (String.eqb "Dataset") (report_columns combined) = true ->
         existsb (String.eqb "Dataset") (report_columns rep) = true) /\
        (forall v, In v (map (fun r => get r "Dataset") (report_rows rep)) <->
           In v (map (fun r => get r "Dataset") (report_rows combined)) \/
           exists name df,
             In (name, df) items /\ has_duplicates df = true /\ v = VStr name) /\
        (forall name df, In (name, df) items -> has_duplicates df = true ->
           ungrouped df = false)
    | Raise e =>
        e = IndexError /\
        exists name df,
          In (name, df) items /\ has_duplicates df = true /\ ungrouped df = true
    end.
Proof.
  induction items as [|[name df] items IH]; intros combined self; simpl.
  - exists (Ok combined), (logger self). split; [destruct self; reflexivity|].
    split; [auto|]. split; [|intros n d []].
    intros v. split; [now left|].
    intros [H|[n [d [[] _]]]]; assumption.
  - fold (has_duplicates df). destruct (has_duplicates df) eqn:Hd.
    + set (self1 := {| datasets := datasets self;
                       logger := logger self ++ [(INFO, MsgDuplicateRows name (count_true (duplicated df)))] |}).
      pose proof (duplicates_of_cases name df) as Hcases.
      unfold bind at 1, log at 1. fold self1. unfold bind at 1, lift at 1.
      destruct (duplicates_of name df) as [rows|e].
      * destruct Hcases as [Hgr [Hlen Hlabel]].
        assert (Hung : ungrouped df = false).
        { destruct Hgr as [Hgr|Hgr]; [|assumption].
          now apply has_duplicates_iterrows in Hd. }
        assert (Hne : rows <> []).
        { intros ->. unfold has_duplicates in Hd. apply Nat.ltb_lt in Hd.
          simpl in Hlen. lia. }
        destruct (IH (concat combined (duplicates_columns df) rows) self1)
          as [r [lg [Hrun Hr]]].
        exists r, lg. split; [exact Hrun|].
        destruct r as [rep|e]; [|destruct Hr as [He [n [d [Hin H]]]]; split;
                                  [assumption | exists n, d; split; [now right | exact H]]].
        destruct Hr as [Hcol [Hrows Hall]]. split; [|split].
        -- intros Hc. apply Hcol. simpl. rewrite existsb_app, Hc. reflexivity.
        -- intros v. rewrite Hrows. simpl. rewrite map_app, in_app_iff. split.
           ++ intros [[H|H]|[n [d [Hin [Hdup ->]]]]].
              ** now left.
              ** right. exists name, df. split; [now left|]. split; [assumption|].
                 apply in_map_iff in H as [r [<- Hr]]. now apply Hlabel.
              ** right. exists n, d. split; [now right|]. tauto.
           ++ intros [H|[n [d [[Hin|Hin] [Hdup ->]]]]].
              ** left. now left.
              ** injection Hin as -> ->. left. right.
                 destruct rows as [|r rs]; [contradiction|].
                 simpl. left. apply Hlabel. now left.
              ** right. exists n, d. tauto.
        -- intros n d [[= <- <-]|Hin] Hdup; [assumption | now apply (Hall n d)].
      * destruct Hcases as [-> [Hung _]].
        exists (Raise IndexError), (logger self1). split; [reflexivity|].
        split; [reflexivity|]. exists name, df. split; [now left | auto].
    + destruct (IH combined self) as [r [lg [Hrun Hr]]].
      exists r, lg. split; [exact Hrun|].
      destruct r as [rep|e].
      * destruct Hr as [Hcol [Hrows Hall]]. split; [exact Hcol|]. split.
        -- intros v. rewrite Hrows. split.
           ++ intros [H|[n [d [Hin H]]]]; [now left|]. right. exists n, d.
              split; [now right | exact H].
           ++ intros [H|[n [d [[Hin|Hin] [Hdup Hv]]]]]; [now left| |].
              ** injection Hin as -> ->. congruence.
              ** right. exists n, d. tauto.
        -- intros n d [[= <- <-]|Hin] Hdup; [congruence | now apply (Hall n d)].
      * destruct Hr as [He [n [d [Hin H]]]]. split; [assumption|].
        exists n, d. split; [now right | exact H].
Qed.

Lemma unique_NoDup l : NoDup (unique l).
Proof.
  unfold unique, duplicated_keys.
  apply (NoDup_nth _ VNull). intros i j Hi Hj E.
  destruct (Nat.lt_trichotomy i j) as [H|[H|H]]; [|assumption|].
  - pose proof (kept_pairwise value_eqb [] l VNull i j H Hj) as Hne. simpl in Hne.
    fold (duplicated_keys value_eqb l) in Hne. unfold duplicated_keys in Hne.
    rewrite E, value_eqb_refl in Hne. discriminate.
  - pose proof (kept_pairwise value_eqb [] l VNull j i H Hi) as Hne. simpl in Hne.
    rewrite E, value_eqb_refl in Hne. discriminate.
Qed.

Lemma unique_In_VStr l s : In (VStr s) (unique l) <-> In (VStr s) l.
Proof.
  unfold unique, duplicated_keys. split; [apply select_In|].
  assert (G : forall seen, In (VStr s) l ->
            existsb (value_eqb (VStr s)) seen = false ->
            In (VStr s) (select (map negb (duplicated_from value_eqb seen l)) l)).
  { induction l as [|k l IH]; intros seen Hin Hseen; simpl in *; [contradiction|].
    destruct (value_eqb (VStr s) k) eqn:Ek.
    - apply value_eqb_VStr in Ek. subst k. rewrite Hseen. simpl. now left.
    - destruct Hin as [->|Hin]; [rewrite value_eqb_refl in Ek; discriminate|].
      assert (Hrec : In (VStr s) (select (map negb (duplicated_from value_eqb (k :: seen) l)) l)).
      { apply IH; [assumption|]. cbn [existsb]. now rewrite Ek, Hseen. }
      destruct (existsb (value_eqb k) seen); simpl; [assumption | now right]. }
  intros Hin. now apply G.
Qed.

(** One pass of the loop of [handle_duplicates] over distinct labels: a
    dataset that is not among them is left alone, one that is among them
    has lost its repeated urls once the loop has come to its end. *)
Lemma handle_duplicates_loop L :
  NoDup L -> forall self r self',
  for_each L handle_duplicates_body self = (r, self') ->
  forall d df, ds_get (datasets self) d = Some df ->
    (~ In (VStr d) L -> ds_get (datasets self') d = Some df) /\
    (In (VStr d) L -> r = Ok tt ->
     exists df', drop_duplicates df "url" = Ok df' /\
                 ds_get (datasets self') d = Some df').
Proof.
  induction L as [|x L IH]; intros Hnd self r self' Hrun d df Hd.
  - simpl in Hrun. injection Hrun as <- <-. split; [auto | intros []].
  - inversion Hnd as [|? ? Hx HndL]; subst.
    assert (Hskip : for_each L handle_duplicates_body self = (r, self') ->
                    x <> VStr d ->
                    (~ In (VStr d) (x :: L) -> ds_get (datasets self') d = Some df) /\
                    (In (VStr d) (x :: L) -> r = Ok tt ->
                     exists df', drop_duplicates df "url" = Ok df' /\
                                 ds_get (datasets self') d = Some df')).
    { intros Hrest Hne. destruct (IH HndL _ _ _ Hrest d df Hd) as [H1 H2]. split.
      - intros Hn. apply H1. intros Hin. apply Hn. now right.
      - intros [Hin|Hin]; [contradiction | now apply H2]. }
    simpl in Hrun. unfold bind at 1 in Hrun.
    unfold handle_duplicates_body at 1 in Hrun. unfold bind at 1, get_state in Hrun.
    destruct x as [| | | | |name];
      try (apply Hskip; [exact Hrun | discriminate]).
    destruct (ds_get (datasets self) name) as [dfn|] eqn:Hn.
    2:{ apply Hskip; [exact Hrun|]. intros [= ->]. congruence. }
    unfold bind at 1, log at 1 in Hrun. unfold bind at 1, lift at 1 in Hrun.
    destruct (drop_duplicates dfn "url") as [dfn'|e] eqn:Hdrop.
    + unfold set_dataset at 1 in Hrun. cbn [datasets logger] in Hrun.
      destruct (String.eqb d name) eqn:E.
      * apply String.eqb_eq in E. subst d. rewrite Hn in Hd. injection Hd as ->.
        match type of Hrun with for_each L _ ?s = _ =>
          destruct (IH HndL s _ _ Hrun name dfn') as [H1 _] end.
        { cbn [datasets]. eapply ds_get_set_same; eassumption. }
        split; [intros Hnot; exfalso; apply Hnot; now left|].
        intros _ _. exists dfn'. split; [assumption | now apply H1].
      * apply String.eqb_neq in E.
        match type of Hrun with for_each L _ ?s = _ =>
          destruct (IH HndL s _ _ Hrun d df) as [H1 H2] end.
        { cbn [datasets]. rewrite ds_get_set_other; assumption. }
        split.
        -- intros Hnot. apply H1. intros Hin. apply Hnot. now right.
        -- intros [Hin|Hin]; [congruence | now apply H2].
    + injection Hrun as <- <-. cbn [datasets]. split; [auto | discriminate].
Qed.

(** [check_duplicates] then [handle_duplicates]: only a dataset that holds
    a full-row duplicate goes through [drop_duplicates(subset='url')]. *)
Lemma check_then_handle_spec self r self' d df :
  NoDup (map fst (datasets self)) ->
  check_then_handle_duplicates self = (r, self') ->
  ds_get (datasets self) d = Some df ->
  (has_duplicates df = false -> ds_get (datasets self') d = Some df) /\
  (has_duplicates df = true -> r = Ok tt ->
   exists df', drop_duplicates df "url" = Ok df' /\
               ds_get (datasets self') d = Some df').
Proof.
  intros Hnd Hrun Hd. unfold check_then_handle_duplicates, check_duplicates in Hrun.
  unfold bind at 1 in Hrun. unfold bind at 1, get_state in Hrun.
  destruct (check_duplicates_loop_spec (datasets self)
              {| report_columns := ["Dataset"]; report_rows := [] |} self)
    as [r0 [lg [Hchk Hr0]]].
  rewrite Hchk in Hrun. destruct r0 as [rep|e].
  2:{ injection Hrun as <- <-. cbn [datasets]. split; [auto | discriminate]. }
  destruct Hr0 as [Hcol [Hrows _]].
  unfold handle_duplicates in Hrun.
  rewrite Hcol in Hrun by reflexivity. cbn [negb] in Hrun.
  pose proof (handle_duplicates_loop _ (unique_NoDup _) _ _ _ Hrun d df Hd) as [H1 H2].
  assert (Hin : In (VStr d) (unique (map (fun r => get r "Dataset") (report_rows rep)))
                <-> has_duplicates df = true).
  { rewrite unique_In_VStr, Hrows. simpl. split.
    - intros [[]|[n [df0 [Hin [Hdup [= ->]]]]]].
      apply In_ds_get in Hin; [|assumption]. congruence.
    - intros Hdup. right. exists d, df. split; [now apply ds_get_In | tauto]. }
  split.
  - intros Hf. apply H1. rewrite Hin. congruence.
  - intros Ht. apply H2. now apply Hin.
Qed.

End DataQualityLemmas.

(** ** Claims on duplicates *)

Import DataQuality.

(** C1 (as the code has it). [check_duplicates] followed by
    [handle_duplicates], run to its end: a dataset that holds at least one
    full-row duplicate is left with no two rows of the same [url]; a
    dataset without a full-row duplicate is left as it was, repeated urls
    included. *)
Theorem check_then_handle_no_repeated_url self self' d df :
  NoDup (map fst (datasets self)) ->
  check_then_handle_duplicates self = (Ok tt, self') ->
  ds_get (datasets self) d = Some df ->
  (has_duplicates df = true ->
   exists df', ds_get (datasets self') d = Some df' /\ no_repeated_url df') /\
  (has_duplicates df = false -> ds_get (datasets self') d = Some df).
Proof.
  intros Hnd Hrun Hd.
  destruct (DataQualityLemmas.check_then_handle_spec _ _ _ _ _ Hnd Hrun Hd) as [H1 H2].
  split; [|exact H1].
  intros Ht. destruct (H2 Ht eq_refl) as [df' [Hdrop Hget]].
  exists df'. split; [assumption|].
  eapply drop_duplicates_no_repeated_url; eassumption.
Qed.

(** The theorem at the frame whose first article was extracted twice: of
    its three rows under one [url], the first alone is left. *)
Lemma check_then_handle_no_repeated_url_witness :
  exists df',
    ds_get (datasets (snd (check_then_handle_duplicates
                             (with_dataset same_url_frame_dup)))) "bbc_df" = Some df' /\
    no_repeated_url df'.
Proof.
  refine (proj1 (check_then_handle_no_repeated_url
                   (with_dataset same_url_frame_dup) _ "bbc_df" same_url_frame_dup
                   _ eq_refl eq_refl) eq_refl).
  simpl. repeat constructor. simpl. tauto.
Defined.

Example first_row_survives :
  check_then_handle_duplicates (with_dataset same_url_frame_dup)
  = (Ok tt,
     {| datasets := [("bbc_df", [("title", SObj [Some "first"]);
                                 ("url", SObj [Some "http://x/1"])])];
        logger := [(INFO, MsgDuplicateRows "bbc_df" 1);
                   (INFO, MsgRemovingDuplicates "bbc_df")] |}).
Proof. reflexivity. Qed.

(** C1 as stated fails: two rows with the same [url] and different titles
    hold no full-row duplicate, the dataset is not in the report, and both
    rows are still there after [handle_duplicates]. *)
Lemma repeated_url_survives :
  check_then_handle_duplicates (with_dataset same_url_frame)
    = (Ok tt, with_dataset same_url_frame) /\
  nrows same_url_frame = 2 /\
  ~ no_repeated_url same_url_frame.
Proof.
  split; [reflexivity|]. split; [reflexivity|].
  intros H. specialize (H 0 1). simpl in H.
  assert (E : true = false) by (apply H; lia). discriminate.
Qed.

(** C9. A dataset of the report, that is one with a full-row duplicate,
    loses every row whose [url] equals the [url] of an earlier row, whether
    that row was reported or not; a dataset with no full-row duplicate is
    left as it was, whatever urls it repeats. *)
Theorem handle_duplicates_follows_report self r self' d df :
  NoDup (map fst (datasets self)) ->
  check_then_handle_duplicates self = (r, self') ->
  ds_get (datasets self) d = Some df ->
  (has_duplicates df = true -> r = Ok tt ->
   exists s keep,
     column df "url" = Some s /\
     ds_get (datasets self') d = Some (select_rows keep df) /\
     List.length keep = List.length (cells s) /\
     forall i, i < List.length (cells s) ->
       (nth i keep true = false <->
        exists j, j < i /\
          value_eqb (nth i (cells s) VNull) (nth j (cells s) VNull) = true)) /\
  (has_duplicates df = false -> ds_get (datasets self') d = Some df).
Proof.
  intros Hnd Hrun Hd.
  destruct (DataQualityLemmas.check_then_handle_spec _ _ _ _ _ Hnd Hrun Hd) as [H1 H2].
  split; [|exact H1].
  intros Ht Hr. destruct (H2 Ht Hr) as [df' [Hdrop Hget]].
  unfold drop_duplicates in Hdrop.
  destruct (column df "url") as [s|] eqn:Hc; [|discriminate].
  injection Hdrop as <-.
  exists s, (map negb (duplicated_keys value_eqb (cells s))).
  split; [reflexivity|]. split; [assumption|]. split.
  - unfold duplicated_keys. now rewrite length_map, duplicated_from_length.
  - intros i Hi. unfold duplicated_keys.
    rewrite <- (duplicated_from_length value_eqb []) in Hi.
    change true with (negb false). rewrite map_nth, negb_false_iff.
    rewrite duplicated_from_length in Hi.
    rewrite (duplicated_from_nth value_eqb [] (cells s) VNull i Hi). simpl.
    split; [intros [H|H]; [discriminate | exact H] | intros H; now right].
Qed.

Lemma handle_duplicates_follows_report_witness :
  exists s keep,
    column same_url_frame_dup "url" = Some s /\
    ds_get (datasets (snd (check_then_handle_duplicates
                             (with_dataset same_url_frame_dup)))) "bbc_df"
      = Some (select_rows keep same_url_frame_dup) /\
    List.length keep = List.length (cells s) /\
    forall i, i < List.length (cells s) ->
      (nth i keep true = false <->
       exists j, j < i /\
         value_eqb (nth i (cells s) VNull) (nth j (cells s) VNull) = true).
Proof.
  refine (proj1 (handle_duplicates_follows_report
                   (with_dataset same_url_frame_dup) (Ok tt) _ "bbc_df"
                   same_url_frame_dup _ eq_refl eq_refl) eq_refl eq_refl).
  simpl. repeat constructor. simpl. tauto.
Defined.

(** ** The loader *)

Module LoadLemmas.
Import Load.

Lemma t_eta (self : t) : {| db := db self; logger := logger self |} = self.
Proof. now destruct self. Qed.

Lemma holds_insert {A} (p : A -> bool) a (tb : table A) :
  p a = true -> holds p (insert_if_absent p a tb) = true.
Proof.
  intros Hp. unfold insert_if_absent, holds.
  destruct (existsb (fun r => p (snd r)) (rows tb)) eqn:E; [exact E|].
  simpl. rewrite existsb_app. simpl. rewrite Hp. now rewrite orb_true_r.
Qed.

Lemma holds_mono {A} (p q : A -> bool) a (tb : table A) :
  holds p tb = true -> holds p (insert_if_absent q a tb) = true.
Proof.
  intros H. unfold insert_if_absent, holds in *.
  destruct (existsb (fun r => q (snd r)) (rows tb)); [exact H|].
  simpl. rewrite existsb_app, H. reflexivity.
Qed.

Lemma insert_absorbed {A} (p : A -> bool) a (tb : table A) :
  holds p tb = true -> insert_if_absent p a tb = tb.
Proof. unfold insert_if_absent, holds. now intros ->. Qed.

Lemma date_eqb_refl d : date_eqb d d = true.
Proof. unfold date_eqb. now rewrite !Z.eqb_refl. Qed.

Lemma sql_eq_refl v : notna v = true -> sql_eq v v = true.
Proof. intros H. unfold sql_eq. now rewrite H, value_eqb_refl. Qed.

(** A statement leaves its key in the warehouse. *)
Lemma present_after st w : keyed st = true -> present (run_statement w st) st = true.
Proof.
  destruct st; simpl; intros Hk;
    unfold has_date, has_category, has_source_category, has_tag, has_article;
    simpl; apply holds_insert; auto using date_eqb_refl, sql_eq_refl.
Qed.

(** What the warehouse holds, it holds after a further statement. *)
Lemma present_mono st st' w : present w st = true -> present (run_statement w st') st = true.
Proof.
  destruct st, st'; simpl;
    unfold has_date, has_category, has_source_category, has_tag, has_article;
    simpl; intros H; try exact H; now apply holds_mono.
Qed.

(** A statement whose key the warehouse holds changes nothing. *)
Lemma run_present st w : present w st = true -> run_statement w st = w.
Proof.
  destruct w; destruct st; simpl;
    unfold has_date, has_category, has_source_category, has_tag, has_article,
           insert_date, insert_category, insert_source_category, insert_tag,
           insert_article;
    simpl; intros H; rewrite insert_absorbed; auto.
Qed.

Lemma present_mono_all st l : forall w,
  present w st = true -> present (run_statements w l) st = true.
Proof.
  induction l as [|st' l IH]; intros w H; simpl; [exact H|].
  apply IH. now apply present_mono.
Qed.

Lemma present_after_all l : forall w,
  forallb keyed l = true ->
  forallb (present (run_statements w l)) l = true.
Proof.
  induction l as [|st l IH]; intros w Hk; simpl in *; [reflexivity|].
  apply andb_true_iff in Hk as [Hst Hl]. apply andb_true_iff. split.
  - apply present_mono_all. now apply present_after.
  - now apply IH.
Qed.

Lemma run_all_present l : forall w,
  forallb (present w) l = true -> run_statements w l = w.
Proof.
  induction l as [|st l IH]; intros w H; simpl in *; [reflexivity|].
  apply andb_true_iff in H as [Hst Hl]. rewrite (run_present _ _ Hst). now apply IH.
Qed.

(** Keyed statements sent twice do what they do when sent once. *)
Lemma run_statements_twice l w :
  forallb keyed l = true ->
  run_statements (run_statements w l) l = run_statements w l.
Proof. intros Hk. apply run_all_present. now apply present_after_all. Qed.

Lemma run_statements_app w l1 l2 :
  run_statements w (l1 ++ l2) = run_statements (run_statements w l1) l2.
Proof. apply fold_left_app. Qed.

Section Plans.

Context {D : Dates}.

Lemma insert_tags_spec tags : forall self,
  for_each tags (fun tag => execute (insert_tag tag)) self
  = (Ok tt, {| db := run_statements (db self) (map InsertTag tags);
               logger := logger self |}).
Proof.
  induction tags as [|tag tags IH]; intros self; simpl.
  - unfold ret. now rewrite t_eta.
  - unfold bind at 1, execute at 1. rewrite IH. reflexivity.
Qed.

Lemma bind_lift_ok {A B} (a : A) (k : A -> M t B) self :
  bind (lift (Ok a)) k self = k a self.
Proof. reflexivity. Qed.

Lemma bind_lift_raise {A B} e (k : A -> M t B) self :
  bind (lift (Raise e)) k self = (Raise e, self).
Proof. reflexivity. Qed.

Lemma bind_execute {B} f (k : unit -> M t B) self :
  bind (execute f) k self = k tt {| db := f (db self); logger := logger self |}.
Proof. reflexivity. Qed.

Lemma bind_when_false {B} m (k : unit -> M t B) self :
  bind (when false m) k self = k tt self.
Proof. reflexivity. Qed.

Lemma bind_when_true {B} m (k : unit -> M t B) self :
  bind (when true m) k self = bind m k self.
Proof. reflexivity. Qed.

Lemma bind_assoc {S A B C} (m : M S A) (k1 : A -> M S B) (k2 : B -> M S C) (s : S) :
  bind (bind m k1) k2 s = bind m (fun x => bind (k1 x) k2) s.
Proof. unfold bind. destruct (m s) as [[a|e] s']; reflexivity. Qed.

(** A turn of the dimension loop sends the statements of its row and
    logs nothing. *)
Lemma load_dimension_row_spec row self :
  load_dimension_row row self
  = (snd (dimension_row_plan row),
     {| db := run_statements (db self) (fst (dimension_row_plan row));
        logger := logger self |}).
Proof.
  unfold load_dimension_row, dimension_row_plan.
  destruct (isna (get row "updated")); [unfold ret; simpl; now rewrite t_eta|].
  destruct (parse_date (get row "updated")) as [date_obj|e];
    [rewrite bind_lift_ok | rewrite bind_lift_raise; simpl; now rewrite t_eta].
  rewrite bind_execute.
  destruct (notna (get row "category"));
    [rewrite bind_when_true, bind_execute | rewrite bind_when_false];
    (destruct (notna (get row "source_category"));
     [rewrite bind_when_true, bind_execute | rewrite bind_when_false]);
    (destruct (notna (get row "tags"));
     [ rewrite bind_when_true, bind_assoc;
       destruct (parse_tags (get row "tags")) as [tags|e];
       [ rewrite bind_lift_ok, (bind_ok _ _ _ _ _ (insert_tags_spec tags _))
       | rewrite bind_lift_raise; reflexivity ]
     | rewrite bind_when_false ]);
    unfold when;
    destruct (notna (get row "title") && notna (get row "description")
              && notna (get row "url"));
    unfold execute, ret; cbn [fst snd db logger];
    rewrite ?run_statements_app; reflexivity.
Qed.

Lemma dimension_loop_spec rows : forall self,
  for_each rows load_dimension_row self
  = (snd (dimension_plan rows),
     {| db := run_statements (db self) (fst (dimension_plan rows));
        logger := logger self |}).
Proof.
  induction rows as [|row rows IH]; intros self; simpl.
  - unfold ret. now rewrite t_eta.
  - unfold bind at 1. rewrite load_dimension_row_spec.
    destruct (dimension_row_plan row) as [sts [[]|e]]; cbn [fst snd].
    + rewrite IH. cbn [db logger].
      destruct (dimension_plan rows) as [more r]. cbn [fst snd].
      now rewrite run_statements_app.
    + reflexivity.
Qed.

Lemma keyed_tags tags : forallb keyed (map InsertTag tags) = true.
Proof. induction tags; simpl; auto. Qed.

Lemma dimension_row_plan_keyed row :
  forallb keyed (fst (dimension_row_plan row)) = true.
Proof.
  unfold dimension_row_plan.
  destruct (isna (get row "updated")); [reflexivity|].
  destruct (parse_date (get row "updated")); [|reflexivity].
  destruct (if notna (get row "tags") then parse_tags (get row "tags") else Ok [])
    as [tags|e]; cbn [fst]; repeat rewrite forallb_app;
    repeat (apply andb_true_iff; split);
    try reflexivity; try apply keyed_tags.
  all: try (destruct (notna (get row "category")) eqn:E; simpl; rewrite ?E; reflexivity).
  all: try (destruct (notna (get row "source_category")) eqn:E; simpl; rewrite ?E;
            reflexivity).
  destruct (notna (get row "title") && notna (get row "description")
            && notna (get row "url")) eqn:E; [|reflexivity].
  simpl. apply andb_true_iff in E as [_ E]. now rewrite E.
Qed.

Lemma dimension_plan_keyed rows :
  forallb keyed (fst (dimension_plan rows)) = true.
Proof.
  induction rows as [|row rows IH]; simpl; [reflexivity|].
  pose proof (dimension_row_plan_keyed row) as Hr.
  destruct (dimension_row_plan row) as [sts [[]|e]]; cbn [fst] in *.
  - destruct (dimension_plan rows) as [more r]. cbn [fst] in *.
    now rewrite forallb_app, Hr, IH.
  - exact Hr.
Qed.

(** *** The fact load *)

Lemma with_facts_same w : with_facts w (fact_news w) = w.
Proof. now destruct w. Qed.

Lemma tag_plan_with_facts w F row keys tags :
  tag_plan (with_facts w F) row keys tags = tag_plan w row keys tags.
Proof. induction tags as [|tag tags IH]; simpl; [reflexivity | now rewrite IH]. Qed.

Lemma fact_row_plan_with_facts w F row :
  fact_row_plan (with_facts w F) row = fact_row_plan w row.
Proof.
  unfold fact_row_plan.
  destruct (isna (get row "updated")); [reflexivity|].
  destruct (parse_date (get row "updated")); [|reflexivity].
  change (fact_keys (with_facts w F) row a) with (fact_keys w row a).
  destruct (fact_keys w row a); [|reflexivity].
  destruct (notna (get row "tags")); [|reflexivity].
  destruct (parse_tags (get row "tags")); [|reflexivity].
  now rewrite tag_plan_with_facts.
Qed.

Lemma fact_plan_with_facts w F rows :
  fact_plan (with_facts w F) rows = fact_plan w rows.
Proof.
  induction rows as [|row rows IH]; simpl; [reflexivity|].
  now rewrite fact_row_plan_with_facts, IH.
Qed.

Lemma insert_facts_app F l1 l2 :
  insert_facts F (l1 ++ l2) = insert_facts (insert_facts F l1) l2.
Proof. apply fold_left_app. Qed.

(** The tags of a row: a fact for each tag that [dim_tag] holds, a
    warning for each tag that it does not hold, and no exception. *)
Lemma load_fact_tags_spec row n d c s tags : forall self,
  for_each tags (load_fact_tag row n d c s) self
  = (Ok tt,
     {| db := with_facts (db self)
                (insert_facts (fact_news (db self))
                   (fst (tag_plan (db self) row (n, d, c, s) tags)));
        logger := logger self ++ snd (tag_plan (db self) row (n, d, c, s) tags) |}).
Proof.
  induction tags as [|tag tags IH]; intros self; simpl.
  - unfold ret. simpl. now rewrite with_facts_same, app_nil_r, t_eta.
  - unfold bind at 1, load_fact_tag at 1. unfold bind at 1, query at 1.
    destruct (tag_plan (db self) row (n, d, c, s) tags) as [facts msgs] eqn:Ep.
    destruct (find (sql_eq (VStr tag)) (dim_tag (db self))) as [tag_id|].
    + unfold execute at 1. rewrite IH. cbn [db logger fst snd].
      change (add_fact ?f (db self))
        with (with_facts (db self) (insert_fact f (fact_news (db self)))).
      rewrite tag_plan_with_facts, Ep. reflexivity.
    + unfold log at 1. rewrite IH. cbn [db logger fst snd].
      rewrite Ep. cbn [fst snd]. now rewrite <- app_assoc.
Qed.

Lemma load_fact_row_spec row self :
  load_fact_row row self
  = (snd (fact_row_plan (db self) row),
     {| db := with_facts (db self)
                (insert_facts (fact_news (db self))
                   (fst (fst (fact_row_plan (db self) row))));
        logger := logger self ++ snd (fst (fact_row_plan (db self) row)) |}).
Proof.
  unfold load_fact_row, fact_row_plan.
  destruct (isna (get row "updated"));
    [unfold log; simpl; now rewrite with_facts_same|].
  destruct (parse_date (get row "updated")) as [date_obj|e];
    [rewrite bind_lift_ok
    | rewrite bind_lift_raise; simpl; now rewrite with_facts_same, app_nil_r, t_eta].
  unfold fact_keys. unfold bind at 1, query at 1.
  destruct (find (sql_eq (get row "category")) (dim_category (db self)));
    [|unfold log; simpl; now rewrite with_facts_same].
  unfold bind at 1, query at 1.
  destruct (find (sql_eq (get row "source_category")) (dim_source_category (db self)));
    [|unfold log; simpl; now rewrite with_facts_same].
  unfold bind at 1, query at 1.
  destruct (find (fun r => date_eqb (d_date r) date_obj) (dim_date (db self)));
    [|unfold log; simpl; now rewrite with_facts_same].
  unfold bind at 1, query at 1.
  destruct (find (fun r => sql_eq (get row "url") (a_url r)) (dim_article (db self)));
    [|unfold log; simpl; now rewrite with_facts_same].
  unfold when. destruct (notna (get row "tags"));
    [|unfold ret; simpl; now rewrite with_facts_same, app_nil_r, t_eta].
  destruct (parse_tags (get row "tags")) as [tags|e];
    [rewrite bind_lift_ok
    | rewrite bind_lift_raise; simpl; now rewrite with_facts_same, app_nil_r, t_eta].
  now rewrite load_fact_tags_spec.
Qed.

Lemma fact_loop_spec rows : forall self,
  for_each rows load_fact_row self
  = (snd (fact_plan (db self) rows),
     {| db := with_facts (db self)
                (insert_facts (fact_news (db self))
                   (fst (fst (fact_plan (db self) rows))));
        logger := logger self ++ snd (fst (fact_plan (db self) rows)) |}).
Proof.
  induction rows as [|row rows IH]; intros self; simpl.
  - unfold ret. simpl. now rewrite with_facts_same, app_nil_r, t_eta.
  - unfold bind at 1. rewrite load_fact_row_spec.
    destruct (fact_row_plan (db self) row) as [[facts msgs] [[]|e]]; cbn [fst snd].
    + rewrite IH. cbn [db logger]. rewrite fact_plan_with_facts.
      destruct (fact_plan (db self) rows) as [[more later] r]. cbn [fst snd].
      unfold with_facts. cbn. now rewrite insert_facts_app, app_assoc.
    + reflexivity.
Qed.

(** *** Facts sent twice *)

Lemma same_key_refl f : same_key f f = true.
Proof. unfold same_key. now rewrite !Z.eqb_refl. Qed.

Lemma insert_fact_present f F : existsb (same_key f) (insert_fact f F) = true.
Proof.
  unfold insert_fact. destruct (existsb (same_key f) F) eqn:E; [exact E|].
  rewrite existsb_app. simpl. now rewrite same_key_refl, orb_true_r.
Qed.

Lemma insert_fact_mono f g F :
  existsb (same_key f) F = true -> existsb (same_key f) (insert_fact g F) = true.
Proof.
  intros H. unfold insert_fact. destruct (existsb (same_key g) F); [exact H|].
  now rewrite existsb_app, H.
Qed.

Lemma insert_fact_absorbed f F : existsb (same_key f) F = true -> insert_fact f F = F.
Proof. unfold insert_fact. now intros ->. Qed.

Lemma insert_facts_mono f l : forall F,
  existsb (same_key f) F = true -> existsb (same_key f) (insert_facts F l) = true.
Proof.
  induction l as [|g l IH]; intros F H; simpl; [exact H|].
  apply IH. now apply insert_fact_mono.
Qed.

Lemma insert_facts_present l : forall F,
  forallb (fun f => existsb (same_key f) (insert_facts F l)) l = true.
Proof.
  induction l as [|f l IH]; intros F; simpl; [reflexivity|].
  apply andb_true_iff. split; [|apply IH].
  apply insert_facts_mono, insert_fact_present.
Qed.

Lemma insert_facts_absorbed l : forall F,
  forallb (fun f => existsb (same_key f) F) l = true -> insert_facts F l = F.
Proof.
  induction l as [|f l IH]; intros F H; simpl in *; [reflexivity|].
  apply andb_true_iff in H as [Hf Hl]. rewrite (insert_fact_absorbed _ _ Hf). now apply IH.
Qed.

Lemma insert_facts_twice l F : insert_facts (insert_facts F l) l = insert_facts F l.
Proof. apply insert_facts_absorbed, insert_facts_present. Qed.

(** *** The two loads as wholes *)

Lemma load_dimensions_ok data self :
  snd (dimension_plan (iterrows data)) = Ok tt ->
  load_to_dimension_tables data self
  = (Ok true,
     {| db := run_statements (db self) (fst (dimension_plan (iterrows data)));
        logger := logger self ++ [(INFO, MsgDimensionsLoaded)] |}).
Proof.
  intros H. unfold load_to_dimension_tables, try_load.
  rewrite dimension_loop_spec, H. reflexivity.
Qed.

Lemma load_dimensions_failed data self e :
  snd (dimension_plan (iterrows data)) = Raise e ->
  load_to_dimension_tables data self
  = (Ok false,
     {| db := run_statements (db self) (fst (dimension_plan (iterrows data)));
        logger := logger self ++ [(ERROR, MsgDimensionsFailed e)] |}).
Proof.
  intros H. unfold load_to_dimension_tables, try_load.
  rewrite dimension_loop_spec, H. reflexivity.
Qed.

Lemma load_facts_spec data self :
  exists b lg,
    load_to_fact_table data self
    = (Ok b,
       {| db := with_facts (db self)
                  (insert_facts (fact_news (db self))
                     (fst (fst (fact_plan (db self) (iterrows data)))));
          logger := lg |}).
Proof.
  unfold load_to_fact_table, try_load. rewrite fact_loop_spec.
  destruct (snd (fact_plan (db self) (iterrows data))) as [[]|e];
    eexists; eexists; reflexivity.
Qed.

Lemma load_facts_result data self F lg :
  fst (load_to_fact_table data {| db := with_facts (db self) F; logger := lg |})
  = fst (load_to_fact_table data self).
Proof.
  unfold load_to_fact_table, try_load. rewrite !fact_loop_spec. cbn [db].
  rewrite fact_plan_with_facts.
  destruct (snd (fact_plan (db self) (iterrows data))) as [[]|e]; reflexivity.
Qed.

Lemma present_with_facts w F st : present (with_facts w F) st = present w st.
Proof. now destruct st. Qed.

Lemma present_all_with_facts w F l :
  forallb (present (with_facts w F)) l = forallb (present w) l.
Proof.
  induction l as [|st l IH]; simpl; [reflexivity|].
  now rewrite IH, present_with_facts.
Qed.

Lemma run_statement_facts w st : fact_news (run_statement w st) = fact_news w.
Proof. now destruct st. Qed.

Lemma run_statements_facts l : forall w, fact_news (run_statements w l) = fact_news w.
Proof.
  induction l as [|st l IH]; intros w; simpl; [reflexivity|].
  now rewrite IH, run_statement_facts.
Qed.

(** The dimension load sent twice leaves what it leaves when sent once. *)
Lemma load_dimensions_twice data self :
  let once := load_to_dimension_tables data self in
  let twice := load_to_dimension_tables data (snd once) in
  fst twice = fst once /\ db (snd twice) = db (snd once).
Proof.
  cbv zeta.
  destruct (snd (dimension_plan (iterrows data))) as [[]|e] eqn:E.
  - rewrite (load_dimensions_ok data self E). cbn [snd fst].
    rewrite (load_dimensions_ok data _ E). cbn [snd fst db].
    split; [reflexivity|]. apply run_statements_twice, dimension_plan_keyed.
  - rewrite (load_dimensions_failed data self e E). cbn [snd fst].
    rewrite (load_dimensions_failed data _ e E). cbn [snd fst db].
    split; [reflexivity|]. apply run_statements_twice, dimension_plan_keyed.
Qed.

(** The dimensions and then the facts, sent twice. *)
Lemma full_load_twice data self :
  let once := full_load data self in
  let twice := full_load data (snd once) in
  fst twice = fst once /\ db (snd twice) = db (snd once).
Proof.
  cbv zeta. unfold full_load.
  set (sts := fst (dimension_plan (iterrows data))).
  assert (Hk : forallb keyed sts = true) by apply dimension_plan_keyed.
  destruct (snd (dimension_plan (iterrows data))) as [[]|e] eqn:E.
  - rewrite (bind_ok _ _ _ _ _ (load_dimensions_ok data self E)). fold sts.
    set (self1 := {| db := run_statements (db self) sts;
                     logger := logger self ++ [(INFO, MsgDimensionsLoaded)] |}).
    destruct (load_facts_spec data self1) as [b [lg Hf]]. rewrite Hf. cbn [snd fst].
    set (F1 := insert_facts (fact_news (db self1))
                 (fst (fst (fact_plan (db self1) (iterrows data))))) in *.
    rewrite (bind_ok _ _ _ _ _ (load_dimensions_ok data _ E)). fold sts. cbn [db logger].
    assert (Hsame : run_statements (with_facts (db self1) F1) sts
                    = with_facts (db self1) F1).
    { apply run_all_present.
      rewrite present_all_with_facts.
      unfold self1. cbn [db]. now apply present_after_all. }
    rewrite Hsame.
    pose proof (load_facts_result data self1 F1
                  (lg ++ [(INFO, MsgDimensionsLoaded)])) as Hres.
    rewrite Hf in Hres. cbn [fst] in Hres.
    destruct (load_facts_spec data {| db := with_facts (db self1) F1;
                 logger := lg ++ [(INFO, MsgDimensionsLoaded)] |}) as [b' [lg' Hf']].
    rewrite Hf' in Hres |- *. cbn [fst snd db] in *. split; [exact Hres|].
    rewrite fact_plan_with_facts.
    change (fact_news (with_facts (db self1) F1)) with F1.
    transitivity (with_facts (db self1)
                    (insert_facts F1 (fst (fst (fact_plan (db self1) (iterrows data))))));
      [reflexivity|].
    f_equal. unfold F1. apply insert_facts_twice.
  - rewrite (bind_ok _ _ _ _ _ (load_dimensions_failed data self e E)). fold sts.
    unfold ret. cbn [snd fst].
    rewrite (bind_ok _ _ _ _ _ (load_dimensions_failed data _ e E)). fold sts.
    cbn [snd fst db]. split; [reflexivity|]. now apply run_statements_twice.
Qed.

(** *** Natural keys stay unique *)

Lemma date_eqb_sym a b : date_eqb a b = date_eqb b a.
Proof.
  unfold date_eqb.
  now rewrite (Z.eqb_sym (year a)), (Z.eqb_sym (month a)), (Z.eqb_sym (day a)).
Qed.

Lemma unique_insert {A} (key_eq : A -> A -> bool) (p : A -> bool) a (tb : table A) :
  (forall r, p r = key_eq a r) ->
  unique_keys key_eq tb -> unique_keys key_eq (insert_if_absent p a tb).
Proof.
  intros Hp Hu. unfold insert_if_absent.
  destruct (existsb (fun r => p (snd r)) (rows tb)) eqn:E; [exact Hu|].
  unfold unique_keys in *. cbn [rows]. intros i j Hij Hj x y Hx Hy.
  rewrite length_app in Hj. simpl in Hj.
  destruct (Nat.lt_ge_cases j (List.length (rows tb))) as [Hlt|Hge].
  - rewrite nth_error_app1 in Hx by lia. rewrite nth_error_app1 in Hy by lia.
    eapply (Hu i j); eassumption.
  - assert (j = List.length (rows tb)) by lia. subst j.
    rewrite nth_error_app1 in Hx by lia.
    rewrite nth_error_app2 in Hy by lia. rewrite Nat.sub_diag in Hy.
    injection Hy as <-.
    cbn [snd]. rewrite <- Hp.
    apply nth_error_In in Hx.
    destruct (p (snd x)) eqn:Epx; [|reflexivity].
    assert (existsb (fun r => p (snd r)) (rows tb) = true)
      by (apply existsb_exists; eauto).
    congruence.
Qed.

Lemma run_statement_unique w st :
  dimensions_unique w -> dimensions_unique (run_statement w st).
Proof.
  unfold dimensions_unique. intros (H1 & H2 & H3 & H4 & H5).
  destruct st; simpl; repeat split; try assumption;
    apply unique_insert; try assumption; try reflexivity.
  intros r. apply date_eqb_sym.
Qed.

Lemma run_statements_unique l : forall w,
  dimensions_unique w -> dimensions_unique (run_statements w l).
Proof.
  induction l as [|st l IH]; intros w H; simpl; [exact H|].
  now apply IH, run_statement_unique.
Qed.

Lemma load_dimensions_unique data self :
  dimensions_unique (db self) ->
  dimensions_unique (db (snd (load_to_dimension_tables data self))).
Proof.
  intros H. destruct (snd (dimension_plan (iterrows data))) as [[]|e] eqn:E.
  - rewrite (load_dimensions_ok data self E). now apply run_statements_unique.
  - rewrite (load_dimensions_failed data self e E). now apply run_statements_unique.
Qed.

End Plans.

End LoadLemmas.

(** ** Claims on the load *)

Section LoadClaims.

Import Load LoadLemmas.
Context {D : Dates}.

(** C2. The dimension load run a second time on the same frame returns
    what it returned and leaves the warehouse as the first run left it;
    natural keys that were unique stay unique; and the full load,
    dimensions then facts, run a second time adds no row to any table. *)
Theorem load_twice_is_load_once data self :
  (let once := load_to_dimension_tables data self in
   let twice := load_to_dimension_tables data (snd once) in
   fst twice = fst once /\ db (snd twice) = db (snd once)) /\
  (dimensions_unique (db self) ->
   dimensions_unique (db (snd (load_to_dimension_tables data self)))) /\
  (let once := full_load data self in
   let twice := full_load data (snd once) in
   fst twice = fst once /\ db (snd twice) = db (snd once)).
Proof.
  split; [apply load_dimensions_twice|].
  split; [apply load_dimensions_unique | apply full_load_twice].
Qed.


Lemma present_in_plan l w st :
  forallb keyed l = true -> In st l -> present (run_statements w l) st = true.
Proof.
  intros Hk Hin. pose proof (present_after_all l w Hk) as H.
  rewrite forallb_forall in H. now apply H.
Qed.



Lemma tag_plan_found w row keys tags tag tag_id :
  In tag tags -> find (sql_eq (VStr tag)) (dim_tag w) = Some tag_id ->
  In (fact_of row keys tag_id) (fst (tag_plan w row keys tags)).
Proof.
  induction tags as [|t tags IH]; simpl; [tauto|].
  intros [->|Hin] Hf; destruct (tag_plan w row keys tags) as [facts msgs].
  - rewrite Hf. now left.
  - specialize (IH Hin Hf).
    destruct (find (sql_eq (VStr t)) (dim_tag w)); [now right | exact IH].
Qed.








End LoadClaims.

(** ** Claims on the pipeline *)

Section PipelineClaims.

Import Main.
Context {D : Load.Dates}.

Lemma load_dimensions_returns data l :
  exists b l',
    Load.load_to_dimension_tables data l = (Ok b, l') /\
    Load.fact_news (Load.db l') = Load.fact_news (Load.db l).
Proof.
  destruct (snd (Load.dimension_plan (iterrows data))) as [[]|e] eqn:E.
  - rewrite (LoadLemmas.load_dimensions_ok data l E). eexists. eexists.
    split; [reflexivity|]. apply LoadLemmas.run_statements_facts.
  - rewrite (LoadLemmas.load_dimensions_failed data l e E). eexists. eexists.
    split; [reflexivity|]. apply LoadLemmas.run_statements_facts.
Qed.

(** Before the load, [run] touches neither the loader nor its calls. *)
Lemma prepare_calls env w r w1 :
  prepare env w = (r, w1) ->
  loader w1 = loader w /\
  (forall c, In c (calls w1) -> In c (calls w) \/ c = Connect \/ c = Close).
Proof.
  unfold prepare, load_config, initialize_db_connection, close_db_connection,
    pbind, log, called, set_conn, sys_exit, uncaught, pret.
  destruct (load_config_ok env), (connect_ok env), (extract_data env),
    (close_ok env), (process_data env) as [data|];
    try destruct (transform_data env data);
    try destruct (to_parquet_ok env);
    cbn; intros [= <- <-]; cbn; (split; [reflexivity|]);
    intros c Hc; repeat (apply in_app_or in Hc as [Hc|Hc]); auto;
    repeat (destruct Hc as [Hc|Hc]; auto); try contradiction.
Qed.

(** C8. When the dimension load returns failure, [run] calls the fact
    load not at all: it calls [close] on the connection, which is closed
    unless [close] itself fails, and leaves with status 1, the facts of
    the warehouse as they were. The fact load is called only on a frame
    for which the dimension load has returned success. *)
Theorem facts_wait_for_dimensions env data w :
  (forall l',
     Load.load_to_dimension_tables data (loader w) = (Ok false, l') ->
     exists w',
       load env data w = (inr (SysExit 1), w') /\
       calls w' = calls w ++ [LoadDimensions; Close] /\
       Load.fact_news (Load.db (loader w')) = Load.fact_news (Load.db (loader w)) /\
       conn w' = (if close_ok env then Closed else conn w)) /\
  (forall e w',
     load env data w = (e, w') ->
     In LoadFacts (calls w') -> ~ In LoadFacts (calls w) ->
     fst (Load.load_to_dimension_tables data (loader w)) = Ok true) /\
  (forall e w',
     run env w = (e, w') ->
     In LoadFacts (calls w') -> ~ In LoadFacts (calls w) ->
     exists transformed_data w1,
       prepare env w = (inl transformed_data, w1) /\
       fst (Load.load_to_dimension_tables transformed_data (loader w1)) = Ok true).
Proof.
  assert (Hload : forall data w e w',
            load env data w = (e, w') ->
            In LoadFacts (calls w') -> ~ In LoadFacts (calls w) ->
            fst (Load.load_to_dimension_tables data (loader w)) = Ok true).
  { intros data0 w0 e w' Hrun Hin Hnot.
    destruct (load_dimensions_returns data0 (loader w0)) as [b [l' [Hd _]]].
    rewrite Hd. destruct b; [reflexivity|]. exfalso.
    unfold load, close_db_connection, pbind, called, on_loader, log, set_conn,
      sys_exit, pret in Hrun.
    cbn [loader conn calls logger] in Hrun. rewrite Hd in Hrun.
    destruct (close_ok env); cbn in Hrun; injection Hrun as <- <-; cbn in Hin;
      repeat (apply in_app_or in Hin as [Hin|Hin]); auto;
      repeat (destruct Hin as [Hin|Hin]; try discriminate); auto. }
  split; [|split].
  - intros l' Hd.
    destruct (load_dimensions_returns data (loader w)) as [b [l'' [Hd' Hfacts]]].
    rewrite Hd in Hd'. injection Hd' as <- <-.
    unfold load, close_db_connection, pbind, called, on_loader, log, set_conn,
      sys_exit, pret.
    cbn [loader conn calls logger]. rewrite Hd.
    destruct (close_ok env); cbn; eexists; (split; [reflexivity|]); cbn;
      rewrite <- app_assoc; repeat split; assumption.
  - apply Hload.
  - intros e w' Hrun Hin Hnot. unfold run, pbind in Hrun.
    destruct (prepare env w) as [[transformed_data|e0] w1] eqn:Hprep.
    + destruct (prepare_calls env w _ w1 Hprep) as [Hl Hc].
      exists transformed_data, w1. split; [reflexivity|].
      apply (Hload transformed_data w1 e w' Hrun Hin).
      intros Hin1. apply Hc in Hin1 as [H|[H|H]]; [auto | discriminate | discriminate].
    + injection Hrun as <- <-.
      destruct (prepare_calls env w _ w1 Hprep) as [_ Hc].
      apply Hc in Hin as [H|[H|H]]; [contradiction | discriminate | discriminate].
Qed.

End PipelineClaims.

(** ** Claims on types and ranges *)

Section RangeClaims.

Import DataQuality.
Context {T : Dtypes}.

Lemma all_in_range_spec min_val max_val s :
  is_numeric_dtype s = true ->
  (all_in_range min_val max_val s = true <->
   forall v, In v (cells s) -> cell_within min_val max_val v).
Proof.
  intros Hn. destruct s as [xs|xs|xs|xs]; try discriminate; simpl.
  - rewrite forallb_forall. split.
    + intros H v Hv. apply in_map_iff in Hv as [z [<- Hz]]. simpl.
      specialize (H z Hz). unfold between in H.
      apply andb_true_iff in H as [H1 H2].
      split; now apply Qle_bool_iff.
    + intros H z Hz. specialize (H (VInt z) (in_map _ _ _ Hz)). simpl in H.
      unfold between. apply andb_true_iff. split; apply Qle_bool_iff; tauto.
  - rewrite forallb_forall. split.
    + intros H v Hv. apply in_map_iff in Hv as [o [<- Ho]].
      specialize (H o Ho). destruct o as [q|]; [|discriminate]. simpl.
      unfold between in H. apply andb_true_iff in H as [H1 H2].
      split; now apply Qle_bool_iff.
    + intros H o Ho. specialize (H _ (in_map (opt_value VFloat) _ _ Ho)).
      destruct o as [q|]; simpl in H; [|contradiction].
      unfold between. apply andb_true_iff. split; apply Qle_bool_iff; tauto.
Qed.

Lemma In_unique_snd {V} (d : list (string * V)) k v v' :
  NoDup (map fst d) -> In (k, v) d -> In (k, v') d -> v = v'.
Proof.
  induction d as [|[n x] d IH]; simpl; [tauto|].
  intros Hnd. inversion Hnd as [|? ? Hn Hnd']; subst.
  intros [H1|H1] [H2|H2].
  - congruence.
  - injection H1 as -> ->. exfalso. apply Hn.
    change k with (fst (k, v')). now apply in_map.
  - injection H2 as -> ->. exfalso. apply Hn.
    change k with (fst (k, v)). now apply in_map.
  - auto.
Qed.

(** C3 (as the code has it). For a numeric column of a dataset that has a
    range, the report holds a range row, the only one for that column if
    names are not repeated, and its status is [Pass] exactly when every
    cell of the column is a number of [[min, max]]: one value out of range
    fails the column, and so does one null. *)
Theorem range_check_passes_iff_all_cells_within
    self expected_types value_ranges name df column s min_val max_val :
  In (name, df) (datasets self) ->
  In (column, s) df ->
  is_numeric_dtype s = true ->
  lookup value_ranges column = Some (min_val, max_val) ->
  let ok := all_in_range min_val max_val s in
  let report := validate_data_types_and_ranges self expected_types value_ranges in
  In (range_row name column min_val max_val ok) report /\
  (ok = true <-> forall v, In v (cells s) -> cell_within min_val max_val v) /\
  (NoDup (map fst (datasets self)) -> NoDup (columns df) ->
   forall r, In r report ->
     vDataset r = name -> vColumn r = column -> vCheck r = Value_Range ->
     (vStatus r = Pass <-> forall v, In v (cells s) -> cell_within min_val max_val v)).
Proof.
  intros Hds Hcol Hnum Hrange ok report.
  assert (Hspec := all_in_range_spec min_val max_val s Hnum). fold ok in Hspec.
  split; [|split; [exact Hspec|]].
  - unfold report, validate_data_types_and_ranges.
    apply in_flat_map. exists (name, df). split; [assumption|]. cbn [fst snd].
    apply in_flat_map. exists (column, s). split; [assumption|].
    unfold validate_column. apply in_or_app. right.
    rewrite Hrange, Hnum. fold ok. unfold range_row.
    destruct ok; simpl; now left.
  - intros Hnd Hndc r Hr Hname Hcolumn Hcheck.
    unfold report, validate_data_types_and_ranges in Hr.
    apply in_flat_map in Hr as [[name' df'] [Hin' Hr]]. cbn [fst snd] in Hr.
    apply in_flat_map in Hr as [[column' s'] [Hc' Hr]].
    unfold validate_column in Hr. apply in_app_or in Hr as [Hr|Hr].
    + destruct (lookup expected_types column'); [|destruct Hr].
      destruct Hr as [<-|[]]. discriminate.
    + destruct (lookup value_ranges column') as [[lo hi]|] eqn:Hl; [|destruct Hr].
      destruct (is_numeric_dtype s') eqn:Hn'; [|destruct Hr].
      assert (Hids : name' = name /\ column' = column).
      { destruct (negb (all_in_range lo hi s')); destruct Hr as [<-|[]]; simpl in *;
          auto. }
      destruct Hids as [-> ->].
      assert (df' = df) by (eapply In_unique_snd; eassumption). subst df'.
      assert (s' = s) by (eapply (In_unique_snd df); eassumption). subst s'.
      rewrite Hrange in Hl. injection Hl as <- <-.
      rewrite <- Hspec. unfold ok.
      destruct (all_in_range min_val max_val s); destruct Hr as [<-|[]]; simpl;
        split; congruence.
Qed.

End RangeClaims.

Section RangeExamples.

Import DataQuality.
#[local] Existing Instance Spelled.dtypes.

Lemma range_check_passes_iff_all_cells_within_witness :
  In (range_row "bbc_df" "year" (1900 # 1)%Q (2100 # 1)%Q false)
     (validate_data_types_and_ranges (with_dataset year_frame)
        [("year", "int64")] [("year", ((1900 # 1)%Q, (2100 # 1)%Q))]).
Proof.
  apply (range_check_passes_iff_all_cells_within (with_dataset year_frame)
           [("year", "int64")] [("year", ((1900 # 1)%Q, (2100 # 1)%Q))]
           "bbc_df" year_frame "year" (SFloat [Some (2000 # 1)%Q; None])
           (1900 # 1)%Q (2100 # 1)%Q).
  - simpl. now left.
  - simpl. now left.
  - reflexivity.
  - reflexivity.
Defined.

(** C3 as stated fails: every non-null value of the column is within the
    range, and the column fails on its null. *)
Lemma null_fails_range_check :
  validate_data_types_and_ranges (with_dataset year_frame) []
    [("year", ((1900 # 1)%Q, (2100 # 1)%Q))]
  = [range_row "bbc_df" "year" (1900 # 1)%Q (2100 # 1)%Q false] /\
  vStatus (range_row "bbc_df" "year" (1900 # 1)%Q (2100 # 1)%Q false) = Fail /\
  (forall q, In (Some q) [Some (2000 # 1)%Q; None] ->
     ((1900 # 1)%Q <= q /\ q <= (2100 # 1)%Q)%Q).
Proof.
  split; [reflexivity|]. split; [reflexivity|].
  intros q [[= <-]|[H|[]]]; [|discriminate].
  split; unfold Qle; simpl; lia.
Qed.

End RangeExamples.

(** ** Claims on nulls *)

Section NullClaims.

Import DataQuality.
Context {N : Numerics}.

Lemma reduce_numeric f s :
  is_numeric_dtype s = true -> reduce f s = Ok (stat f (numbers s)).
Proof. destruct s; try discriminate; reflexivity. Qed.

Lemma impute_reduce_numeric column_name method dataset_name st s f :
  (method = "mean" /\ f = mean_of) \/ (method = "median" /\ f = median_of) ->
  column (fst st) column_name = Some s ->
  is_numeric_dtype s = true ->
  impute_value column_name method dataset_name st
  = (Ok tt,
     (set_column (fst st) column_name (fillna s (stat f (numbers s))),
      snd st ++ [(INFO, MsgImputed column_name dataset_name method)])).
Proof.
  intros Hm Hc Hn. unfold impute_value.
  destruct Hm as [[-> ->]|[-> ->]]; cbn [String.eqb Ascii.eqb Bool.eqb];
    unfold bind, get_column; rewrite Hc; unfold lift_frame, mean, median;
    rewrite (reduce_numeric _ s Hn); reflexivity.
Qed.

Lemma impute_mode column_name dataset_name st s v rest :
  column (fst st) column_name = Some s ->
  mode s = v :: rest ->
  impute_value column_name "mode" dataset_name st
  = (Ok tt,
     (set_column (fst st) column_name (fillna s v),
      snd st ++ [(INFO, MsgImputed column_name dataset_name "mode")])).
Proof.
  intros Hc Hm. unfold impute_value. cbn [String.eqb Ascii.eqb Bool.eqb].
  unfold bind, get_column. rewrite Hc. unfold lift_frame. rewrite Hm. reflexivity.
Qed.

Lemma column_set_same df c s : column (set_column df c s) c = Some s.
Proof.
  induction df as [|[n old] df IH]; simpl.
  - now rewrite String.eqb_refl.
  - destruct (String.eqb c n) eqn:E; simpl; rewrite E; auto.
Qed.

Lemma set_column_twice df c s s' :
  set_column (set_column df c s) c s' = set_column df c s'.
Proof.
  induction df as [|[n old] df IH]; simpl.
  - now rewrite String.eqb_refl.
  - destruct (String.eqb c n) eqn:E; simpl; rewrite E; [reflexivity | now rewrite IH].
Qed.

Lemma impute_interpolate column_name dataset_name st xs :
  column (fst st) column_name = Some (STime xs) ->
  impute_value column_name "interpolate" dataset_name st
  = (Ok tt,
     (set_column (fst st) column_name
        (STime (map (option_map floor_s) (interpolate_from interp_time None 0 xs))),
      snd st ++ [(INFO, MsgImputed column_name dataset_name "interpolate")])).
Proof.
  intros Hc. unfold impute_value. cbn [String.eqb Ascii.eqb Bool.eqb].
  unfold bind, get_column. rewrite Hc. unfold assign_column. cbn [fst snd].
  rewrite column_set_same. unfold interpolate, lift_frame, dt_floor_s.
  cbn [fst snd]. now rewrite set_column_twice.
Qed.

Lemma known_method method :
  In method ["mean"; "median"; "mode"; "interpolate"] <->
  String.eqb method "mean" || String.eqb method "median"
  || String.eqb method "mode" || String.eqb method "interpolate" = true.
Proof.
  rewrite !orb_true_iff, !String.eqb_eq. simpl. intuition congruence.
Qed.

Lemma impute_unknown column_name method dataset_name st :
  ~ In method ["mean"; "median"; "mode"; "interpolate"] ->
  impute_value column_name method dataset_name st
  = (Raise (InvalidMethod method),
     (fst st, snd st ++ [(ERROR, MsgUnknownMethod method)])).
Proof.
  intros H. rewrite known_method in H. apply not_true_is_false in H.
  rewrite !orb_false_iff in H. destruct H as [[[H1 H2] H3] H4].
  unfold impute_value. now rewrite H1, H2, H3, H4.
Qed.

Lemma reduce_raises f s e : reduce f s = Raise e -> e = TypeError.
Proof.
  destruct s as [xs|xs|xs|xs]; simpl; try discriminate.
  destruct (dropna xs); [discriminate | congruence].
Qed.

Lemma first_mode_raises l e : first_mode l = Raise e -> e = KeyError "0".
Proof. destruct l; simpl; [congruence | discriminate]. Qed.

Lemma dt_floor_s_raises s e : dt_floor_s s = Raise e -> e = AttributeError "dt".
Proof. destruct s; simpl; try discriminate; congruence. Qed.

(** A method of the four names never ends on [InvalidMethod]. *)
Lemma impute_known_not_invalid column_name method dataset_name st m st' :
  In method ["mean"; "median"; "mode"; "interpolate"] ->
  impute_value column_name method dataset_name st <> (Raise (InvalidMethod m), st').
Proof.
  intros Hin. unfold impute_value.
  destruct Hin as [<-|[<-|[<-|[<-|[]]]]]; cbn [String.eqb Ascii.eqb Bool.eqb];
    unfold bind at 1; unfold bind at 1, get_column at 1;
    (destruct (column (fst st) column_name) as [s|]; [|discriminate]).
  - unfold bind at 1, lift_frame at 1, mean.
    destruct (reduce mean_of s) as [v|e] eqn:E; [discriminate|].
    apply reduce_raises in E. subst e. discriminate.
  - unfold bind at 1, lift_frame at 1, median.
    destruct (reduce median_of s) as [v|e] eqn:E; [discriminate|].
    apply reduce_raises in E. subst e. discriminate.
  - unfold bind at 1, lift_frame at 1.
    destruct (first_mode (mode s)) as [v|e] eqn:E; [discriminate|].
    apply first_mode_raises in E. subst e. discriminate.
  - unfold bind at 1, assign_column at 1. unfold bind at 1, get_column at 1.
    cbn [fst snd]. rewrite column_set_same.
    unfold bind at 1, lift_frame at 1.
    destruct (dt_floor_s (interpolate s)) as [v|e] eqn:E; [discriminate|].
    apply dt_floor_s_raises in E. subst e. discriminate.
Qed.

Lemma insert_sorted_In {A} (leb : A -> A -> bool) x y l :
  In x (insert_sorted leb y l) <-> x = y \/ In x l.
Proof.
  induction l as [|z l IH]; simpl; [intuition|].
  destruct (leb y z); simpl; [intuition|]. rewrite IH. intuition.
Qed.

Lemma sort_In {A} (leb : A -> A -> bool) x l : In x (sort leb l) <-> In x l.
Proof.
  induction l as [|y l IH]; simpl; [tauto|].
  rewrite insert_sorted_In, IH. intuition.
Qed.

Lemma le_fold_max n l : In n l -> n <= fold_right Nat.max 0 l.
Proof.
  induction l as [|m l IH]; simpl; [tauto|].
  intros [->|H]; [lia | specialize (IH H); lia].
Qed.

(** The first value that [mode()] lists is a value of the column that no
    other value outnumbers. *)
Lemma modes_head {A} (eqb leb : A -> A -> bool) l v rest :
  modes eqb leb l = v :: rest ->
  In v l /\ forall x, In x l -> occurrences eqb l x <= occurrences eqb l v.
Proof.
  unfold modes. intros H.
  assert (Hin : In v (sort leb
            (filter (fun x => occurrences eqb l x
                              =? fold_right Nat.max 0 (map (occurrences eqb l) l))
                    (select (map negb (duplicated_keys eqb l)) l))))
    by (rewrite H; now left).
  apply sort_In, filter_In in Hin as [Hsel Htop].
  apply Nat.eqb_eq in Htop. split; [now apply select_In in Hsel|].
  intros x Hx. rewrite Htop. apply le_fold_max. now apply in_map.
Qed.

Lemma dropna_In {A} (x : A) xs : In x (dropna xs) <-> In (Some x) xs.
Proof.
  induction xs as [|[y|] xs IH]; simpl; [tauto| |].
  - rewrite IH. split; [intros [->|H]; auto | intros [[= ->]|H]; auto].
  - rewrite IH. split; [auto | intros [H|H]; [discriminate | exact H]].
Qed.

(** C7 (as the code has it). [impute_value] ends on [InvalidMethod]
    exactly when the method is none of the four names, and then leaves the
    frame as it was. With one of the four names and a column that suits it, it
    fills the column in place and raises nothing: [mean] and [median] put
    the mean and the median of the non-null numbers of a numeric column in
    the place of its nulls, [mode] puts there the first of the most
    frequent non-null values of a column that has one, [interpolate]
    interpolates a temporal column and floors it to whole seconds. *)
Theorem impute_value_by_method column_name method dataset_name st :
  (~ In method ["mean"; "median"; "mode"; "interpolate"] ->
   impute_value column_name method dataset_name st
   = (Raise (InvalidMethod method),
      (fst st, snd st ++ [(ERROR, MsgUnknownMethod method)]))) /\
  (forall m st',
     impute_value column_name method dataset_name st = (Raise (InvalidMethod m), st') ->
     ~ In method ["mean"; "median"; "mode"; "interpolate"]) /\
  (forall s f,
     (method = "mean" /\ f = mean_of) \/ (method = "median" /\ f = median_of) ->
     column (fst st) column_name = Some s ->
     is_numeric_dtype s = true ->
     impute_value column_name method dataset_name st
     = (Ok tt,
        (set_column (fst st) column_name (fillna s (stat f (numbers s))),
         snd st ++ [(INFO, MsgImputed column_name dataset_name method)]))) /\
  (forall s v rest,
     method = "mode" ->
     column (fst st) column_name = Some s ->
     mode s = v :: rest ->
     impute_value column_name method dataset_name st
     = (Ok tt,
        (set_column (fst st) column_name (fillna s v),
         snd st ++ [(INFO, MsgImputed column_name dataset_name method)]))) /\
  (forall xs x rest,
     mode (SObj xs) = VStr x :: rest ->
     In (Some x) xs /\
     forall y, In (Some y) xs ->
       occurrences String.eqb (dropna xs) y <= occurrences String.eqb (dropna xs) x) /\
  (forall xs,
     method = "interpolate" ->
     column (fst st) column_name = Some (STime xs) ->
     impute_value column_name method dataset_name st
     = (Ok tt,
        (set_column (fst st) column_name
           (STime (map (option_map floor_s)
                       (interpolate_from interp_time None 0 xs))),
         snd st ++ [(INFO, MsgImputed column_name dataset_name method)]))).
Proof.
  split; [apply impute_unknown|]. split.
  { intros m st' H Hin.
    now apply (impute_known_not_invalid column_name method dataset_name st m st' Hin). }
  split; [intros s f; apply impute_reduce_numeric|]. split.
  { intros s v rest ->. apply impute_mode. }
  split.
  { intros xs x rest Hm. simpl in Hm.
    destruct (modes String.eqb String.leb (dropna xs)) as [|x' rest'] eqn:E;
      [discriminate|].
    injection Hm as -> _. apply modes_head in E as [Hin Hmax]. split.
    - now apply dropna_In.
    - intros y Hy. apply Hmax. now apply dropna_In. }
  intros xs ->. apply impute_interpolate.
Qed.


(** *** What an imputed column looks like *)

Lemma count_null_fill {A} (v : A) xs : count_null (fill v xs) = 0.
Proof. unfold count_null, fill. induction xs as [|[x|] xs IH]; simpl; auto. Qed.

Lemma count_null_map {A B} (f : A -> B) xs :
  count_null (map (option_map f) xs) = count_null xs.
Proof.
  unfold count_null. induction xs as [|[x|] xs IH]; simpl; auto.
Qed.

Lemma skip_leading_map {A B} (f : A -> B) xs :
  skip_leading (map (option_map f) xs) = map (option_map f) (skip_leading xs).
Proof. induction xs as [|[x|] xs IH]; simpl; auto. Qed.

Lemma interpolate_after_value {A} interp (xs : list (option A)) : forall p k,
  count_null (interpolate_from interp (Some p) k xs) = 0.
Proof.
  induction xs as [|[x|] xs IH]; intros [i a] k; simpl; [reflexivity| |].
  - apply IH.
  - destruct (next_valid (S k) xs) as [[j b]|]; apply (IH (i, a)).
Qed.

(** After [interpolate()] the only nulls of a column are those that come
    before its first value. *)
Lemma interpolate_leading {A} interp (xs : list (option A)) : forall k,
  count_null (skip_leading (interpolate_from interp None k xs)) = 0.
Proof.
  induction xs as [|[x|] xs IH]; intros k; simpl; [reflexivity| |].
  - apply (interpolate_after_value interp xs (k, x)).
  - apply IH.
Qed.

Lemma fillna_float_repaired f xs : repaired (fillna (SFloat xs) (stat f (dropna xs))).
Proof.
  unfold stat. destruct (dropna xs) eqn:E; simpl.
  - now right.
  - left. apply count_null_fill.
Qed.

(** The method that the type of a column selects, when it raises nothing,
    puts a repaired column in the place of the column. *)
Lemma impute_repairs column_name dataset_name df lg s df' lg' :
  column df column_name = Some s ->
  impute_value column_name (method_for s) dataset_name (df, lg) = (Ok tt, (df', lg')) ->
  exists s', df' = set_column df column_name s' /\ repaired s'.
Proof.
  intros Hc Hrun. unfold method_for in Hrun.
  destruct (is_numeric_dtype s) eqn:Hn.
  - assert (Hred : exists f,
              impute_value column_name
                (if ne_zero (skew s) then "median" else "mean") dataset_name (df, lg)
              = (Ok tt, (set_column df column_name (fillna s (stat f (numbers s))),
                         lg ++ [(INFO, MsgImputed column_name dataset_name
                                   (if ne_zero (skew s) then "median" else "mean"))]))).
    { destruct (ne_zero (skew s)).
      - exists median_of. apply (impute_reduce_numeric _ _ _ (df, lg)); auto.
      - exists mean_of. apply (impute_reduce_numeric _ _ _ (df, lg)); auto. }
    destruct Hred as [f Hred]. rewrite Hred in Hrun. injection Hrun as <- _.
    eexists. split; [reflexivity|].
    destruct s as [xs|xs|xs|xs]; try discriminate; [exact I|].
    apply fillna_float_repaired.
  - destruct s as [xs|xs|xs|xs]; try discriminate; cbn [is_datetime64_any_dtype] in Hrun.
    + rewrite (impute_interpolate column_name dataset_name (df, lg) xs Hc) in Hrun.
      injection Hrun as <- _. eexists. split; [reflexivity|]. simpl.
      rewrite skip_leading_map, count_null_map. apply interpolate_leading.
    + destruct (mode (SObj xs)) as [|v rest] eqn:Em.
      * exfalso. unfold impute_value in Hrun.
        cbn [String.eqb Ascii.eqb Bool.eqb] in Hrun.
        unfold bind, get_column in Hrun. cbn [fst snd] in Hrun.
        rewrite Hc in Hrun. unfold lift_frame in Hrun. rewrite Em in Hrun.
        discriminate.
      * rewrite (impute_mode column_name dataset_name (df, lg) _ v rest Hc Em) in Hrun.
        injection Hrun as <- _. eexists. split; [reflexivity|].
        simpl in Em. destruct (modes String.eqb String.leb (dropna xs)); [discriminate|].
        injection Em as <- _. simpl. apply count_null_fill.
Qed.

Lemma column_set_other df c c' s : c' <> c -> column (set_column df c s) c' = column df c'.
Proof.
  intros Hne. induction df as [|[n old] df IH]; simpl.
  - destruct (String.eqb c' c) eqn:E; [apply String.eqb_eq in E; contradiction|reflexivity].
  - destruct (String.eqb c n) eqn:E; simpl.
    + apply String.eqb_eq in E. subst n.
      destruct (String.eqb c' c) eqn:E'; [apply String.eqb_eq in E'; contradiction|].
      reflexivity.
    + destruct (String.eqb c' n); auto.
Qed.

Lemma column_drop df c c' :
  column (drop_column df c) c' = if String.eqb c c' then None else column df c'.
Proof.
  unfold drop_column. induction df as [|[n s] df IH]; simpl.
  - now destruct (String.eqb c c').
  - destruct (String.eqb c n) eqn:E; simpl.
    + apply String.eqb_eq in E. subst n. rewrite IH.
      rewrite (String.eqb_sym c' c). now destruct (String.eqb c c').
    + destruct (String.eqb c' n) eqn:E'; [|exact IH].
      apply String.eqb_eq in E'. subst n. now rewrite E.
Qed.

Lemma has_column_false df c : has_column df c = false -> column df c = None.
Proof.
  unfold has_column, columns. induction df as [|[n s] df IH]; simpl; [reflexivity|].
  destruct (String.eqb c n); [discriminate | exact IH].
Qed.

(** One turn of the loop of [handle_null_values] that raises nothing:
    every dataset is still there, no column has come back, a column that
    was settled is settled, and the column of the row is gone or settled
    as its percentage asks. *)
Lemma handle_null_row_step drop_null_threshold row self self' :
  handle_null_row drop_null_threshold row self = (Ok tt, self') ->
  (forall d df, ds_get (datasets self) d = Some df ->
     exists df', ds_get (datasets self') d = Some df' /\
       (forall c, column df c = None -> column df' c = None) /\
       (forall c, settled df c -> settled df' c)) /\
  (forall df, ds_get (datasets self) (Dataset row) = Some df ->
     exists df', ds_get (datasets self') (Dataset row) = Some df' /\
       (Qle_bool (Persentase_Null_Values row) drop_null_threshold = false ->
        column df' (Kolom row) = None) /\
       (Qle_bool (Persentase_Null_Values row) drop_null_threshold = true ->
        settled df' (Kolom row))).
Proof.
  unfold handle_null_row. unfold bind at 1, get_state at 1.
  destruct (ds_get (datasets self) (Dataset row)) as [df0|] eqn:Hd0.
  2:{ unfold log. intros [= <-]. cbn [datasets]. split.
      - intros d df Hd. exists df. auto.
      - intros df Hd. discriminate. }
  assert (Hsame : forall d df, ds_get (datasets self) d = Some df ->
               exists df', ds_get (datasets self) d = Some df' /\
                 (forall c, column df c = None -> column df' c = None) /\
                 (forall c, settled df c -> settled df' c)).
  { intros d df Hd. exists df. auto. }
  assert (Hnew : forall df1,
            (forall c, column df0 c = None -> column df1 c = None) ->
            (forall c, settled df0 c -> settled df1 c) ->
            forall d df, ds_get (datasets self) d = Some df ->
              exists df', ds_get (ds_set (datasets self) (Dataset row) df1) d
                          = Some df' /\
                (forall c, column df c = None -> column df' c = None) /\
                (forall c, settled df c -> settled df' c)).
  { intros df1 H1 H2 d df Hd.
    destruct (String.eqb d (Dataset row)) eqn:E.
    - apply String.eqb_eq in E. subst d. rewrite Hd0 in Hd. injection Hd as <-.
      exists df1. split; [eapply DataQualityLemmas.ds_get_set_same; eassumption|]. auto.
    - apply String.eqb_neq in E. exists df.
      rewrite DataQualityLemmas.ds_get_set_other by assumption. auto. }
  destruct (Qle_bool (Persentase_Null_Values row) drop_null_threshold) eqn:Hp;
    cbn [negb].
  - destruct (column df0 (Kolom row)) as [s|] eqn:Hc.
    + unfold on_dataset.
      destruct (impute_value (Kolom row) (method_for s) (Dataset row) (df0, logger self))
        as [r [df1 lg1]] eqn:Himp.
      intros [= -> <-].
      destruct (impute_repairs _ _ _ _ _ _ _ Hc Himp) as [s' [-> Hrep]].
      assert (Hset : forall c, settled df0 c -> settled (set_column df0 (Kolom row) s') c).
      { intros c Hs. destruct (String.eqb c (Kolom row)) eqn:E.
        - apply String.eqb_eq in E. subst c. right. exists s'.
          split; [apply column_set_same | assumption].
        - apply String.eqb_neq in E. unfold settled.
          now rewrite column_set_other. }
      split.
      * cbn [datasets]. apply Hnew; [|exact Hset].
        intros c Hn. rewrite column_set_other; [assumption|]. congruence.
      * intros df Hd. injection Hd as <-. eexists.
        split; [cbn [datasets]; eapply DataQualityLemmas.ds_get_set_same; eassumption|].
        split; [discriminate|]. intros _. right. exists s'.
        split; [apply column_set_same | assumption].
    + unfold log. intros [= <-]. cbn [datasets]. split; [apply Hsame|].
      intros df Hd. injection Hd as <-. exists df0.
      split; [assumption|]. split; [discriminate|]. intros _. now left.
  - destruct (has_column df0 (Kolom row)) eqn:Hh.
    + unfold bind, set_dataset, log. intros [= <-]. cbn [datasets logger].
      assert (Hdrop : forall c, settled df0 c -> settled (drop_column df0 (Kolom row)) c).
      { intros c Hs. unfold settled. rewrite column_drop.
        destruct (String.eqb (Kolom row) c); [now left | exact Hs]. }
      split.
      * apply (Hnew (drop_column df0 (Kolom row))); [|exact Hdrop].
        intros c Hn. rewrite column_drop. now destruct (String.eqb (Kolom row) c).
      * intros df Hd. injection Hd as <-. eexists.
        split; [eapply DataQualityLemmas.ds_get_set_same; eassumption|].
        split; [|discriminate]. intros _. rewrite column_drop.
        now rewrite String.eqb_refl.
    + unfold log. intros [= <-]. cbn [datasets]. split; [apply Hsame|].
      intros df Hd. injection Hd as <-. exists df0.
      split; [assumption|]. split; [|discriminate]. intros _.
      now apply has_column_false.
Qed.

Lemma handle_null_values_settles drop_null_threshold rows : forall self self',
  handle_null_values rows drop_null_threshold self = (Ok tt, self') ->
  (forall d df, ds_get (datasets self) d = Some df ->
     exists df', ds_get (datasets self') d = Some df' /\
       (forall c, column df c = None -> column df' c = None) /\
       (forall c, settled df c -> settled df' c)) /\
  (forall row, In row rows ->
   forall df, ds_get (datasets self) (Dataset row) = Some df ->
     exists df', ds_get (datasets self') (Dataset row) = Some df' /\
       (Qle_bool (Persentase_Null_Values row) drop_null_threshold = false ->
        column df' (Kolom row) = None) /\
       (Qle_bool (Persentase_Null_Values row) drop_null_threshold = true ->
        settled df' (Kolom row))).
Proof.
  unfold handle_null_values.
  induction rows as [|row rows IH]; intros self self' Hrun; simpl in Hrun.
  - injection Hrun as <-. split; [|intros row []].
    intros d df Hd. exists df. auto.
  - unfold bind at 1 in Hrun.
    destruct (handle_null_row drop_null_threshold row self) as [[[]|e] self1] eqn:Hstep;
      [|discriminate].
    destruct (handle_null_row_step _ _ _ _ Hstep) as [S1 S2].
    destruct (IH _ _ Hrun) as [L1 L2].
    assert (Hkeep : forall d df, ds_get (datasets self) d = Some df ->
              exists df', ds_get (datasets self') d = Some df' /\
                (forall c, column df c = None -> column df' c = None) /\
                (forall c, settled df c -> settled df' c)).
    { intros d df Hd. destruct (S1 d df Hd) as [df1 [Hd1 [N1 K1]]].
      destruct (L1 d df1 Hd1) as [df' [Hd' [N2 K2]]]. exists df'. auto. }
    split; [exact Hkeep|].
    intros r [<-|Hin] df Hd.
    + destruct (S2 df Hd) as [df1 [Hd1 [G1 R1]]].
      destruct (L1 _ df1 Hd1) as [df' [Hd' [N2 K2]]].
      exists df'. split; [assumption|]. split; auto.
    + destruct (S1 _ df Hd) as [df1 [Hd1 _]].
      destruct (L2 r Hin df1 Hd1) as [df' [Hd' [G R]]]. exists df'. auto.
Qed.

Lemma column_None_has_column df c : column df c = None -> has_column df c = false.
Proof.
  unfold has_column, columns. induction df as [|[n s] df IH]; simpl; [reflexivity|].
  destruct (String.eqb c n); [discriminate | exact IH].
Qed.

(** C4 (as the code has it). [handle_null_values] run to its end, and an
    entry of the report whose dataset exists: if its percentage is above
    the threshold the column is not in the dataset any more; otherwise the
    column is not there either, dropped under another entry, or it has
    been imputed and holds no null, but for a float column that had no
    value at all and for the nulls before the first value of a temporal
    column. *)
Theorem handle_null_values_drops_or_imputes
    null_values_df drop_null_threshold self self' row df :
  handle_null_values null_values_df drop_null_threshold self = (Ok tt, self') ->
  In row null_values_df ->
  ds_get (datasets self) (Dataset row) = Some df ->
  exists df',
    ds_get (datasets self') (Dataset row) = Some df' /\
    ((drop_null_threshold < Persentase_Null_Values row)%Q ->
     has_column df' (Kolom row) = false) /\
    ((Persentase_Null_Values row <= drop_null_threshold)%Q ->
     has_column df' (Kolom row) = false \/
     exists s, column df' (Kolom row) = Some s /\ repaired s).
Proof.
  intros Hrun Hin Hd.
  destruct (handle_null_values_settles _ _ _ _ Hrun) as [_ H].
  destruct (H row Hin df Hd) as [df' [Hd' [Hgone Hset]]].
  exists df'. split; [assumption|]. split.
  - intros Hlt. apply column_None_has_column, Hgone.
    destruct (Qle_bool (Persentase_Null_Values row) drop_null_threshold) eqn:E;
      [|reflexivity].
    apply Qle_bool_iff in E. exfalso. now apply (Qlt_not_le _ _ Hlt).
  - intros Hle. apply Qle_bool_iff in Hle.
    destruct (Hset Hle) as [Hn|Hs]; [left; now apply column_None_has_column | now right].
Qed.

End NullClaims.

Section NullExamples.

Import DataQuality.
#[local] Existing Instance Ideal.numerics.

Lemma handle_null_values_drops_or_imputes_witness :
  exists df',
    ds_get (datasets (snd (handle_null_values age_report (25 # 1)%Q
                             (with_dataset age_frame)))) "bbc_df" = Some df' /\
    (((25 # 1) < (25 # 1))%Q -> has_column df' "age" = false) /\
    (((25 # 1) <= (25 # 1))%Q ->
     has_column df' "age" = false \/
     exists s, column df' "age" = Some s /\ repaired s).
Proof.
  apply (handle_null_values_drops_or_imputes age_report (25 # 1)%Q
           (with_dataset age_frame) _
           {| Dataset := "bbc_df"; Kolom := "age"; Tipe_Data := "float64";
              Jumlah_Null_Values := 1; Persentase_Null_Values := (25 # 1)%Q;
              Apakah_Tipe_Data_Date := false |}
           age_frame).
  - reflexivity.
  - left. reflexivity.
  - reflexivity.
Defined.

(** C4 as stated fails. At the threshold that the pipeline uses, a quarter
    of a temporal column is missing, the first of its four cells: the
    column is interpolated and its first cell is still null. And at
    threshold 100 a float column without any value is kept as it is. *)
Lemma leading_null_survives :
  (exists self' s,
     handle_null_values late_report (25 # 1)%Q (with_dataset late_frame)
       = (Ok tt, self') /\
     (Persentase_Null_Values (hd (Build_NullReportRow "" "" "" 0 0 false) late_report)
        <= (25 # 1))%Q /\
     option_map (fun df => column df "published_date")
                (ds_get (datasets self') "bbc_df") = Some (Some s) /\
     null_count s = 1) /\
  (exists self' s,
     handle_null_values void_report (100 # 1)%Q (with_dataset void_frame)
       = (Ok tt, self') /\
     option_map (fun df => column df "score")
                (ds_get (datasets self') "bbc_df") = Some (Some s) /\
     null_count s = 2).
Proof.
  split.
  - eexists. eexists. split; [reflexivity|]. split; [|split; reflexivity].
    unfold Qle. simpl. lia.
  - eexists. eexists. split; [reflexivity|]. split; reflexivity.
Qed.


End NullExamples.

(** ** The claims at work *)

Section Examples.

Import Load.
#[local] Existing Instance Strict.dates.

Lemma empty_warehouse_unique : dimensions_unique empty_warehouse.
Proof.
  repeat split; intros i j Hij Hj; simpl in Hj; inversion Hj.
Defined.

Lemma load_twice_is_load_once_witness :
  dimensions_unique (db (snd (load_to_dimension_tables sourced_frame fresh))).
Proof.
  exact (proj1 (proj2 (load_twice_is_load_once sourced_frame fresh))
               empty_warehouse_unique).
Defined.

(** The scenario of the row without source category, from an empty
    warehouse: the date, the category, two tags and the article are
    loaded, the fact load warns and inserts nothing. *)
Example no_source_category_no_fact :
  full_load tech_frame fresh
  = (Ok true,
     {| db :=
          {| dim_date :=
               {| rows := [(1%Z, {| d_date := {| year := 2024; month := 3; day := 15 |};
                                    d_day := 15; d_month := 3; d_year := 2024 |})];
                  serial := 2 |};
             dim_category := {| rows := [(1%Z, VStr "Tech")]; serial := 2 |};
             dim_source_category := {| rows := []; serial := 1 |};
             dim_tag := {| rows := [(1%Z, VStr "ai"); (2%Z, VStr "policy")];
                           serial := 3 |};
             dim_article :=
               {| rows := [(1%Z, {| a_title := VStr "t"; a_description := VStr "d";
                                    a_url := VStr "http://x/1" |})];
                  serial := 2 |};
             fact_news := [] |};
        logger := [(INFO, MsgDimensionsLoaded);
                   (WARNING, MsgSourceCategoryNotFound VNull);
                   (INFO, MsgFactsLoaded)] |}).
Proof. reflexivity. Qed.

(** With a source category the same article gets one fact for each of its
    two distinct tags, and a second full load adds nothing. *)
Example two_tags_two_facts :
  List.length (fact_news (db (snd (full_load sourced_frame fresh)))) = 2 /\
  db (snd (full_load sourced_frame (snd (full_load sourced_frame fresh))))
  = db (snd (full_load sourced_frame fresh)).
Proof. split; reflexivity. Qed.



Lemma facts_wait_for_dimensions_witness :
  exists w',
    Main.load Main.undated_env undated_frame Main.connected
      = (inr (Main.SysExit 1), w') /\
    Main.calls w' = Main.calls Main.connected ++ [Main.LoadDimensions; Main.Close] /\
    fact_news (db (Main.loader w')) = fact_news (db (Main.loader Main.connected)) /\
    Main.conn w' = Main.Closed.
Proof.
  exact (proj1 (facts_wait_for_dimensions Main.undated_env undated_frame Main.connected)
               (snd (load_to_dimension_tables undated_frame fresh)) eq_refl).
Defined.

(** The whole of [run] on the frame whose date cannot be read: the
    connection is opened, the dimension load is called and fails, the
    connection is closed and the process leaves with status 1. *)
Example run_stops_before_facts :
  fst (Main.run Main.undated_env Main.start) = inr (Main.SysExit 1) /\
  Main.calls (snd (Main.run Main.undated_env Main.start))
  = [Main.Connect; Main.LoadDimensions; Main.Close] /\
  Main.conn (snd (Main.run Main.undated_env Main.start)) = Main.Closed.
Proof. repeat split; reflexivity. Qed.

End Examples.

Section ImputeExamples.

Import DataQuality.
#[local] Existing Instance Ideal.numerics.

Lemma impute_value_by_method_witness :
  impute_value "age" "mean" "bbc_df" (age_frame, [])
  = (Ok tt,
     ([("age", SFloat [Some (1 # 1)%Q; Some (4 # 1)%Q; Some (3 # 1)%Q; Some (8 # 1)%Q])],
      [(INFO, MsgImputed "age" "bbc_df" "mean")])).
Proof.
  exact (proj1 (proj2 (proj2 (impute_value_by_method "age" "mean" "bbc_df"
                                (age_frame, []))))
               (SFloat [Some (1 # 1)%Q; None; Some (3 # 1)%Q; Some (8 # 1)%Q]) mean_of
               (or_introl (conj eq_refl eq_refl)) eq_refl eq_refl).
Defined.

(** C7 as stated fails: [interpolate] is one of the four names, and on a
    float column it raises, the column interpolated and not floored; and
    [mode] raises on a column that holds no value. *)
Lemma known_method_raises :
  impute_value "age" "interpolate" "bbc_df" (age_frame, [])
  = (Raise (AttributeError "dt"),
     ([("age", SFloat [Some (1 # 1)%Q; Some (2 # 1)%Q; Some (3 # 1)%Q; Some (8 # 1)%Q])],
      [])) /\
  impute_value "score" "mode" "bbc_df" (void_frame, [])
  = (Raise (KeyError "0"), (void_frame, [])).
Proof. split; reflexivity. Qed.

End ImputeExamples.

(* ===================================================================== *)
(** * Part II, continued: what else the code shows                        *)
(* ===================================================================== *)

(** ** Tags *)

Section TagProperties.

Import Load LoadTerms.

Lemma split_commas_nonempty s : split_commas s <> [].
Proof.
  destruct s as [|c rest]; simpl; [discriminate|].
  destruct (Ascii.eqb c ","); [discriminate|].
  destruct (split_commas rest); discriminate.
Qed.

Lemma split_commas_no_comma s piece :
  In piece (split_commas s) -> has_char "," piece = false.
Proof.
  revert piece. induction s as [|c rest IH]; intros piece; simpl.
  - intros [<-|[]]. reflexivity.
  - destruct (Ascii.eqb c ",") eqn:E.
    + intros [<-|H]; [reflexivity | now apply IH].
    + destruct (split_commas rest) as [|w ws] eqn:Es.
      * intros [<-|[]]. simpl. now rewrite E.
      * intros [<-|H].
        -- simpl. rewrite E. apply IH. now left.
        -- apply IH. now right.
Qed.

Lemma lstrip_has_char c s : has_char c (lstrip s) = true -> has_char c s = true.
Proof.
  induction s as [|x rest IH]; simpl; [auto|].
  destruct (is_space x); simpl; [|auto].
  intros H. rewrite (IH H). apply orb_true_r.
Qed.

Lemma rstrip_has_char c s : has_char c (rstrip s) = true -> has_char c s = true.
Proof.
  induction s as [|x rest IH]; simpl; [auto|].
  destruct (rstrip rest) as [|y r] eqn:E.
  - destruct (is_space x); simpl; [discriminate|].
    rewrite orb_false_r. intros ->. reflexivity.
  - simpl. intros H. apply orb_true_iff in H as [H|H].
    + now rewrite H.
    + rewrite IH; [apply orb_true_r|]. simpl. exact H.
Qed.

Lemma lstrip_head s c r : lstrip s = String c r -> is_space c = false.
Proof.
  induction s as [|x rest IH]; simpl; [discriminate|].
  destruct (is_space x) eqn:E; [exact IH|]. intros [= <- _]. exact E.
Qed.

Lemma lstrip_fixed s : (forall c r, s = String c r -> is_space c = false) -> lstrip s = s.
Proof.
  destruct s as [|c r]; intros H; simpl; [reflexivity|].
  now rewrite (H c r eq_refl).
Qed.

Lemma rstrip_head s c r :
  rstrip s = String c r -> exists r', s = String c r'.
Proof.
  destruct s as [|x rest]; simpl; [discriminate|].
  destruct (rstrip rest); [destruct (is_space x); [discriminate|]|];
    intros [= <- _]; eauto.
Qed.

Lemma rstrip_rstrip s : rstrip (rstrip s) = rstrip s.
Proof.
  induction s as [|x rest IH]; simpl; [reflexivity|].
  destruct (rstrip rest) as [|y r] eqn:E.
  - destruct (is_space x) eqn:Ex; simpl; [reflexivity | now rewrite Ex].
  - simpl. simpl in IH. destruct (rstrip r) as [|z r'] eqn:Er.
    + destruct (is_space y); [discriminate|]. injection IH as <-. reflexivity.
    + now rewrite IH.
Qed.

(** [strip] leaves nothing for a second [strip] to take off. *)
Lemma strip_strip s : strip (strip s) = strip s.
Proof.
  unfold strip.
  assert (H : lstrip (rstrip (lstrip s)) = rstrip (lstrip s)).
  { apply lstrip_fixed. intros c r Hr.
    apply rstrip_head in Hr as [r' Hr]. now apply lstrip_head in Hr. }
  now rewrite H, rstrip_rstrip.
Qed.

(** The tags of a row are clean: only a string has tags, no tag is empty,
    no tag holds a comma, and no tag begins or ends with white space. *)
Theorem parse_tags_clean tags_field tags :
  parse_tags tags_field = Ok tags ->
  (exists s, tags_field = VStr s) /\
  forall tag, In tag tags ->
    tag <> "" /\ has_char "," tag = false /\ strip tag = tag.
Proof.
  destruct tags_field as [| | | | |s]; simpl; try discriminate.
  intros [= <-]. split; [eauto|].
  intros tag Hin. apply filter_In in Hin as [Hin Hne].
  apply in_map_iff in Hin as [piece [<- Hp]]. repeat split.
  - intros E. rewrite E in Hne. discriminate.
  - destruct (has_char "," (strip piece)) eqn:E; [|reflexivity].
    unfold strip in E. apply rstrip_has_char, lstrip_has_char in E.
    now rewrite (split_commas_no_comma s piece Hp) in E.
  - apply strip_strip.
Qed.

Lemma parse_tags_clean_witness :
  (exists s, VStr " ai, ai ,,policy " = VStr s) /\
  forall tag, In tag ["ai"; "ai"; "policy"] ->
    tag <> "" /\ has_char "," tag = false /\ strip tag = tag.
Proof.
  exact (parse_tags_clean (VStr " ai, ai ,,policy ") ["ai"; "ai"; "policy"] eq_refl).
Defined.

(** Whatever is not a string has no tags to give: the load that meets it
    in a dated row fails on it. *)
Lemma parse_tags_needs_string tags_field :
  (forall s, tags_field <> VStr s) ->
  parse_tags tags_field = Raise (AttributeError "split").
Proof. destruct tags_field; simpl; intros H; try reflexivity. now destruct (H s). Qed.

End TagProperties.

(** ** The two loads together *)

Section LoadProperties.

Import Load LoadLemmas LoadTerms.
Context {D : Dates}.

Lemma holds_find {A} (p : A -> bool) (tb : table A) :
  holds p tb = true -> exists id, find p tb = Some id.
Proof.
  unfold holds, find. intros H.
  destruct (List.find (fun r => p (snd r)) (rows tb)) as [r|] eqn:E; [eauto|].
  apply existsb_exists in H as [x [Hx Hp]].
  pose proof (find_none _ _ E x Hx) as Hn. simpl in Hn. congruence.
Qed.

(** In a plan that ends well each row has ended well, and its statements
    are among those of the plan. *)
Lemma dimension_plan_rows rows row :
  In row rows -> snd (dimension_plan rows) = Ok tt ->
  snd (dimension_row_plan row) = Ok tt /\
  forall st, In st (fst (dimension_row_plan row)) -> In st (fst (dimension_plan rows)).
Proof.
  induction rows as [|r rows IH]; simpl; [tauto|].
  destruct (dimension_row_plan r) as [sts [[]|e]] eqn:Er; cbn [fst snd];
    [|discriminate].
  destruct (dimension_plan rows) as [more res] eqn:Ep. cbn [fst snd] in *.
  intros [<-|Hin] Hres.
  - rewrite Er. cbn [fst snd]. split; [reflexivity|].
    intros st Hst. apply in_or_app. now left.
  - destruct (IH Hin Hres) as [H1 H2]. split; [exact H1|].
    intros st Hst. apply in_or_app. right. now apply H2.
Qed.

Lemma dated_row_parses row :
  isna (get row "updated") = false ->
  snd (dimension_row_plan row) = Ok tt ->
  exists date_obj, parse_date (get row "updated") = Ok date_obj /\
    (notna (get row "tags") = true -> exists tags, parse_tags (get row "tags") = Ok tags).
Proof.
  intros Hu. unfold dimension_row_plan. rewrite Hu.
  destruct (parse_date (get row "updated")) as [date_obj|e]; [|discriminate].
  intros H. exists date_obj. split; [reflexivity|]. intros Ht. rewrite Ht in H.
  destruct (parse_tags (get row "tags")) as [tags|e]; [eauto | discriminate].
Qed.

(** What raises in the fact loop has raised in the dimension loop. *)
Lemma fact_row_plan_ok w row :
  snd (dimension_row_plan row) = Ok tt -> snd (fact_row_plan w row) = Ok tt.
Proof.
  unfold dimension_row_plan, fact_row_plan.
  destruct (isna (get row "updated")); [reflexivity|].
  destruct (parse_date (get row "updated")) as [date_obj|e]; [|discriminate].
  destruct (fact_keys w row date_obj); [|reflexivity].
  destruct (notna (get row "tags")); [|reflexivity].
  destruct (parse_tags (get row "tags")); [reflexivity | discriminate].
Qed.

Lemma fact_plan_ok w rows :
  snd (dimension_plan rows) = Ok tt -> snd (fact_plan w rows) = Ok tt.
Proof.
  induction rows as [|row rows IH]; simpl; [reflexivity|].
  destruct (dimension_row_plan row) as [sts [[]|e]] eqn:Er; cbn [snd]; [|discriminate].
  pose proof (fact_row_plan_ok w row) as Hr. rewrite Er in Hr. specialize (Hr eq_refl).
  destruct (fact_row_plan w row) as [[facts msgs] r]. cbn [snd] in Hr. subst r.
  destruct (dimension_plan rows) as [more res]. cbn [snd] in *.
  intros H. specialize (IH H).
  destruct (fact_plan w rows) as [[more' later] r']. cbn [snd] in *. exact IH.
Qed.

Lemma dimensions_true_plan data self self1 :
  load_to_dimension_tables data self = (Ok true, self1) ->
  snd (dimension_plan (iterrows data)) = Ok tt /\
  db self1 = run_statements (db self) (fst (dimension_plan (iterrows data))).
Proof.
  destruct (snd (dimension_plan (iterrows data))) as [[]|e] eqn:E.
  - rewrite (load_dimensions_ok data self E). intros [= <-]. auto.
  - rewrite (load_dimensions_failed data self e E). discriminate.
Qed.

(** The fact load of a frame whose dimension load has succeeded cannot
    fail: a date or a tags field that raises has raised in the dimension
    load already. *)
Theorem facts_succeed_after_dimensions data self self1 s :
  load_to_dimension_tables data self = (Ok true, self1) ->
  fst (load_to_fact_table data s) = Ok true.
Proof.
  intros H. apply dimensions_true_plan in H as [Hplan _].
  unfold load_to_fact_table, try_load. rewrite fact_loop_spec.
  now rewrite (fact_plan_ok (db s) _ Hplan).
Qed.

Lemma complete_row_statements row date_obj :
  isna (get row "updated") = false ->
  parse_date (get row "updated") = Ok date_obj ->
  complete row = true ->
  snd (dimension_row_plan row) = Ok tt ->
  let sts := fst (dimension_row_plan row) in
  In (InsertDate date_obj) sts /\
  In (InsertCategory (get row "category")) sts /\
  In (InsertSourceCategory (get row "source_category")) sts /\
  In (InsertArticle (get row "title") (get row "description") (get row "url")) sts /\
  forall tags, notna (get row "tags") = true ->
    parse_tags (get row "tags") = Ok tags ->
    forall tag, In tag tags -> In (InsertTag tag) sts.
Proof.
  intros Hu Hp Hc. unfold complete in Hc.
  apply andb_true_iff in Hc as [Hc Hurl]. apply andb_true_iff in Hc as [Hc Hdesc].
  apply andb_true_iff in Hc as [Hc Htitle]. apply andb_true_iff in Hc as [Hcat Hsrc].
  unfold dimension_row_plan. rewrite Hu, Hp, Hcat, Hsrc, Htitle, Hdesc, Hurl.
  destruct (notna (get row "tags")) eqn:Ht.
  - destruct (parse_tags (get row "tags")) as [tags|e]; [|discriminate].
    intros _. cbn [fst andb]. repeat split.
    + now left.
    + right. now left.
    + right. right. now left.
    + apply in_or_app. right. apply in_or_app. right. now left.
    + intros tags' _ [= <-] tag Hin. apply in_or_app. right.
      apply in_or_app. left. now apply in_map.
  - intros _. cbn [fst andb map app]. repeat split.
    + now left.
    + right. now left.
    + right. right. now left.
    + right. right. right. now left.
    + intros tags' Hf. discriminate.
Qed.

Lemma fact_plan_rows w rows row :
  In row rows -> snd (fact_plan w rows) = Ok tt ->
  forall f, In f (fst (fst (fact_row_plan w row))) -> In f (fst (fst (fact_plan w rows))).
Proof.
  induction rows as [|r rows IH]; simpl; [tauto|].
  destruct (fact_row_plan w r) as [[facts msgs] [[]|e]] eqn:Er; cbn [fst snd];
    [|discriminate].
  destruct (fact_plan w rows) as [[more later] res] eqn:Ep. cbn [fst snd] in *.
  intros [<-|Hin] Hres f Hf.
  - rewrite Er in Hf. apply in_or_app. now left.
  - apply in_or_app. right. now apply IH.
Qed.

(** The insert-if-absent of the dimension load and the lookups of the
    fact load meet: once the dimension load of a frame has succeeded, each
    dated row of the frame that names its category, its source category
    and its article finds its four keys, and after the fact load each of
    its tags has its fact under these keys. *)
Theorem complete_rows_get_their_facts data self self1 row :
  load_to_dimension_tables data self = (Ok true, self1) ->
  In row (iterrows data) ->
  isna (get row "updated") = false ->
  complete row = true ->
  exists date_obj keys,
    parse_date (get row "updated") = Ok date_obj /\
    fact_keys (db self1) row date_obj = inl keys /\
    forall tags, parse_tags (get row "tags") = Ok tags ->
      forall tag, In tag tags ->
        exists tag_id,
          find (sql_eq (VStr tag)) (dim_tag (db self1)) = Some tag_id /\
          existsb (same_key (fact_of row keys tag_id))
                  (fact_news (db (snd (load_to_fact_table data self1)))) = true.
Proof.
  intros Hload Hin Hu Hc.
  destruct (dimensions_true_plan _ _ _ Hload) as [Hplan Hdb].
  destruct (dimension_plan_rows _ _ Hin Hplan) as [Hrow Hsub].
  destruct (dated_row_parses row Hu Hrow) as [date_obj [Hp _]].
  destruct (complete_row_statements row date_obj Hu Hp Hc Hrow)
    as (Sd & Sc & Ss & Sa & St).
  assert (Hpres : forall st, In st (fst (dimension_row_plan row)) ->
            present (db self1) st = true).
  { intros st Hst. rewrite Hdb. apply present_in_plan; [apply dimension_plan_keyed|].
    now apply Hsub. }
  destruct (holds_find _ _ (Hpres _ Sc)) as [c Fc].
  destruct (holds_find _ _ (Hpres _ Ss)) as [sc Fs].
  destruct (holds_find _ _ (Hpres _ Sd)) as [d Fd].
  destruct (holds_find _ _ (Hpres _ Sa)) as [n Fn].
  simpl in Fc, Fs, Fd, Fn.
  assert (Hkeys : fact_keys (db self1) row date_obj = inl (n, d, c, sc)).
  { unfold fact_keys. now rewrite Fc, Fs, Fd, Fn. }
  exists date_obj, (n, d, c, sc). split; [assumption|]. split; [assumption|].
  intros tags Hg tag Htag.
  assert (Ht : notna (get row "tags") = true).
  { destruct (get row "tags"); try discriminate. reflexivity. }
  destruct (holds_find _ _ (Hpres _ (St tags Ht Hg tag Htag))) as [tag_id Ftag].
  simpl in Ftag. exists tag_id. split; [assumption|].
  unfold load_to_fact_table, try_load. rewrite fact_loop_spec.
  pose proof (fact_plan_ok (db self1) _ Hplan) as Hok. rewrite Hok. cbn [fst snd db].
  assert (Hf : In (fact_of row (n, d, c, sc) tag_id)
                  (fst (fst (fact_plan (db self1) (iterrows data))))).
  { apply (fact_plan_rows _ _ row Hin Hok).
    unfold fact_row_plan. rewrite Hu, Hp, Hkeys, Ht, Hg. cbn [fst].
    eapply tag_plan_found; eassumption. }
  pose proof (insert_facts_present (fst (fst (fact_plan (db self1) (iterrows data))))
                (fact_news (db self1))) as Hall.
  rewrite forallb_forall in Hall. cbn [fact_news with_facts]. now apply Hall.
Qed.

(** *** Nothing but appends *)

Lemma extends_refl {A} (l : list A) : extends l l.
Proof. exists []. now rewrite app_nil_r. Qed.

Lemma extends_trans {A} (a b c : list A) : extends a b -> extends b c -> extends a c.
Proof. intros [m1 ->] [m2 ->]. exists (m1 ++ m2). now rewrite app_assoc. Qed.

Lemma insert_if_absent_extends {A} (p : A -> bool) a (tb : table A) :
  extends (rows tb) (rows (insert_if_absent p a tb)).
Proof.
  unfold insert_if_absent. destruct (existsb _ _); [apply extends_refl|].
  simpl. eexists. reflexivity.
Qed.

Lemma warehouse_extends_refl w : warehouse_extends w w.
Proof. repeat split; apply extends_refl. Qed.

Lemma warehouse_extends_trans a b c :
  warehouse_extends a b -> warehouse_extends b c -> warehouse_extends a c.
Proof.
  intros (A1 & A2 & A3 & A4 & A5 & A6) (B1 & B2 & B3 & B4 & B5 & B6).
  repeat split; eapply extends_trans; eassumption.
Qed.

Lemma run_statement_extends w st : warehouse_extends w (run_statement w st).
Proof.
  destruct st; simpl; repeat split; simpl;
    try apply extends_refl; apply insert_if_absent_extends.
Qed.

Lemma run_statements_extends l : forall w, warehouse_extends w (run_statements w l).
Proof.
  induction l as [|st l IH]; intros w; simpl; [apply warehouse_extends_refl|].
  eapply warehouse_extends_trans; [apply run_statement_extends | apply IH].
Qed.

Lemma insert_fact_extends f F : extends F (insert_fact f F).
Proof.
  unfold insert_fact. destruct (existsb _ _); [apply extends_refl|].
  eexists. reflexivity.
Qed.

Lemma insert_facts_extends l : forall F, extends F (insert_facts F l).
Proof.
  induction l as [|f l IH]; intros F; simpl; [apply extends_refl|].
  eapply extends_trans; [apply insert_fact_extends | apply IH].
Qed.

Lemma load_dimensions_db data self :
  db (snd (load_to_dimension_tables data self))
  = run_statements (db self) (fst (dimension_plan (iterrows data))).
Proof.
  destruct (snd (dimension_plan (iterrows data))) as [[]|e] eqn:E.
  - now rewrite (load_dimensions_ok data self E).
  - now rewrite (load_dimensions_failed data self e E).
Qed.

Lemma load_facts_db data self :
  db (snd (load_to_fact_table data self))
  = with_facts (db self)
      (insert_facts (fact_news (db self))
         (fst (fst (fact_plan (db self) (iterrows data))))).
Proof. destruct (load_facts_spec data self) as [b [lg H]]. now rewrite H. Qed.

(** The loader only ever appends. Whatever a load returns, each table has
    kept the rows it had, in their places and under their keys; the
    dimension load has left the facts as they were and the fact load has
    left the five dimensions as they were. *)
Theorem loads_only_append data self :
  warehouse_extends (db self) (db (snd (load_to_dimension_tables data self))) /\
  fact_news (db (snd (load_to_dimension_tables data self))) = fact_news (db self) /\
  warehouse_extends (db self) (db (snd (load_to_fact_table data self))) /\
  with_facts (db (snd (load_to_fact_table data self))) (fact_news (db self)) = db self.
Proof.
  rewrite load_dimensions_db, load_facts_db.
  split; [apply run_statements_extends|].
  split; [apply run_statements_facts|].
  split.
  - repeat split; simpl; try apply extends_refl. apply insert_facts_extends.
  - change (with_facts (db self) (fact_news (db self)) = db self).
    apply with_facts_same.
Qed.

(** *** The unique key of the facts *)

Lemma insert_fact_unique f F : facts_unique F -> facts_unique (insert_fact f F).
Proof.
  intros Hu. unfold insert_fact.
  destruct (existsb (same_key f) F) eqn:E; [exact Hu|].
  intros i j a b Hij Ha Hb.
  assert (Hj : j < List.length (F ++ [f])) by (apply nth_error_Some; congruence).
  rewrite length_app in Hj. simpl in Hj.
  destruct (Nat.lt_ge_cases j (List.length F)) as [Hlt|Hge].
  - rewrite nth_error_app1 in Ha by lia. rewrite nth_error_app1 in Hb by lia.
    exact (Hu i j a b Hij Ha Hb).
  - assert (j = List.length F) by lia. subst j.
    rewrite nth_error_app1 in Ha by lia.
    rewrite nth_error_app2 in Hb by lia. rewrite Nat.sub_diag in Hb.
    injection Hb as <-. apply nth_error_In in Ha.
    destruct (same_key f a) eqn:Ef; [|reflexivity].
    assert (existsb (same_key f) F = true) by (apply existsb_exists; eauto).
    congruence.
Qed.

Lemma insert_facts_unique l : forall F, facts_unique F -> facts_unique (insert_facts F l).
Proof.
  induction l as [|f l IH]; intros F H; simpl; [exact H|].
  now apply IH, insert_fact_unique.
Qed.

(** The fact load keeps the five keys of a fact unique: it never puts a
    second fact under the keys of a fact that is there. *)
Theorem fact_load_keeps_keys_unique data self :
  facts_unique (fact_news (db self)) ->
  facts_unique (fact_news (db (snd (load_to_fact_table data self)))).
Proof. intros H. rewrite load_facts_db. simpl. now apply insert_facts_unique. Qed.

(** The fact load run a second time returns what it returned and leaves
    the warehouse as the first run left it. *)
Theorem load_facts_twice data self :
  let once := load_to_fact_table data self in
  let twice := load_to_fact_table data (snd once) in
  fst twice = fst once /\ db (snd twice) = db (snd once).
Proof.
  cbv zeta. destruct (load_facts_spec data self) as [b [lg Hf]]. rewrite Hf.
  cbn [snd fst]. split.
  - pose proof (load_facts_result data self
                  (insert_facts (fact_news (db self))
                     (fst (fst (fact_plan (db self) (iterrows data))))) lg) as H.
    rewrite Hf in H. exact H.
  - rewrite load_facts_db. cbn [db]. rewrite fact_plan_with_facts.
    cbn [fact_news with_facts]. unfold with_facts. cbn.
    now rewrite insert_facts_twice.
Qed.

(** *** A row that raises *)

Lemma for_each_app {S A} (l1 l2 : list A) (body : A -> M S unit) s :
  for_each (l1 ++ l2) body s
  = bind (for_each l1 body) (fun _ => for_each l2 body) s.
Proof.
  revert s. induction l1 as [|x l1 IH]; intros s; simpl; [reflexivity|].
  unfold bind in *. destruct (body x s) as [[[]|e] s']; [apply IH | reflexivity].
Qed.

(** The load stops at the first row that raises and returns failure, the
    error logged. It does not take back what it has committed: the rows
    before the failing row are loaded, the rows after it are not looked
    at. A date that cannot be read leaves nothing of its row; a tags field
    that is not a string leaves the date, the category and the source
    category of its row in the warehouse, and no tag, no article and no
    fact of it. *)
Theorem failing_row_stops_the_load data self pre bad post s1 e s2 :
  iterrows data = pre ++ bad :: post ->
  for_each pre load_dimension_row self = (Ok tt, s1) ->
  load_dimension_row bad s1 = (Raise e, s2) ->
  load_to_dimension_tables data self
  = (Ok false,
     {| db := db s2; logger := logger self ++ [(ERROR, MsgDimensionsFailed e)] |}) /\
  ((e = DateParseError /\ db s2 = db s1) \/
   (e = AttributeError "split" /\
    exists date_obj,
      parse_date (get bad "updated") = Ok date_obj /\
      has_date (db s2) date_obj = true /\
      (notna (get bad "category") = true ->
       has_category (db s2) (get bad "category") = true) /\
      (notna (get bad "source_category") = true ->
       has_source_category (db s2) (get bad "source_category") = true) /\
      dim_tag (db s2) = dim_tag (db s1) /\
      dim_article (db s2) = dim_article (db s1) /\
      fact_news (db s2) = fact_news (db s1))).
Proof.
  intros Hrows Hpre Hbad. split.
  - unfold load_to_dimension_tables, try_load. rewrite Hrows, for_each_app.
    unfold bind at 1. rewrite Hpre. simpl for_each. unfold bind at 1. rewrite Hbad.
    rewrite dimension_loop_spec in Hpre. injection Hpre as _ <-.
    rewrite load_dimension_row_spec in Hbad. injection Hbad as _ <-.
    reflexivity.
  - rewrite load_dimension_row_spec in Hbad. injection Hbad as Hres <-. cbn [db].
    unfold dimension_row_plan in *.
    destruct (isna (get bad "updated")); [discriminate|].
    destruct (parse_date (get bad "updated")) as [date_obj|e0] eqn:Hp.
    + right.
      assert (Hd : forall rest w,
                has_date (run_statements w (InsertDate date_obj :: rest)) date_obj = true).
      { intros rest w. simpl. apply (present_mono_all (InsertDate date_obj)).
        apply (present_after (InsertDate date_obj)). reflexivity. }
      destruct (notna (get bad "tags")).
      * destruct (parse_tags (get bad "tags")) as [tags|e1] eqn:Hg; [discriminate|].
        cbn [fst snd] in *. injection Hres as <-. split.
        -- destruct (get bad "tags"); simpl in Hg; congruence.
        -- exists date_obj. split; [reflexivity|]. split; [apply Hd|].
           destruct (notna (get bad "category")) eqn:Ec,
                    (notna (get bad "source_category")) eqn:Es; cbn [app].
           all: split; [intros Hc; try discriminate Hc|].
           all: try (apply (present_in_plan _ _ (InsertCategory (get bad "category")));
                     [simpl; rewrite ?Ec, ?Es; reflexivity | simpl; tauto]).
           all: split; [intros Hs; try discriminate Hs|].
           all: try (apply (present_in_plan _ _
                              (InsertSourceCategory (get bad "source_category")));
                     [simpl; rewrite ?Ec, ?Es; reflexivity | simpl; tauto]).
           all: repeat split.
      * discriminate.
    + left. cbn [fst snd] in *. injection Hres as <-. split; [|reflexivity].
      unfold parse_date in Hp.
      destruct (to_date_dmy (get bad "updated")); [discriminate|].
      destruct (to_date_dayfirst (get bad "updated")); [discriminate | congruence].
Qed.

(** *** Rows without date *)

Lemma get_row_at_absent df c i : column df c = None -> get (row_at df i) c = VNull.
Proof.
  unfold row_at. induction df as [|[n s] df IH]; simpl; [reflexivity|].
  destruct (String.eqb c n); [discriminate | exact IH].
Qed.

(** A frame that has no [updated] column dates none of its rows. *)
Lemma undated_without_column data :
  column data "updated" = None ->
  forall row, In row (iterrows data) -> isna (get row "updated") = true.
Proof.
  intros Hc row Hin. unfold iterrows in Hin.
  apply in_map_iff in Hin as [i [<- _]]. now rewrite get_row_at_absent.
Qed.

Lemma undated_dimension_plan rows :
  (forall row, In row rows -> isna (get row "updated") = true) ->
  dimension_plan rows = ([], Ok tt).
Proof.
  induction rows as [|row rows IH]; intros H; simpl; [reflexivity|].
  unfold dimension_row_plan. rewrite (H row (or_introl eq_refl)).
  rewrite IH; [reflexivity|]. intros r Hr. apply H. now right.
Qed.

Lemma undated_fact_plan w rows :
  (forall row, In row rows -> isna (get row "updated") = true) ->
  fact_plan w rows
  = ([], repeat (WARNING, MsgRowWithoutDate) (List.length rows), Ok tt).
Proof.
  induction rows as [|row rows IH]; intros H; simpl; [reflexivity|].
  unfold fact_row_plan. rewrite (H row (or_introl eq_refl)).
  rewrite IH; [reflexivity|]. intros r Hr. apply H. now right.
Qed.

(** Rows without date are passed over by both loads: a frame none of
    whose rows has a date, be it that it has no [updated] column, leaves
    the warehouse as it was, and the load reports success, with one
    warning for each row. *)
Theorem undated_frame_loads_nothing data self :
  (forall row, In row (iterrows data) -> isna (get row "updated") = true) ->
  full_load data self
  = (Ok true,
     {| db := db self;
        logger := logger self ++ [(INFO, MsgDimensionsLoaded)]
                  ++ repeat (WARNING, MsgRowWithoutDate) (nrows data)
                  ++ [(INFO, MsgFactsLoaded)] |}).
Proof.
  intros H. unfold full_load.
  assert (Hd := undated_dimension_plan _ H).
  rewrite (bind_ok _ _ _ _ _ (load_dimensions_ok data self ltac:(now rewrite Hd))).
  rewrite Hd. cbn [fst run_statements fold_left].
  unfold load_to_fact_table, try_load. rewrite fact_loop_spec. cbn [db logger].
  rewrite (undated_fact_plan _ _ H). cbn [fst snd insert_facts fold_left].
  unfold bind, log, ret. cbn [db logger]. rewrite with_facts_same.
  unfold iterrows. rewrite length_map, length_seq. now rewrite <- !app_assoc.
Qed.

End LoadProperties.

Lemma undated_frame_loads_nothing_witness :
  Load.full_load (D := Load.Strict.dates) LoadTerms.dateless_frame Load.fresh
  = (Ok true,
     {| Load.db := Load.empty_warehouse;
        Load.logger := [(INFO, Load.MsgDimensionsLoaded);
                        (WARNING, Load.MsgRowWithoutDate);
                        (WARNING, Load.MsgRowWithoutDate);
                        (INFO, Load.MsgFactsLoaded)] |}).
Proof.
  exact (undated_frame_loads_nothing (D := Load.Strict.dates) LoadTerms.dateless_frame
           Load.fresh (undated_without_column LoadTerms.dateless_frame eq_refl)).
Defined.

Lemma failing_row_stops_the_load_witness :
  Load.load_to_dimension_tables (D := Load.Strict.dates) LoadTerms.numbered_frame
    Load.fresh
  = (Ok false,
     {| Load.db :=
          Load.db (snd (Load.load_dimension_row (D := Load.Strict.dates)
                          LoadTerms.numbered_second
                          (snd (Load.load_dimension_row (D := Load.Strict.dates)
                                  LoadTerms.numbered_first Load.fresh))));
        Load.logger := [(ERROR, Load.MsgDimensionsFailed (AttributeError "split"))] |}) /\
  Load.has_category
    (Load.db (snd (Load.load_dimension_row (D := Load.Strict.dates)
                     LoadTerms.numbered_second
                     (snd (Load.load_dimension_row (D := Load.Strict.dates)
                             LoadTerms.numbered_first Load.fresh)))))
    (VStr "World") = true /\
  Load.has_source_category
    (Load.db (snd (Load.load_dimension_row (D := Load.Strict.dates)
                     LoadTerms.numbered_second
                     (snd (Load.load_dimension_row (D := Load.Strict.dates)
                             LoadTerms.numbered_first Load.fresh)))))
    (VStr "CNN") = true.
Proof.
  destruct (failing_row_stops_the_load (D := Load.Strict.dates)
              LoadTerms.numbered_frame Load.fresh
              [LoadTerms.numbered_first] LoadTerms.numbered_second []
              (snd (Load.load_dimension_row (D := Load.Strict.dates)
                      LoadTerms.numbered_first Load.fresh))
              (AttributeError "split")
              (snd (Load.load_dimension_row (D := Load.Strict.dates)
                      LoadTerms.numbered_second
                      (snd (Load.load_dimension_row (D := Load.Strict.dates)
                              LoadTerms.numbered_first Load.fresh))))
              eq_refl eq_refl eq_refl)
    as [Hload [[He _]|[_ [date_obj [_ [_ [Hc [Hs _]]]]]]]].
  - discriminate He.
  - split; [exact Hload|]. split; [exact (Hc eq_refl) | exact (Hs eq_refl)].
Defined.

Lemma empty_facts_unique : LoadTerms.facts_unique [].
Proof. intros i j a b _ Ha. destruct i; discriminate. Defined.

Lemma fact_load_keeps_keys_unique_witness :
  Load.fact_news
    (Load.db (snd (Load.load_to_dimension_tables (D := Load.Strict.dates)
                     Load.sourced_frame Load.fresh))) = [] /\
  List.length
    (Load.fact_news
       (Load.db (snd (Load.full_load (D := Load.Strict.dates)
                        Load.sourced_frame Load.fresh)))) = 2 /\
  LoadTerms.facts_unique
    (Load.fact_news
       (Load.db (snd (Load.full_load (D := Load.Strict.dates)
                        Load.sourced_frame Load.fresh)))) /\
  LoadTerms.facts_unique
    (Load.fact_news
       (Load.db (snd (Load.load_to_fact_table (D := Load.Strict.dates)
                        Load.sourced_frame
                        (snd (Load.full_load (D := Load.Strict.dates)
                                Load.sourced_frame Load.fresh)))))).
Proof.
  split; [reflexivity|]. split; [reflexivity|].
  assert (first :
    LoadTerms.facts_unique
      (Load.fact_news
         (Load.db (snd (Load.full_load (D := Load.Strict.dates)
                          Load.sourced_frame Load.fresh))))).
  { exact (fact_load_keeps_keys_unique (D := Load.Strict.dates) Load.sourced_frame
             (snd (Load.load_to_dimension_tables (D := Load.Strict.dates)
                     Load.sourced_frame Load.fresh))
             empty_facts_unique). }
  split; [exact first|].
  exact (fact_load_keeps_keys_unique (D := Load.Strict.dates) Load.sourced_frame
           (snd (Load.full_load (D := Load.Strict.dates)
                   Load.sourced_frame Load.fresh))
           first).
Defined.

Lemma complete_rows_get_their_facts_witness :
  exists date_obj keys,
    Load.parse_date (D := Load.Strict.dates) (get LoadTerms.sourced_row "updated")
      = Ok date_obj /\
    Load.fact_keys
      (Load.db (snd (Load.load_to_dimension_tables (D := Load.Strict.dates)
                       Load.sourced_frame Load.fresh)))
      LoadTerms.sourced_row date_obj = inl keys.
Proof.
  destruct (complete_rows_get_their_facts (D := Load.Strict.dates) Load.sourced_frame
              Load.fresh
              (snd (Load.load_to_dimension_tables (D := Load.Strict.dates)
                      Load.sourced_frame Load.fresh))
              LoadTerms.sourced_row
              eq_refl (or_introl eq_refl) eq_refl eq_refl)
    as [date_obj [keys [Hp [Hk _]]]].
  exists date_obj, keys. split; assumption.
Defined.

Lemma facts_succeed_after_dimensions_witness :
  fst (Load.load_to_fact_table (D := Load.Strict.dates) Load.sourced_frame Load.fresh)
  = Ok true.
Proof.
  exact (facts_succeed_after_dimensions (D := Load.Strict.dates) Load.sourced_frame
           Load.fresh
           (snd (Load.load_to_dimension_tables (D := Load.Strict.dates)
                   Load.sourced_frame Load.fresh))
           Load.fresh eq_refl).
Defined.

(** ** Duplicates *)

Section DuplicateProperties.

Import DataQuality DataQualityLemmas DataQualityTerms.

Lemma reached_all ds :
  existsb (fun item => ungroupable (snd item)) ds = false -> reached ds = ds.
Proof.
  induction ds as [|item ds IH]; simpl; [reflexivity|].
  destruct (ungroupable (snd item)); [discriminate|]. intros H. now rewrite IH.
Qed.

Lemma check_duplicates_loop_full items : forall combined self,
  exists r,
    check_duplicates_loop items combined self
      = (r,
         {| datasets := datasets self;
            logger := logger self
                      ++ map (fun item => (INFO, MsgDuplicateRows (fst item)
                                             (count_true (duplicated (snd item)))))
                             (with_duplicates (reached items)) |}) /\
    match r with
    | Ok rep =>
        existsb (fun item => ungroupable (snd item)) items = false /\
        List.length (report_rows rep)
          = List.length (report_rows combined) + total_duplicates items
    | Raise e =>
        e = IndexError /\
        existsb (fun item => ungroupable (snd item)) items = true
    end.
Proof.
  induction items as [|[name df] items IH]; intros combined self; simpl.
  - exists (Ok combined). rewrite app_nil_r. split; [now destruct self|].
    split; [reflexivity | lia].
  - fold (has_duplicates df).
    assert (Hu : ungroupable df = has_duplicates df && ungrouped df) by reflexivity.
    destruct (has_duplicates df) eqn:Hd; cbn [andb] in Hu; rewrite Hu.
    + pose proof (duplicates_of_cases name df) as Hcases.
      unfold bind at 1, log at 1. unfold bind at 1, lift at 1.
      destruct (duplicates_of name df) as [rows|e].
      * destruct Hcases as [Hgr [Hlen _]].
        assert (Hung : ungrouped df = false).
        { destruct Hgr as [Hgr|Hgr]; [|assumption].
          now apply has_duplicates_iterrows in Hd. }
        rewrite Hung. cbn [orb].
        destruct (IH (concat combined (duplicates_columns df) rows)
                     {| datasets := datasets self;
                        logger := logger self
                                  ++ [(INFO, MsgDuplicateRows name
                                               (count_true (duplicated df)))] |})
          as [r [Hrun Hr]].
        exists r. split.
        -- rewrite Hrun. cbn [datasets logger fst snd map].
           unfold with_duplicates. cbn [filter snd]. rewrite Hd. cbn [map fst snd].
           now rewrite <- app_assoc.
        -- destruct r as [rep|e]; [|exact Hr]. destruct Hr as [Hnone Hrep].
           split; [exact Hnone|]. rewrite Hrep. cbn [report_rows concat].
           rewrite length_app, Hlen. simpl. lia.
      * destruct Hcases as [-> [Hung _]]. rewrite Hung.
        exists (Raise IndexError). split; [|split; reflexivity].
        unfold with_duplicates. cbn [filter snd]. rewrite Hd. reflexivity.
    + destruct (IH combined self) as [r [Hrun Hr]]. exists r. split.
      * rewrite Hrun. unfold with_duplicates. cbn [filter snd]. now rewrite Hd.
      * destruct r as [rep|e]; [|exact Hr]. destruct Hr as [Hnone Hrep].
        split; [exact Hnone|]. rewrite Hrep.
        unfold has_duplicates in Hd. apply Nat.ltb_ge in Hd. simpl. lia.
Qed.

Lemma check_duplicates_full self :
  exists r,
    check_duplicates self
      = (r,
         {| datasets := datasets self;
            logger := logger self
                      ++ map (fun item => (INFO, MsgDuplicateRows (fst item)
                                             (count_true (duplicated (snd item)))))
                             (with_duplicates (reached (datasets self))) |}) /\
    match r with
    | Ok rep =>
        existsb (fun item => ungroupable (snd item)) (datasets self) = false /\
        List.length (report_rows rep) = total_duplicates (datasets self) /\
        In "Dataset" (report_columns rep)
    | Raise e =>
        e = IndexError /\
        existsb (fun item => ungroupable (snd item)) (datasets self) = true
    end.
Proof.
  unfold check_duplicates. unfold bind, get_state.
  destruct (check_duplicates_loop_full (datasets self)
              {| report_columns := ["Dataset"]; report_rows := [] |} self)
    as [r [Hrun Hr]].
  destruct (check_duplicates_loop_spec (datasets self)
              {| report_columns := ["Dataset"]; report_rows := [] |} self)
    as [r' [lg [Hrun' Hr']]].
  rewrite Hrun in Hrun'. injection Hrun' as <- _.
  exists r. split; [exact Hrun|]. destruct r as [rep|e]; [|exact Hr].
  destruct Hr as [Hnone Hlen]. destruct Hr' as [Hcol _].
  split; [exact Hnone|]. split; [exact Hlen|].
  specialize (Hcol eq_refl). apply existsb_exists in Hcol as [c [Hc Heq]].
  apply String.eqb_eq in Heq. now subst c.
Qed.

(** [check_duplicates] only reads: it leaves every dataset as it is. It
    goes through the datasets and logs one line for each that has a
    duplicated row. At a dataset that has a duplicated row and a null in
    every row it raises [IndexError], the line of that dataset logged; it
    raises nothing else, and nothing when there is no such dataset. Then
    its report has one row for each duplicated row of each dataset, and
    its [Dataset] column, even when it is empty. *)
Theorem check_duplicates_reads_only self :
  exists r,
    check_duplicates self
      = (r,
         {| datasets := datasets self;
            logger := logger self
                      ++ map (fun item => (INFO, MsgDuplicateRows (fst item)
                                             (count_true (duplicated (snd item)))))
                             (with_duplicates (reached (datasets self))) |}) /\
    match r with
    | Ok rep =>
        existsb (fun item => ungroupable (snd item)) (datasets self) = false /\
        List.length (report_rows rep) = total_duplicates (datasets self) /\
        In "Dataset" (report_columns rep)
    | Raise e =>
        e = IndexError /\
        existsb (fun item => ungroupable (snd item)) (datasets self) = true
    end.
Proof. apply check_duplicates_full. Qed.

Lemma ds_set_names ds name df df0 :
  ds_get ds name = Some df0 -> map fst (ds_set ds name df) = map fst ds.
Proof.
  induction ds as [|[n old] ds IH]; simpl; [discriminate|].
  destruct (String.eqb name n) eqn:E; simpl; [reflexivity|].
  intros H. now rewrite IH.
Qed.

Lemma select_rows_columns mask df : columns (select_rows mask df) = columns df.
Proof.
  unfold columns, select_rows. rewrite map_map. reflexivity.
Qed.

(** One turn of the loop of [handle_duplicates]: the names of the
    datasets stay, and so do the columns of every frame. *)
Lemma handle_duplicates_body_shape x self r self' :
  handle_duplicates_body x self = (r, self') ->
  map fst (datasets self') = map fst (datasets self) /\
  forall d df, ds_get (datasets self) d = Some df ->
    exists df', ds_get (datasets self') d = Some df' /\ columns df' = columns df.
Proof.
  unfold handle_duplicates_body. unfold bind at 1, get_state at 1.
  assert (Hsame : map fst (datasets self) = map fst (datasets self) /\
            forall d df, ds_get (datasets self) d = Some df ->
              exists df', ds_get (datasets self) d = Some df' /\ columns df' = columns df).
  { split; [reflexivity|]. intros d df Hd. exists df. auto. }
  destruct x as [| | | | |name]; try (intros [= <- <-]; exact Hsame).
  destruct (ds_get (datasets self) name) as [dfn|] eqn:Hn.
  2:{ intros [= <- <-]. exact Hsame. }
  unfold bind at 1, log at 1. unfold bind at 1, lift at 1.
  unfold drop_duplicates.
  destruct (column dfn "url") as [s|]; [|intros [= <- <-]; exact Hsame].
  unfold set_dataset. intros [= <- <-]. cbn [datasets]. split.
  - eapply ds_set_names; eassumption.
  - intros d df Hd. destruct (String.eqb d name) eqn:E.
    + apply String.eqb_eq in E. subst d. rewrite Hn in Hd. injection Hd as <-.
      eexists. split; [eapply ds_get_set_same; eassumption|].
      apply select_rows_columns.
    + apply String.eqb_neq in E. exists df.
      rewrite ds_get_set_other by assumption. auto.
Qed.

Lemma handle_duplicates_loop_shape L : forall self r self',
  for_each L handle_duplicates_body self = (r, self') ->
  map fst (datasets self') = map fst (datasets self) /\
  forall d df, ds_get (datasets self) d = Some df ->
    exists df', ds_get (datasets self') d = Some df' /\ columns df' = columns df.
Proof.
  induction L as [|x L IH]; intros self r self' Hrun.
  - simpl in Hrun. injection Hrun as <- <-. split; [reflexivity|].
    intros d df Hd. exists df. auto.
  - simpl in Hrun. unfold bind at 1 in Hrun.
    destruct (handle_duplicates_body x self) as [[[]|e] self1] eqn:Hx;
      destruct (handle_duplicates_body_shape _ _ _ _ Hx) as [Hn1 Hc1].
    + destruct (IH _ _ _ Hrun) as [Hn2 Hc2]. split; [congruence|].
      intros d df Hd. destruct (Hc1 d df Hd) as [df1 [Hd1 Hcol1]].
      destruct (Hc2 d df1 Hd1) as [df2 [Hd2 Hcol2]].
      exists df2. split; [assumption | congruence].
    + injection Hrun as <- <-. auto.
Qed.

Lemma handle_duplicates_loop_shape_any duplicates_df self r self' :
  handle_duplicates duplicates_df self = (r, self') ->
  map fst (datasets self') = map fst (datasets self) /\
  forall d df, ds_get (datasets self) d = Some df ->
    exists df', ds_get (datasets self') d = Some df' /\ columns df' = columns df.
Proof.
  unfold handle_duplicates.
  destruct (negb (existsb (String.eqb "Dataset") (report_columns duplicates_df))).
  - intros [= <- <-]. split; [reflexivity|]. intros d df Hd. exists df. auto.
  - apply handle_duplicates_loop_shape.
Qed.

(** [handle_duplicates], whatever report it is given and however it ends,
    neither adds nor removes a dataset, and every dataset keeps its columns
    in their order: it only takes rows away. *)
Theorem handle_duplicates_keeps_shape duplicates_df self r self' :
  handle_duplicates duplicates_df self = (r, self') ->
  map fst (datasets self') = map fst (datasets self) /\
  forall d df, ds_get (datasets self) d = Some df ->
    exists df', ds_get (datasets self') d = Some df' /\ columns df' = columns df.
Proof. apply handle_duplicates_loop_shape_any. Qed.

Lemma handle_duplicates_loop_result L :
  NoDup L -> forall self r self',
  for_each L handle_duplicates_body self = (r, self') ->
  (r = Ok tt \/ r = Raise (KeyError "url")) /\
  (r = Ok tt <->
   forall d df, In (VStr d) L -> ds_get (datasets self) d = Some df ->
     column df "url" <> None).
Proof.
  induction L as [|x L IH]; intros Hnd self r self' Hrun.
  - simpl in Hrun. injection Hrun as <- <-. split; [now left|].
    split; [intros _ d df [] | reflexivity].
  - inversion Hnd as [|? ? Hx HndL]; subst.
    assert (Hskip : for_each L handle_duplicates_body self = (r, self') ->
                    (forall d df, ds_get (datasets self) d = Some df -> x <> VStr d) ->
                    (r = Ok tt \/ r = Raise (KeyError "url")) /\
                    (r = Ok tt <->
                     forall d df, In (VStr d) (x :: L) ->
                       ds_get (datasets self) d = Some df -> column df "url" <> None)).
    { intros Hrest Hne. destruct (IH HndL _ _ _ Hrest) as [H1 H2]. split; [exact H1|].
      rewrite H2. split.
      - intros H d df [Heq|Hin] Hd; [exfalso; eapply Hne; eassumption | eauto].
      - intros H d df Hin. apply H. now right. }
    simpl in Hrun. unfold bind at 1 in Hrun.
    unfold handle_duplicates_body at 1 in Hrun. unfold bind at 1, get_state in Hrun.
    destruct x as [| | | | |name]; try (apply Hskip; [exact Hrun | discriminate]).
    destruct (ds_get (datasets self) name) as [dfn|] eqn:Hn.
    2:{ apply Hskip; [exact Hrun|]. intros d df Hd [= ->]. congruence. }
    unfold bind at 1, log at 1 in Hrun. unfold bind at 1, lift at 1 in Hrun.
    unfold drop_duplicates in Hrun.
    destruct (column dfn "url") as [s|] eqn:Hc.
    + unfold set_dataset in Hrun. cbn [datasets logger] in Hrun.
      destruct (IH HndL _ _ _ Hrun) as [H1 H2]. split; [exact H1|].
      rewrite H2. cbn [datasets]. split.
      * intros H d df [[= <-]|Hin] Hd.
        -- rewrite Hn in Hd. injection Hd as <-. congruence.
        -- apply (H d df Hin). rewrite ds_get_set_other; [assumption|].
           intros ->. contradiction.
      * intros H d df Hin Hd. apply (H d df); [now right|].
        rewrite ds_get_set_other in Hd; [assumption|]. intros ->. contradiction.
    + injection Hrun as <- _. split; [now right|]. split; [discriminate|].
      intros H. exfalso. apply (H name dfn); [now left | assumption | assumption].
Qed.

(** [check_duplicates] followed by [handle_duplicates] ends well exactly
    when every dataset that holds a full-row duplicate has a row without
    null and a [url] column. It raises [IndexError] exactly when a dataset
    that holds a full-row duplicate has a null in every row; when it
    raises something else, that is [KeyError: 'url']. *)
Theorem duplicates_need_url self r self' :
  NoDup (map fst (datasets self)) ->
  check_then_handle_duplicates self = (r, self') ->
  (r = Ok tt <->
   forall d df, ds_get (datasets self) d = Some df -> has_duplicates df = true ->
     ungrouped df = false /\ column df "url" <> None) /\
  (r = Raise IndexError <->
   exists d df, ds_get (datasets self) d = Some df /\ has_duplicates df = true /\
     ungrouped df = true) /\
  (r <> Ok tt -> r = Raise IndexError \/ r = Raise (KeyError "url")).
Proof.
  intros Hnd Hrun. unfold check_then_handle_duplicates, check_duplicates in Hrun.
  unfold bind at 1 in Hrun. unfold bind at 1, get_state in Hrun.
  destruct (check_duplicates_loop_spec (datasets self)
              {| report_columns := ["Dataset"]; report_rows := [] |} self)
    as [r0 [lg [Hchk Hr0]]].
  rewrite Hchk in Hrun. destruct r0 as [rep|e].
  2:{ destruct Hr0 as [-> [n [df0 [Hin [Hdup Hung]]]]]. injection Hrun as <- _.
      apply In_ds_get in Hin; [|assumption].
      split; [|split].
      - split; [discriminate|]. intros H.
        destruct (H n df0 Hin Hdup) as [Hf _]. congruence.
      - split; [|reflexivity]. intros _. exists n, df0. auto.
      - intros _. now left. }
  destruct Hr0 as [Hcol [Hrows Hall]].
  unfold handle_duplicates in Hrun.
  rewrite Hcol in Hrun by reflexivity. cbn [negb] in Hrun.
  destruct (handle_duplicates_loop_result _ (unique_NoDup _) _ _ _ Hrun) as [H1 H2].
  cbn [datasets] in H2.
  assert (Hin : forall d df, ds_get (datasets self) d = Some df ->
            (In (VStr d) (unique (map (fun r => get r "Dataset") (report_rows rep)))
             <-> has_duplicates df = true)).
  { intros d df Hd. rewrite unique_In_VStr, Hrows. simpl. split.
    - intros [[]|[n [df0 [Hin [Hdup [= ->]]]]]].
      apply In_ds_get in Hin; [|assumption]. congruence.
    - intros Hdup. right. exists d, df. split; [now apply ds_get_In | tauto]. }
  split; [|split].
  - rewrite H2. split.
    + intros H d df Hd Hdup. split.
      * apply (Hall d df); [now apply ds_get_In | assumption].
      * apply (H d df); [|assumption]. now apply (Hin d df Hd).
    + intros H d df Hi Hd. apply (H d df Hd). now apply (Hin d df Hd).
  - split.
    + intros ->. destruct H1; discriminate.
    + intros [d [df [Hd [Hdup Hung]]]].
      rewrite (Hall d df (ds_get_In _ _ _ Hd) Hdup) in Hung. discriminate.
  - intros Hne. destruct H1; [contradiction | now right].
Qed.

(** *** Dropping twice *)

Lemma count_true_le mask : count_true mask <= List.length mask.
Proof.
  unfold count_true. induction mask as [|[] mask IH]; simpl; lia.
Qed.

Lemma count_true_none mask : Forall (eq false) mask -> count_true mask = 0.
Proof.
  unfold count_true. induction 1 as [|b mask Hb _ IH]; [reflexivity|].
  subst b. exact IH.
Qed.

Lemma select_all_true {A} mask (l : list A) :
  Forall (eq true) mask -> List.length mask = List.length l -> select mask l = l.
Proof.
  intros H. revert l. induction H as [|b mask Hb _ IH]; intros [|x l] Hlen;
    try discriminate; [reflexivity|].
  subst b. simpl. f_equal. apply IH. now injection Hlen.
Qed.

Lemma negb_all_false mask : Forall (eq false) mask -> Forall (eq true) (map negb mask).
Proof.
  induction 1 as [|b mask Hb _ IH]; simpl; constructor; [now subst b | assumption].
Qed.

(** What [duplicated] keeps holds no duplicate. *)
Lemma kept_all_fresh {K} (eqb : K -> K -> bool) (l : list K) (d : K) :
  Forall (eq false)
    (duplicated_from eqb [] (select (map negb (duplicated_from eqb [] l)) l)).
Proof.
  set (kept := select (map negb (duplicated_from eqb [] l)) l).
  apply Forall_forall. intros b Hb.
  apply (In_nth _ _ false) in Hb as [i [Hi <-]].
  rewrite duplicated_from_length in Hi.
  destruct (nth i (duplicated_from eqb [] kept) false) eqn:E; [|reflexivity].
  apply (duplicated_from_nth eqb [] kept d i Hi) in E as [E|[j [Hj E]]];
    [discriminate|].
  pose proof (kept_pairwise eqb [] l d j i Hj Hi) as Hne. fold kept in Hne.
  simpl in Hne. congruence.
Qed.

Lemma select_series_all mask s :
  Forall (eq true) mask -> List.length mask = List.length (cells s) ->
  select_series mask s = s.
Proof.
  intros Hall Hlen. destruct s; simpl in *; rewrite length_map in Hlen;
    f_equal; now apply select_all_true.
Qed.

Lemma select_rows_all mask df :
  Forall (eq true) mask ->
  (forall c s, In (c, s) df -> List.length (cells s) = List.length mask) ->
  select_rows mask df = df.
Proof.
  intros Hall Hlen. unfold select_rows.
  rewrite <- (map_id df) at 2. apply map_ext_in. intros [c s] Hin. simpl.
  f_equal. apply select_series_all; [assumption|]. symmetry. eapply Hlen; eassumption.
Qed.

Lemma rectangular_select mask df :
  rectangular df -> List.length mask = nrows df ->
  rectangular (select_rows mask df) /\ nrows (select_rows mask df) = count_true mask.
Proof.
  intros Hrect Hlen.
  assert (Hn : nrows (select_rows mask df) = count_true mask).
  { destruct df as [|[c s] df]; simpl in *.
    - destruct mask; [reflexivity | discriminate].
    - rewrite cells_select_series. now apply select_length. }
  split; [|exact Hn].
  intros c s Hin. rewrite Hn. unfold select_rows in Hin.
  apply in_map_iff in Hin as [[c0 s0] [[= <- <-] Hin]].
  rewrite cells_select_series. apply select_length.
  rewrite Hlen. symmetry. eapply Hrect; eassumption.
Qed.

Lemma column_In df c s : column df c = Some s -> In (c, s) df.
Proof.
  induction df as [|[n s0] df IH]; simpl; [discriminate|].
  destruct (String.eqb c n) eqn:E; [|auto].
  intros [= ->]. apply String.eqb_eq in E. subst. now left.
Qed.

Lemma drop_duplicates_again df c df' :
  rectangular df -> drop_duplicates df c = Ok df' ->
  drop_duplicates df' c = Ok df' /\
  rectangular df' /\ columns df' = columns df /\ nrows df' <= nrows df.
Proof.
  intros Hrect Hdrop. unfold drop_duplicates in Hdrop.
  destruct (column df c) as [s|] eqn:Hc; [|discriminate]. injection Hdrop as <-.
  set (mask := map negb (duplicated_keys value_eqb (cells s))).
  assert (Hlen : List.length mask = nrows df).
  { unfold mask, duplicated_keys. rewrite length_map, duplicated_from_length.
    eapply Hrect, column_In; eassumption. }
  destruct (rectangular_select mask df Hrect Hlen) as [Hrect' Hn'].
  split; [|split; [exact Hrect' | split; [apply select_rows_columns|]]].
  - unfold drop_duplicates. rewrite column_select_rows, Hc. simpl. f_equal.
    rewrite cells_select_series. apply select_rows_all.
    + apply negb_all_false. unfold duplicated_keys, mask, duplicated_keys.
      apply kept_all_fresh. exact VNull.
    + intros c0 s0 Hin. rewrite length_map. unfold duplicated_keys.
      rewrite duplicated_from_length.
      rewrite (Hrect' c0 s0 Hin), Hn'. symmetry. apply select_length.
      rewrite Hlen. symmetry. eapply Hrect, column_In; eassumption.
  - rewrite Hn', <- Hlen. apply count_true_le.
Qed.

(** Dropping the rows of a repeated key a second time changes nothing: the
    frame that [drop_duplicates] returns is returned again as it is. It
    has the columns of the frame it was made from, and no more rows. *)
Theorem drop_duplicates_idempotent df c df' :
  rectangular df -> drop_duplicates df c = Ok df' ->
  drop_duplicates df' c = Ok df' /\
  rectangular df' /\ columns df' = columns df /\ nrows df' <= nrows df.
Proof. apply drop_duplicates_again. Qed.

(** *** Checking again *)

Lemma nth_rows df i d :
  i < nrows df ->
  nth i (map (fun r => map snd r) (iterrows df)) d = map snd (row_at df i).
Proof.
  intros Hi. unfold iterrows. rewrite map_map.
  rewrite (nth_indep _ d ((fun k => map snd (row_at df k)) 0))
    by now rewrite length_map, length_seq.
  rewrite (map_nth (fun k => map snd (row_at df k))). now rewrite seq_nth.
Qed.

Lemma equal_rows_equal_cells df c s i j :
  cells_eqb (map snd (row_at df i)) (map snd (row_at df j)) = true ->
  column df c = Some s ->
  value_eqb (nth i (cells s) VNull) (nth j (cells s) VNull) = true.
Proof.
  induction df as [|[n s0] df IH]; simpl; [discriminate|].
  intros H. apply andb_prop in H as [H1 H2].
  destruct (String.eqb c n); [now intros [= <-] | now apply IH].
Qed.

(** In a frame where no [url] is repeated, no row is. *)
Lemma no_repeated_url_no_duplicates df s :
  rectangular df -> column df "url" = Some s -> no_repeated_url df ->
  has_duplicates df = false.
Proof.
  intros Hrect Hc Hno. unfold has_duplicates. apply Nat.ltb_ge.
  rewrite count_true_none; [lia|].
  apply Forall_forall. intros b Hb. apply (In_nth _ _ false) in Hb as [i [Hi <-]].
  unfold duplicated, duplicated_keys in *. rewrite duplicated_from_length in Hi.
  assert (Hn : i < nrows df).
  { unfold iterrows in Hi. now rewrite !length_map, length_seq in Hi. }
  destruct (nth i _ false) eqn:E; [|reflexivity].
  apply (duplicated_from_nth cells_eqb [] _ [] i Hi) in E as [E|[j [Hj E]]];
    [discriminate|].
  rewrite !nth_rows in E by lia.
  pose proof (equal_rows_equal_cells df "url" s i j E Hc) as Heq.
  assert (Hu : urls df = cells s) by (unfold urls; now rewrite Hc).
  specialize (Hno j i Hj). rewrite Hu in Hno.
  rewrite (Hrect "url" s (column_In _ _ _ Hc)) in Hno. specialize (Hno Hn).
  rewrite value_eqb_sym in Hno. congruence.
Qed.

Lemma names_ds_get ds name :
  In name (map fst ds) -> exists df, ds_get ds name = Some df.
Proof.
  induction ds as [|[n df0] ds IH]; simpl; [tauto|].
  destruct (String.eqb name n) eqn:E; [eauto|].
  intros [->|H]; [now rewrite String.eqb_refl in E | auto].
Qed.

Lemma no_duplicates_left ds :
  (forall name df, In (name, df) ds -> has_duplicates df = false) ->
  with_duplicates ds = [] /\ total_duplicates ds = 0.
Proof.
  induction ds as [|[n df] ds IH]; intros H; [auto|].
  destruct IH as [IH1 IH2]; [intros; eapply H; right; eassumption|].
  pose proof (H n df (or_introl eq_refl)) as Hd.
  unfold with_duplicates in *. simpl. rewrite Hd, IH1, IH2. split; [reflexivity|].
  unfold has_duplicates in Hd. apply Nat.ltb_ge in Hd. lia.
Qed.

(** [check_duplicates] followed by [handle_duplicates], when it has ended
    well, leaves nothing for a second pass: run again, it ends well, finds
    no duplicate, logs nothing and changes no dataset. *)
Theorem check_then_handle_twice self self1 :
  NoDup (map fst (datasets self)) ->
  (forall name df, In (name, df) (datasets self) -> rectangular df) ->
  check_then_handle_duplicates self = (Ok tt, self1) ->
  check_then_handle_duplicates self1 = (Ok tt, self1).
Proof.
  intros Hnd Hrect Hrun.
  assert (Hshape : map fst (datasets self1) = map fst (datasets self)).
  { unfold check_then_handle_duplicates in Hrun. unfold bind at 1 in Hrun.
    destruct (check_duplicates_full self) as [r0 [Hchk _]].
    rewrite Hchk in Hrun. destruct r0 as [rep|e]; [|discriminate].
    now destruct (handle_duplicates_loop_shape_any _ _ _ _ Hrun). }
  assert (Hclean : forall name df, In (name, df) (datasets self1) ->
                     has_duplicates df = false).
  { intros name df1 Hin.
    assert (Hd1 : ds_get (datasets self1) name = Some df1).
    { apply In_ds_get; [now rewrite Hshape | assumption]. }
    destruct (names_ds_get (datasets self) name) as [df Hd].
    { rewrite <- Hshape. apply in_map_iff. now exists (name, df1). }
    destruct (check_then_handle_spec _ _ _ _ _ Hnd Hrun Hd) as [H1 H2].
    destruct (has_duplicates df) eqn:Hdup.
    - destruct (H2 eq_refl eq_refl) as [df' [Hdrop Hd']].
      assert (df' = df1) by congruence. subst df'.
      pose proof (Hrect _ _ (ds_get_In _ _ _ Hd)) as Hr.
      destruct (drop_duplicates_again _ _ _ Hr Hdrop) as [Hagain [Hr1 _]].
      unfold drop_duplicates in Hagain.
      destruct (column df1 "url") as [s1|] eqn:Hc1; [|discriminate].
      eapply no_repeated_url_no_duplicates; [eassumption | eassumption |].
      eapply drop_duplicates_no_repeated_url; eassumption.
    - specialize (H1 eq_refl). congruence. }
  destruct (no_duplicates_left _ Hclean) as [Hw Ht].
  unfold check_then_handle_duplicates. unfold bind at 1.
  destruct (check_duplicates_full self1) as [r1 [Hchk Hr1]].
  assert (Hnone : existsb (fun item => ungroupable (snd item)) (datasets self1) = false).
  { destruct (existsb (fun item => ungroupable (snd item)) (datasets self1)) eqn:E;
      [|reflexivity].
    apply existsb_exists in E as [[n df] [Hin Hu]]. unfold ungroupable in Hu.
    cbn [snd] in Hu. now rewrite (Hclean n df Hin) in Hu. }
  destruct r1 as [rep|e]; [|destruct Hr1 as [_ Hr1]; congruence].
  destruct Hr1 as [_ [Hlen Hcol]].
  rewrite Hchk, (reached_all _ Hnone), Hw. simpl map. rewrite app_nil_r.
  unfold handle_duplicates.
  replace (existsb (String.eqb "Dataset") (report_columns rep)) with true.
  2:{ symmetry. apply existsb_exists. exists "Dataset". split; [assumption|].
      apply String.eqb_refl. }
  rewrite Ht in Hlen. destruct (report_rows rep); [|discriminate].
  simpl. now destruct self1.
Qed.

End DuplicateProperties.

Lemma handle_duplicates_keeps_shape_witness :
  let duplicates_df :=
    {| DataQuality.report_columns := ["Dataset"];
       DataQuality.report_rows :=
         DataQuality.report_rows
           (DataQualityTerms.report_of
              (fst (DataQuality.check_duplicates (with_dataset same_url_frame_dup)))) |} in
  let self' := snd (DataQuality.handle_duplicates duplicates_df
                      (with_dataset same_url_frame_dup)) in
  map fst (DataQuality.datasets self') = ["bbc_df"] /\
  forall d df, DataQuality.ds_get [("bbc_df", same_url_frame_dup)] d = Some df ->
    exists df', DataQuality.ds_get (DataQuality.datasets self') d = Some df' /\
                columns df' = columns df.
Proof.
  exact (handle_duplicates_keeps_shape
           {| DataQuality.report_columns := ["Dataset"];
              DataQuality.report_rows :=
                DataQuality.report_rows
                  (DataQualityTerms.report_of
                     (fst (DataQuality.check_duplicates
                             (with_dataset same_url_frame_dup)))) |}
           (with_dataset same_url_frame_dup) _ _ eq_refl).
Defined.

Lemma duplicates_need_url_witness :
  fst (check_then_handle_duplicates (with_dataset DataQualityTerms.sectionless_frame))
  = Raise IndexError.
Proof.
  refine (proj2 (proj1 (proj2 (duplicates_need_url
                                 (with_dataset DataQualityTerms.sectionless_frame)
                                 _ _ _ eq_refl))) _).
  - repeat constructor. simpl. tauto.
  - exists "bbc_df", DataQualityTerms.sectionless_frame. repeat split.
Defined.

(** Without [url] column the same pair of steps raises [KeyError]. *)
Example nameless_frame_raises_key_error :
  fst (check_then_handle_duplicates (with_dataset DataQualityTerms.nameless_frame))
  = Raise (KeyError "url").
Proof. reflexivity. Qed.

Lemma same_url_frame_dup_rectangular : DataQualityTerms.rectangular same_url_frame_dup.
Proof.
  intros c s [[= <- <-]|[[= <- <-]|[]]]; reflexivity.
Qed.

Lemma drop_duplicates_idempotent_witness :
  exists df',
    drop_duplicates same_url_frame_dup "url" = Ok df' /\
    drop_duplicates df' "url" = Ok df' /\ nrows df' = 1.
Proof.
  eexists. split; [reflexivity|]. split; [|reflexivity].
  exact (proj1 (drop_duplicates_idempotent same_url_frame_dup "url" _
                  same_url_frame_dup_rectangular eq_refl)).
Defined.

Lemma check_then_handle_twice_witness :
  let self1 := snd (check_then_handle_duplicates (with_dataset same_url_frame_dup)) in
  check_then_handle_duplicates self1 = (Ok tt, self1).
Proof.
  refine (check_then_handle_twice (with_dataset same_url_frame_dup) _ _ _ eq_refl).
  - repeat constructor. simpl. tauto.
  - intros name df [[= <- <-]|[]]. exact same_url_frame_dup_rectangular.
Defined.

(** ** Nulls *)

Section NullProperties.

Import DataQuality NullTerms.
Context {N : Numerics}.

(** [impute_value] under one of its four methods, step by step. *)
Lemma impute_value_known column_name method dataset_name df lg :
  In method known_methods ->
  impute_value column_name method dataset_name (df, lg)
  = match column df column_name with
    | None => (Raise (KeyError column_name), (df, lg))
    | Some s =>
        if String.eqb method "interpolate" then
          match dt_floor_s (interpolate s) with
          | Ok floored =>
              (Ok tt, (set_column df column_name floored,
                       lg ++ [(INFO, MsgImputed column_name dataset_name method)]))
          | Raise e => (Raise e, (set_column df column_name (interpolate s), lg))
          end
        else
          match fill_value method s with
          | Ok v =>
              (Ok tt, (set_column df column_name (fillna s v),
                       lg ++ [(INFO, MsgImputed column_name dataset_name method)]))
          | Raise e => (Raise e, (df, lg))
          end
    end.
Proof.
  intros Hin. unfold impute_value, fill_value.
  destruct Hin as [<-|[<-|[<-|[<-|[]]]]]; cbn [String.eqb Ascii.eqb Bool.eqb];
    unfold bind at 1; unfold bind at 1, get_column at 1; cbn [fst snd];
    (destruct (column df column_name) as [s|]; [|reflexivity]).
  - unfold bind at 1, lift_frame at 1. now destruct (mean s).
  - unfold bind at 1, lift_frame at 1. now destruct (median s).
  - unfold bind at 1, lift_frame at 1. now destruct (first_mode (mode s)).
  - unfold bind at 1, assign_column at 1. unfold bind at 1, get_column at 1.
    cbn [fst snd]. rewrite column_set_same.
    unfold bind at 1, lift_frame at 1.
    destruct (dt_floor_s (interpolate s)) as [floored|e]; [|reflexivity].
    unfold bind, assign_column, frame_log. cbn [fst snd].
    now rewrite set_column_twice.
Qed.

Lemma fill_value_raises method s e :
  In method ["mean"; "median"; "mode"] -> fill_value method s = Raise e ->
  (method <> "mode" /\ e = TypeError /\ exists xs, s = SObj xs /\ dropna xs <> []) \/
  (method = "mode" /\ e = KeyError "0" /\ mode s = []).
Proof.
  unfold fill_value, mean, median.
  intros [<-|[<-|[<-|[]]]]; cbn [String.eqb Ascii.eqb Bool.eqb]; intros H.
  - left. split; [discriminate|]. split; [eapply reduce_raises; eassumption|].
    destruct s as [xs|xs|xs|xs]; try discriminate. exists xs. split; [reflexivity|].
    simpl in H. now destruct (dropna xs).
  - left. split; [discriminate|]. split; [eapply reduce_raises; eassumption|].
    destruct s as [xs|xs|xs|xs]; try discriminate. exists xs. split; [reflexivity|].
    simpl in H. now destruct (dropna xs).
  - right. split; [reflexivity|]. split; [eapply first_mode_raises; eassumption|].
    now destruct (mode s).
Qed.

Lemma impute_value_raise_cases column_name method dataset_name df lg e st' :
  In method known_methods ->
  impute_value column_name method dataset_name (df, lg) = (Raise e, st') ->
  match column df column_name with
  | None => e = KeyError column_name /\ st' = (df, lg)
  | Some s =>
      ((method = "mean" \/ method = "median") /\ e = TypeError /\ st' = (df, lg) /\
       exists xs, s = SObj xs /\ dropna xs <> []) \/
      (method = "mode" /\ e = KeyError "0" /\ st' = (df, lg) /\ mode s = []) \/
      (method = "interpolate" /\ e = AttributeError "dt" /\
       is_datetime64_any_dtype s = false /\
       st' = (set_column df column_name (interpolate s), lg))
  end.
Proof.
  intros Hin Hrun. rewrite (impute_value_known _ _ _ _ _ Hin) in Hrun.
  destruct (column df column_name) as [s|]; [|now injection Hrun as <- <-].
  destruct Hin as [<-|[<-|[<-|[<-|[]]]]]; cbn [String.eqb Ascii.eqb Bool.eqb] in Hrun.
  - destruct (fill_value "mean" s) as [v|e0] eqn:E; [discriminate|].
    injection Hrun as -> <-.
    apply fill_value_raises in E as [[_ [-> Hx]]|[[=] _]]; [|simpl; auto].
    left. auto.
  - destruct (fill_value "median" s) as [v|e0] eqn:E; [discriminate|].
    injection Hrun as -> <-.
    apply fill_value_raises in E as [[_ [-> Hx]]|[[=] _]]; [|simpl; auto].
    left. auto.
  - destruct (fill_value "mode" s) as [v|e0] eqn:E; [discriminate|].
    injection Hrun as -> <-.
    apply fill_value_raises in E as [[Hne _]|[_ [-> Hm]]]; [congruence| |simpl; auto].
    right. left. auto.
  - destruct (dt_floor_s (interpolate s)) as [floored|e0] eqn:E; [discriminate|].
    injection Hrun as -> <-. right. right. split; [reflexivity|].
    split; [eapply dt_floor_s_raises; eassumption|]. split; [|reflexivity].
    destruct s; try reflexivity. discriminate.
Qed.

(** [impute_value] under one of its four methods raises in four cases
    only. The column is not in the frame: [KeyError] on its name. The mean
    or the median of a column of strings that holds a value: [TypeError].
    The mode of a column that holds no value: [KeyError: 0]. In these
    three the frame is left as it was. [interpolate] on a column that is
    not temporal: [AttributeError], raised by [.dt] after the interpolated
    column has been written to the frame. *)
Theorem impute_value_errors column_name method dataset_name df lg e st' :
  In method known_methods ->
  impute_value column_name method dataset_name (df, lg) = (Raise e, st') ->
  match column df column_name with
  | None => e = KeyError column_name /\ st' = (df, lg)
  | Some s =>
      ((method = "mean" \/ method = "median") /\ e = TypeError /\ st' = (df, lg) /\
       exists xs, s = SObj xs /\ dropna xs <> []) \/
      (method = "mode" /\ e = KeyError "0" /\ st' = (df, lg) /\ mode s = []) \/
      (method = "interpolate" /\ e = AttributeError "dt" /\
       is_datetime64_any_dtype s = false /\
       st' = (set_column df column_name (interpolate s), lg))
  end.
Proof. apply impute_value_raise_cases. Qed.

Lemma columns_set_column df c s s' :
  column df c = Some s -> columns (set_column df c s') = columns df.
Proof.
  unfold columns. induction df as [|[n s0] df IH]; simpl; [discriminate|].
  destruct (String.eqb c n); simpl; [reflexivity|]. intros H. now rewrite IH.
Qed.

Lemma nth_fill {A} (C : A -> value) (v : A) xs : forall i,
  nth i (map (opt_value C) xs) VNull <> VNull ->
  nth i (map (opt_value C) (fill v xs)) VNull = nth i (map (opt_value C) xs) VNull.
Proof.
  induction xs as [|[x|] xs IH]; intros [|i] H; simpl in *;
    try reflexivity; try contradiction; now apply IH.
Qed.

Lemma nth_blank {A} (C : A -> value) (xs : list (option A)) : forall i,
  dropna xs = [] -> nth i (map (opt_value C) xs) VNull = VNull.
Proof.
  induction xs as [|[x|] xs IH]; intros [|i] H; simpl in *;
    try reflexivity; try discriminate; now apply IH.
Qed.

Lemma fillna_keeps s v :
  dtype (fillna s v) = (if blank s && isna v then "float64" else dtype s) /\
  List.length (cells (fillna s v)) = List.length (cells s) /\
  forall i, nth i (cells s) VNull <> VNull ->
    nth i (cells (fillna s v)) VNull = nth i (cells s) VNull.
Proof.
  destruct s as [xs|xs|xs|xs].
  1-3: destruct v; simpl; repeat split; auto;
         try (unfold fill; now rewrite !length_map); apply nth_fill.
  destruct v; try (simpl; rewrite andb_false_r; repeat split; auto;
                   try (unfold fill; now rewrite !length_map); apply nth_fill).
  unfold fillna, blank. destruct xs as [|x xs]; [simpl; auto|].
  destruct (dropna (x :: xs)) eqn:E; [|simpl; auto].
  cbn [andb isna dtype cells]. split; [reflexivity|].
  split; [now rewrite !length_map|].
  intros i H. exfalso. apply H. now apply nth_blank.
Qed.

Lemma fill_value_blank method s v :
  In method ["mean"; "median"; "mode"] -> fill_value method s = Ok v ->
  blank s = true -> v = VNull.
Proof.
  unfold blank. destruct s as [xs|xs|xs|[|x xs]]; try discriminate.
  destruct (dropna (x :: xs)) eqn:E; [|discriminate]. intros Hin Hv _.
  unfold fill_value, mean, median, mode, reduce in Hv. rewrite E in Hv.
  destruct Hin as [<-|[<-|[<-|[]]]]; cbn [String.eqb Ascii.eqb Bool.eqb] in Hv;
    try congruence. discriminate.
Qed.

(** A filling method that ends well has put, in the place of the column, a
    column of the same length in which every value that was there still
    is: [mean], [median] and [mode] write to nulls only. The column keeps
    its type, but for a column of strings that has cells and no value in
    them: [mean] and [median] leave it a [float64] column of nulls. The
    frame keeps its columns, and no other column is touched. *)
Theorem filling_keeps_present_values column_name method dataset_name df lg df' lg' :
  In method ["mean"; "median"; "mode"] ->
  impute_value column_name method dataset_name (df, lg) = (Ok tt, (df', lg')) ->
  exists s s',
    column df column_name = Some s /\ column df' column_name = Some s' /\
    columns df' = columns df /\
    (forall c, c <> column_name -> column df' c = column df c) /\
    dtype s' = (if blank s then "float64" else dtype s) /\
    (blank s = true -> method <> "mode") /\
    List.length (cells s') = List.length (cells s) /\
    forall i, nth i (cells s) VNull <> VNull ->
      nth i (cells s') VNull = nth i (cells s) VNull.
Proof.
  intros Hin Hrun.
  assert (Hk : In method known_methods) by (simpl in *; tauto).
  rewrite (impute_value_known _ _ _ _ _ Hk) in Hrun.
  destruct (column df column_name) as [s|] eqn:Hc; [|discriminate].
  replace (String.eqb method "interpolate") with false in Hrun
    by now destruct Hin as [<-|[<-|[<-|[]]]].
  destruct (fill_value method s) as [v|e] eqn:Hv; [|discriminate].
  injection Hrun as <- _. exists s, (fillna s v).
  split; [reflexivity|]. split; [apply column_set_same|].
  split; [eapply columns_set_column; eassumption|].
  split; [intros c Hne; now apply column_set_other|].
  destruct (fillna_keeps s v) as [Hd Hrest].
  split; [|split; [|exact Hrest]].
  - destruct (blank s) eqn:Hb; [|exact Hd].
    pose proof (fill_value_blank _ _ _ Hin Hv Hb) as Hnull. subst v. exact Hd.
  - intros Hb ->. unfold blank in Hb.
    destruct s as [xs|xs|xs|[|x xs]]; try discriminate.
    destruct (dropna (x :: xs)) eqn:E; [|discriminate].
    unfold fill_value, mode in Hv. cbn [String.eqb Ascii.eqb Bool.eqb] in Hv.
    rewrite E in Hv. discriminate.
Qed.

Lemma interpolate_from_length {A} interp (xs : list (option A)) : forall prev k,
  List.length (interpolate_from interp prev k xs) = List.length xs.
Proof.
  induction xs as [|[x|] xs IH]; intros prev k; simpl; auto.
Qed.

Lemma interpolate_from_keeps {A} interp (xs : list (option A)) : forall prev k i x,
  nth i xs None = Some x -> nth i (interpolate_from interp prev k xs) None = Some x.
Proof.
  induction xs as [|[y|] xs IH]; intros prev k [|i] x H; simpl in *;
    try discriminate; try assumption; now apply IH.
Qed.

(** A null that [interpolate] leaves has no value before it. *)
Lemma interpolate_from_left {A} interp (xs : list (option A)) : forall prev k i,
  i < List.length xs ->
  nth i (interpolate_from interp prev k xs) None = None ->
  prev = None /\ forall j, j <= i -> nth j xs None = None.
Proof.
  induction xs as [|[y|] xs IH]; intros prev k [|i] Hi H; simpl in *; try lia.
  - discriminate.
  - apply IH in H; [|lia]. destruct H as [[=] _].
  - split.
    + destruct prev as [[p a]|]; [|reflexivity].
      now destruct (next_valid (S k) xs) as [[j b]|].
    + intros j Hj. now replace j with 0 by lia.
  - apply IH in H; [|lia]. destruct H as [Hp Hl]. split; [assumption|].
    intros [|j] Hj; [reflexivity|]. apply Hl. lia.
Qed.

Lemma floor_s_spec ns :
  (floor_s ns <= ns < floor_s ns + 1000000000)%Z /\
  (floor_s ns mod 1000000000 = 0)%Z.
Proof.
  unfold floor_s. split.
  - pose proof (Z.div_mod ns 1000000000 ltac:(lia)).
    pose proof (Z.mod_pos_bound ns 1000000000 ltac:(lia)). lia.
  - apply Z_mod_mult.
Qed.

Lemma nth_map_option {A B} (f : A -> B) xs i :
  nth i (map (option_map f) xs) None = option_map f (nth i xs None).
Proof.
  revert i. induction xs as [|x xs IH]; intros [|i]; simpl; auto.
Qed.

(** [interpolate] that ends well was called on a temporal column, and it
    has floored every timestamp of the column to the whole second, those
    that were there as well as those it has filled in. The column keeps
    its length, and a null that is left has no value before it. *)
Theorem interpolate_floors_every_value column_name dataset_name df lg df' lg' :
  impute_value column_name "interpolate" dataset_name (df, lg) = (Ok tt, (df', lg')) ->
  exists xs xs',
    column df column_name = Some (STime xs) /\
    column df' column_name = Some (STime xs') /\
    List.length xs' = List.length xs /\
    (forall i ns, nth i xs None = Some ns -> nth i xs' None = Some (floor_s ns)) /\
    (forall i ns', nth i xs' None = Some ns' ->
       (ns' mod 1000000000 = 0)%Z) /\
    (forall i, i < List.length xs -> nth i xs' None = None ->
       forall j, j <= i -> nth j xs None = None).
Proof.
  intros Hrun.
  rewrite (impute_value_known column_name "interpolate" dataset_name df lg) in Hrun
    by (simpl; tauto).
  destruct (column df column_name) as [s|] eqn:Hc; [|discriminate].
  cbn [String.eqb Ascii.eqb Bool.eqb] in Hrun.
  destruct s as [xs|xs|xs|xs]; try discriminate.
  simpl in Hrun. injection Hrun as <- _.
  exists xs, (map (option_map floor_s) (interpolate_from interp_time None 0 xs)).
  split; [reflexivity|]. split; [apply column_set_same|].
  split; [now rewrite length_map, interpolate_from_length|]. split; [|split].
  - intros i ns H. rewrite nth_map_option.
    now rewrite (interpolate_from_keeps _ _ _ _ _ _ H).
  - intros i ns' H. rewrite nth_map_option in H.
    destruct (nth i (interpolate_from interp_time None 0 xs) None); [|discriminate].
    injection H as <-. apply floor_s_spec.
  - intros i Hi H. rewrite nth_map_option in H.
    destruct (nth i (interpolate_from interp_time None 0 xs) None) eqn:E;
      [discriminate|].
    now apply (interpolate_from_left _ _ _ _ _ Hi) in E.
Qed.

(** *** The loop of [handle_null_values] *)

Lemma method_for_known s : In (method_for s) known_methods.
Proof.
  unfold method_for, known_methods.
  destruct (is_numeric_dtype s); [destruct (ne_zero (skew s)); simpl; tauto|].
  destruct (is_datetime64_any_dtype s); simpl; tauto.
Qed.

Lemma ds_set_same ds name df : ds_get ds name = Some df -> ds_set ds name df = ds.
Proof.
  induction ds as [|[n df0] ds IH]; simpl; [discriminate|].
  destruct (String.eqb name n) eqn:E.
  - now intros [= ->].
  - intros H. now rewrite IH.
Qed.

(** One turn of the loop raises only when the type of the column has
    selected [mode] and the column holds no value; the datasets are then
    as they were. *)
Lemma handle_null_row_raises drop_null_threshold row self e self' :
  handle_null_row drop_null_threshold row self = (Raise e, self') ->
  e = KeyError "0" /\ self' = self /\
  Qle_bool (Persentase_Null_Values row) drop_null_threshold = true /\
  exists df s,
    ds_get (datasets self) (Dataset row) = Some df /\
    column df (Kolom row) = Some s /\ dtype s = "object" /\ mode s = [].
Proof.
  unfold handle_null_row. unfold bind at 1, get_state at 1.
  destruct (ds_get (datasets self) (Dataset row)) as [df|] eqn:Hd; [|discriminate].
  destruct (Qle_bool (Persentase_Null_Values row) drop_null_threshold); cbn [negb].
  2:{ destruct (has_column df (Kolom row)); discriminate. }
  destruct (column df (Kolom row)) as [s|] eqn:Hc; [|discriminate].
  unfold on_dataset.
  destruct (impute_value (Kolom row) (method_for s) (Dataset row) (df, logger self))
    as [r [df1 lg1]] eqn:Himp.
  intros [= -> <-].
  pose proof (impute_value_raise_cases _ _ _ _ _ _ _ (method_for_known s) Himp) as H.
  rewrite Hc in H. unfold method_for in H.
  destruct s as [xs|xs|xs|xs]; cbn [is_numeric_dtype is_datetime64_any_dtype] in H.
  - exfalso. destruct H as [[_ [_ [_ [ys [[=] _]]]]]|[[Hm _]|[Hm _]]];
      destruct (ne_zero (skew (SInt xs))); discriminate.
  - exfalso. destruct H as [[_ [_ [_ [ys [[=] _]]]]]|[[Hm _]|[Hm _]]];
      destruct (ne_zero (skew (SFloat xs))); discriminate.
  - exfalso. destruct H as [[[Hm|Hm] _]|[[Hm _]|[_ [_ [Hm _]]]]]; discriminate.
  - destruct H as [[[Hm|Hm] _]|[[_ [-> [[= -> ->] Hm]]]|[Hm _]]]; try discriminate.
    split; [reflexivity|]. split.
    + rewrite (ds_set_same _ _ _ Hd). now destruct self.
    + split; [reflexivity|]. exists df, (SObj xs). auto.
Qed.

Lemma handle_null_values_raise_split null_values_df drop_null_threshold :
  forall self e self',
  handle_null_values null_values_df drop_null_threshold self
  = (Raise e, self') ->
  exists pre row post s1,
    null_values_df = pre ++ row :: post /\
    handle_null_values pre drop_null_threshold self = (Ok tt, s1) /\
    handle_null_row drop_null_threshold row s1 = (Raise e, self').
Proof.
  unfold handle_null_values.
  induction null_values_df as [|row rows IH]; intros self e self' Hrun;
    simpl in Hrun; [discriminate|].
  unfold bind at 1 in Hrun.
  destruct (handle_null_row drop_null_threshold row self) as [[[]|e0] self1] eqn:Hstep.
  - destruct (IH _ _ _ Hrun) as [pre [r [post [s1 [-> [Hpre Hr]]]]]].
    exists (row :: pre), r, post, s1. split; [reflexivity|]. split; [|assumption].
    simpl. unfold bind. now rewrite Hstep.
  - injection Hrun as <- <-. exists [], row, rows, self. auto.
Qed.

(** The only exception that leaves [handle_null_values] is [KeyError: 0].
    It comes from a column of strings that holds no value and whose
    percentage is not above the threshold: its mode is empty, and the
    first of its modes is asked for. The loop stops there: the datasets
    and the log are as the rows of the report before that row have left
    them, and the rows that follow are not handled. *)
Theorem handle_null_values_raises_key_error null_values_df drop_null_threshold :
  forall self e self',
  handle_null_values null_values_df drop_null_threshold self = (Raise e, self') ->
  e = KeyError "0" /\
  exists pre row post df s,
    null_values_df = pre ++ row :: post /\
    handle_null_values pre drop_null_threshold self = (Ok tt, self') /\
    Qle_bool (Persentase_Null_Values row) drop_null_threshold = true /\
    ds_get (datasets self') (Dataset row) = Some df /\
    column df (Kolom row) = Some s /\ dtype s = "object" /\ mode s = [].
Proof.
  intros self e self' Hrun.
  apply handle_null_values_raise_split in Hrun
    as [pre [row [post [s1 [Hrows [Hpre Hrow]]]]]].
  destruct (handle_null_row_raises _ _ _ _ _ Hrow) as [He [-> [Hp [df [s H]]]]].
  split; [assumption|]. exists pre, row, post, df, s. tauto.
Qed.

Lemma impute_value_frame column_name method dataset_name df lg r df' lg' :
  In method known_methods ->
  impute_value column_name method dataset_name (df, lg) = (r, (df', lg')) ->
  df' = df \/ exists s s', column df column_name = Some s /\
                           df' = set_column df column_name s'.
Proof.
  intros Hin Hrun. rewrite (impute_value_known _ _ _ _ _ Hin) in Hrun.
  destruct (column df column_name) as [s|]; [|injection Hrun as _ <- _; now left].
  destruct (String.eqb method "interpolate").
  - destruct (dt_floor_s (interpolate s)); injection Hrun as _ <- _; right; eauto.
  - destruct (fill_value method s); injection Hrun as _ <- _; [right; eauto | now left].
Qed.

(** One turn of the loop, however it ends: the datasets keep their names,
    no column appears, and only the column of the row can change. *)
Lemma handle_null_row_reach drop_null_threshold row self r self' :
  handle_null_row drop_null_threshold row self = (r, self') ->
  map fst (datasets self') = map fst (datasets self) /\
  forall d df, ds_get (datasets self) d = Some df ->
    exists df', ds_get (datasets self') d = Some df' /\
      (forall c, column df c = None -> column df' c = None) /\
      (forall c, d <> Dataset row \/ c <> Kolom row -> column df' c = column df c).
Proof.
  unfold handle_null_row. unfold bind at 1, get_state at 1.
  assert (Hsame : map fst (datasets self) = map fst (datasets self) /\
            forall d df, ds_get (datasets self) d = Some df ->
              exists df', ds_get (datasets self) d = Some df' /\
                (forall c, column df c = None -> column df' c = None) /\
                (forall c, d <> Dataset row \/ c <> Kolom row ->
                   column df' c = column df c)).
  { split; [reflexivity|]. intros d df Hd. exists df. auto. }
  destruct (ds_get (datasets self) (Dataset row)) as [df0|] eqn:Hd0.
  2:{ unfold log. intros [= <- <-]. exact Hsame. }
  assert (Hnew : forall df1,
            (forall c, column df0 c = None -> column df1 c = None) ->
            (forall c, c <> Kolom row -> column df1 c = column df0 c) ->
            map fst (ds_set (datasets self) (Dataset row) df1) = map fst (datasets self) /\
            forall d df, ds_get (datasets self) d = Some df ->
              exists df', ds_get (ds_set (datasets self) (Dataset row) df1) d
                          = Some df' /\
                (forall c, column df c = None -> column df' c = None) /\
                (forall c, d <> Dataset row \/ c <> Kolom row ->
                   column df' c = column df c)).
  { intros df1 H1 H2. split; [eapply ds_set_names; eassumption|].
    intros d df Hd. destruct (String.eqb d (Dataset row)) eqn:E.
    - apply String.eqb_eq in E. subst d. rewrite Hd0 in Hd. injection Hd as <-.
      exists df1. split; [eapply DataQualityLemmas.ds_get_set_same; eassumption|].
      split; [assumption|]. intros c [Hne|Hne]; [contradiction | now apply H2].
    - apply String.eqb_neq in E. exists df.
      rewrite DataQualityLemmas.ds_get_set_other by assumption. auto. }
  destruct (Qle_bool (Persentase_Null_Values row) drop_null_threshold); cbn [negb].
  - destruct (column df0 (Kolom row)) as [s|] eqn:Hc.
    + unfold on_dataset.
      destruct (impute_value (Kolom row) (method_for s) (Dataset row) (df0, logger self))
        as [r1 [df1 lg1]] eqn:Himp.
      intros [= <- <-]. cbn [datasets].
      destruct (impute_value_frame _ _ _ _ _ _ _ _ (method_for_known s) Himp)
        as [->|[s0 [s' [_ ->]]]].
      * apply Hnew; auto.
      * apply Hnew.
        -- intros c Hn. rewrite column_set_other; [assumption|]. congruence.
        -- intros c Hne. now apply column_set_other.
    + unfold log. intros [= <- <-]. exact Hsame.
  - destruct (has_column df0 (Kolom row)).
    + unfold bind, set_dataset, log. intros [= <- <-]. cbn [datasets logger].
      apply Hnew.
      * intros c Hn. rewrite column_drop. now destruct (String.eqb (Kolom row) c).
      * intros c Hne. rewrite column_drop.
        destruct (String.eqb (Kolom row) c) eqn:E; [|reflexivity].
        apply String.eqb_eq in E. congruence.
    + unfold log. intros [= <- <-]. exact Hsame.
Qed.

Lemma handle_null_values_reach null_values_df drop_null_threshold :
  forall self r self',
  handle_null_values null_values_df drop_null_threshold self = (r, self') ->
  map fst (datasets self') = map fst (datasets self) /\
  forall d df, ds_get (datasets self) d = Some df ->
    exists df', ds_get (datasets self') d = Some df' /\
      (forall c, column df c = None -> column df' c = None) /\
      (forall c, (forall row, In row null_values_df -> Dataset row = d ->
                    Kolom row <> c) ->
         column df' c = column df c).
Proof.
  unfold handle_null_values.
  induction null_values_df as [|row rows IH]; intros self r self' Hrun; simpl in Hrun.
  - injection Hrun as <- <-. split; [reflexivity|]. intros d df Hd. exists df. auto.
  - unfold bind at 1 in Hrun.
    destruct (handle_null_row drop_null_threshold row self) as [[[]|e] self1] eqn:Hstep;
      destruct (handle_null_row_reach _ _ _ _ _ Hstep) as [Hn1 H1].
    + destruct (IH _ _ _ Hrun) as [Hn2 H2]. split; [congruence|].
      intros d df Hd. destruct (H1 d df Hd) as [df1 [Hd1 [N1 K1]]].
      destruct (H2 d df1 Hd1) as [df2 [Hd2 [N2 K2]]].
      exists df2. split; [assumption|]. split; [auto|].
      intros c Hc. rewrite K2; [apply K1 | intros r0 Hin; apply Hc; now right].
      destruct (string_dec d (Dataset row)) as [->|Hne]; [|now left].
      right. intros ->. now apply (Hc row (or_introl eq_refl) eq_refl).
    + injection Hrun as <- <-. split; [assumption|].
      intros d df Hd. destruct (H1 d df Hd) as [df1 [Hd1 [N1 K1]]].
      exists df1. split; [assumption|]. split; [assumption|].
      intros c Hc. apply K1.
      destruct (string_dec d (Dataset row)) as [->|Hne]; [|now left].
      right. intros ->. now apply (Hc row (or_introl eq_refl) eq_refl).
Qed.

(** [handle_null_values], however it ends, stays within its report: no
    dataset is added or removed, no frame gets a column that it did not
    have, and a column that no row of the report names under its dataset
    is left as it was. *)
Theorem handle_null_values_stays_within_report
    null_values_df drop_null_threshold self r self' :
  handle_null_values null_values_df drop_null_threshold self = (r, self') ->
  map fst (datasets self') = map fst (datasets self) /\
  forall d df, ds_get (datasets self) d = Some df ->
    exists df', ds_get (datasets self') d = Some df' /\
      (forall c, column df c = None -> column df' c = None) /\
      (forall c, (forall row, In row null_values_df -> Dataset row = d ->
                    Kolom row <> c) ->
         column df' c = column df c).
Proof. apply handle_null_values_reach. Qed.

End NullProperties.

Section NullWitnesses.

Import DataQuality NullTerms.
#[local] Existing Instance Ideal.numerics.

Lemma impute_value_errors_witness :
  impute_value "age" "interpolate" "bbc_df" (age_frame, [])
  = (Raise (AttributeError "dt"),
     (set_column age_frame "age" (interpolate (SFloat [Some (1 # 1)%Q; None;
                                                        Some (3 # 1)%Q; Some (8 # 1)%Q])),
      [])).
Proof.
  pose proof (impute_value_errors "age" "interpolate" "bbc_df" age_frame [] _ _
                (or_intror (or_intror (or_intror (or_introl eq_refl)))) eq_refl) as H.
  destruct H as [[[H|H] _]|[[H _]|[_ [He [_ Hst]]]]]; try discriminate H.
  exact (f_equal2 (fun e st => (@Raise unit e, st)) He Hst).
Defined.

Lemma filling_keeps_present_values_witness :
  exists s',
    column (fst (snd (impute_value "section" "mean" "bbc_df" (blank_frame, []))))
           "section" = Some s' /\
    dtype s' = "float64" /\ List.length (cells s') = 2.
Proof.
  destruct (filling_keeps_present_values "section" "mean" "bbc_df" blank_frame []
              (fst (snd (impute_value "section" "mean" "bbc_df" (blank_frame, []))))
              (snd (snd (impute_value "section" "mean" "bbc_df" (blank_frame, []))))
              (or_introl eq_refl) eq_refl)
    as [s [s' [Hs [Hs' [_ [_ [Hd [_ [Hl _]]]]]]]]].
  injection Hs as <-. exists s'. split; [exact Hs'|]. split; [exact Hd | exact Hl].
Defined.

(** The mode of the titles fills the missing title and keeps the type. *)
Example titles_filled_by_mode :
  column (fst (snd (impute_value "title" "mode" "bbc_df" (titles_frame, [])))) "title"
  = Some (SObj [Some "a"; Some "a"; Some "a"; Some "b"]).
Proof. reflexivity. Qed.

Lemma interpolate_floors_every_value_witness :
  let df' := fst (snd (impute_value "read_at" "interpolate" "bbc_df"
                         (titles_frame, []))) in
  exists xs xs',
    column titles_frame "read_at" = Some (STime xs) /\
    column df' "read_at" = Some (STime xs') /\
    List.length xs' = List.length xs /\
    (forall i ns, nth i xs None = Some ns -> nth i xs' None = Some (floor_s ns)) /\
    (forall i ns', nth i xs' None = Some ns' -> (ns' mod 1000000000 = 0)%Z) /\
    (forall i, i < List.length xs -> nth i xs' None = None ->
       forall j, j <= i -> nth j xs None = None).
Proof.
  exact (interpolate_floors_every_value "read_at" "bbc_df" titles_frame [] _ _ eq_refl).
Defined.

Example read_at_floored :
  column (fst (snd (impute_value "read_at" "interpolate" "bbc_df" (titles_frame, []))))
         "read_at"
  = Some (STime [Some 1000000000%Z; Some 2000000000%Z; Some 3000000000%Z;
                 Some 3000000000%Z]).
Proof. reflexivity. Qed.

Lemma handle_null_values_raises_key_error_witness :
  fst (handle_null_values blank_report (100 # 1)%Q (with_dataset blank_frame))
  = Raise (KeyError "0").
Proof.
  exact (f_equal (@Raise unit)
           (proj1 (handle_null_values_raises_key_error blank_report (100 # 1)%Q
                     (with_dataset blank_frame) _ _ eq_refl))).
Defined.

Lemma handle_null_values_stays_within_report_witness :
  let self' := snd (handle_null_values titles_report (50 # 1)%Q
                      (with_dataset titles_frame)) in
  exists df',
    ds_get (datasets self') "bbc_df" = Some df' /\
    column df' "read_at" = column titles_frame "read_at".
Proof.
  destruct (proj2 (handle_null_values_stays_within_report titles_report (50 # 1)%Q
                     (with_dataset titles_frame) _ _ eq_refl)
              "bbc_df" titles_frame eq_refl) as [df' [Hd [_ K]]].
  exists df'. split; [exact Hd|].
  apply K. intros row [<-|[]] _. discriminate.
Defined.

End NullWitnesses.

(** ** Types and ranges *)

Section ValidationProperties.

Import DataQuality.
Context {T : Dtypes}.

(** Every row of the validation report is about a column that some dataset
    has and that one of the two dictionaries lists. A type row passes
    exactly when the type of the column and the expected one are equal
    as numpy compares them, so under each spelling of the type; a
    range row is written for a numeric column only. A column that the
    dictionaries list and no dataset has gets no row: its absence is not
    reported. *)
Theorem validation_rows_are_about_columns self expected_types value_ranges r :
  In r (validate_data_types_and_ranges self expected_types value_ranges) ->
  exists df s,
    In (vDataset r, df) (datasets self) /\ In (vColumn r, s) df /\
    match vCheck r with
    | Data_Type =>
        exists expected_type,
          lookup expected_types (vColumn r) = Some expected_type /\
          vExpected r = TypeName expected_type /\ vActual r = TypeName (dtype s) /\
          (vStatus r = Pass <-> dtype_equal (dtype s) expected_type = true)
    | Value_Range =>
        is_numeric_dtype s = true /\
        exists min_val max_val,
          lookup value_ranges (vColumn r) = Some (min_val, max_val) /\
          vExpected r = Range min_val max_val /\
          (vStatus r = Pass <-> all_in_range min_val max_val s = true)
    end.
Proof.
  unfold validate_data_types_and_ranges. intros Hr.
  apply in_flat_map in Hr as [[name df] [Hin Hr]]. cbn [fst snd] in Hr.
  apply in_flat_map in Hr as [[c s] [Hc Hr]].
  exists df, s. unfold validate_column in Hr. apply in_app_or in Hr as [Hr|Hr].
  - destruct (lookup expected_types c) as [expected_type|] eqn:Hl; [|destruct Hr].
    destruct Hr as [<-|[]]. cbn. split; [assumption|]. split; [assumption|].
    exists expected_type. repeat split; auto.
    + intros H. destruct (dtype_equal (dtype s) expected_type);
        [reflexivity | discriminate].
    + intros ->. reflexivity.
  - destruct (lookup value_ranges c) as [[min_val max_val]|] eqn:Hl; [|destruct Hr].
    destruct (is_numeric_dtype s) eqn:Hn; [|destruct Hr].
    destruct (all_in_range min_val max_val s) eqn:Ha; destruct Hr as [<-|[]]; cbn;
      (split; [assumption|]); (split; [assumption|]); (split; [reflexivity|]);
      exists min_val, max_val; repeat split; auto; intros; congruence.
Qed.

(** Every column of a dataset that [expected_types] lists has its type row
    in the report, whatever the column holds: the row passes when the
    type of the column and the listed one are equal as numpy compares
    them, and fails otherwise. *)
Theorem listed_column_has_type_row self expected_types value_ranges name df c s t :
  In (name, df) (datasets self) -> In (c, s) df ->
  lookup expected_types c = Some t ->
  In {| vDataset := name; vColumn := c; vCheck := Data_Type;
        vExpected := TypeName t; vActual := TypeName (dtype s);
        vStatus := if dtype_equal (dtype s) t then Pass else Fail |}
     (validate_data_types_and_ranges self expected_types value_ranges).
Proof.
  intros Hd Hc Hl. unfold validate_data_types_and_ranges.
  apply in_flat_map. exists (name, df). split; [assumption|]. cbn [fst snd].
  apply in_flat_map. exists (c, s). split; [assumption|].
  unfold validate_column. apply in_or_app. left. rewrite Hl. now left.
Qed.

End ValidationProperties.

Lemma validation_rows_are_about_columns_witness :
  exists df s,
    In ("bbc_df", df) (DataQuality.datasets (with_dataset year_frame)) /\
    In ("year", s) df /\
    exists expected_type,
      DataQuality.lookup [("year", "float"); ("day", "int64")] "year"
      = Some expected_type /\
      DataQuality.TypeName "float" = DataQuality.TypeName expected_type /\
      DataQuality.TypeName "float64" = DataQuality.TypeName (dtype s) /\
      (DataQuality.Pass = DataQuality.Pass <->
       Spelled.dtype_equal (dtype s) expected_type = true).
Proof.
  exact (validation_rows_are_about_columns (T := Spelled.dtypes)
           (with_dataset year_frame)
           [("year", "float"); ("day", "int64")] []
           {| DataQuality.vDataset := "bbc_df"; DataQuality.vColumn := "year";
              DataQuality.vCheck := DataQuality.Data_Type;
              DataQuality.vExpected := DataQuality.TypeName "float";
              DataQuality.vActual := DataQuality.TypeName "float64";
              DataQuality.vStatus := DataQuality.Pass |}
           (or_introl eq_refl)).
Defined.

Lemma listed_column_has_type_row_witness :
  In {| DataQuality.vDataset := "bbc_df"; DataQuality.vColumn := "year";
        DataQuality.vCheck := DataQuality.Data_Type;
        DataQuality.vExpected := DataQuality.TypeName "int";
        DataQuality.vActual := DataQuality.TypeName "float64";
        DataQuality.vStatus := DataQuality.Fail |}
     (DataQuality.validate_data_types_and_ranges (T := Spelled.dtypes)
        (with_dataset year_frame) [("year", "int")] []).
Proof.
  exact (listed_column_has_type_row (T := Spelled.dtypes) (with_dataset year_frame)
           [("year", "int")] []
           "bbc_df" year_frame "year" (SFloat [Some (2000 # 1)%Q; None]) "int"
           (or_introl eq_refl) (or_introl eq_refl) eq_refl).
Defined.

(** A type has more than one spelling: a column of integers passes under
    [int64] and under [int]. *)
Example spelled_types_pass :
  map DataQuality.vStatus
    (DataQuality.validate_data_types_and_ranges (T := Spelled.dtypes)
       (with_dataset [("year", SInt [2024%Z]); ("title", SObj [Some "a"])])
       [("year", "int"); ("title", "O")] [])
  = [DataQuality.Pass; DataQuality.Pass].
Proof. reflexivity. Qed.

(** ** The pipeline *)

Section PipelineProperties.

Import Main.
Context {D : Load.Dates}.

Lemma load_facts_returns data l :
  exists b l', Load.load_to_fact_table data l = (Ok b, l').
Proof.
  destruct (LoadLemmas.load_facts_spec data l) as [b [lg H]]. eauto.
Qed.

(** The part of [run] before the load, by its endings. *)
Lemma prepare_cases env w r w1 :
  prepare env w = (r, w1) ->
  match r with
  | inl _ =>
      load_config_ok env = true /\ connect_ok env = true /\ extract_data env = true /\
      calls w1 = calls w ++ [Connect] /\ conn w1 = Opened
  | inr (SysExit code) =>
      code = 1%Z /\
      ((load_config_ok env = false /\ calls w1 = calls w /\ conn w1 = conn w) \/
       (load_config_ok env = true /\ connect_ok env = false /\
        calls w1 = calls w ++ [Connect] /\ conn w1 = conn w) \/
       (load_config_ok env = true /\ connect_ok env = true /\
        (extract_data env = false \/ process_data env = None) /\
        calls w1 = calls w ++ [Connect; Close] /\
        conn w1 = if close_ok env then Closed else Opened))
  | inr (Uncaught e) =>
      load_config_ok env = true /\ connect_ok env = true /\ extract_data env = true /\
      (exists data, process_data env = Some data /\
         ((transform_data env data = None /\ e = AttributeError "to_parquet") \/
          (transform_data env data <> None /\ to_parquet_ok env = false /\
           e = OSError))) /\
      calls w1 = calls w ++ [Connect] /\ conn w1 = Opened
  | inr Returned => False
  end.
Proof.
  unfold prepare, load_config, initialize_db_connection, close_db_connection,
    pbind, log, called, set_conn, sys_exit, uncaught, pret.
  destruct (load_config_ok env), (connect_ok env), (extract_data env),
    (close_ok env), (process_data env) as [data|] eqn:Hp;
    try destruct (transform_data env data) eqn:Ht;
    try destruct (to_parquet_ok env);
    cbn; intros [= <- <-]; cbn; rewrite <- ?app_assoc; cbn;
    try (split; [reflexivity|]); auto 10.
  all: repeat split; try reflexivity.
  all: exists data; split; [reflexivity|]; rewrite Ht; auto; right;
       repeat split; congruence.
Qed.

(** The load of [run], by its endings. *)
Lemma load_cases env data w r w' :
  load env data w = (r, w') ->
  match r with
  | inl _ =>
      close_ok env = true /\
      fst (Load.load_to_dimension_tables data (loader w)) = Ok true /\
      calls w' = calls w ++ [LoadDimensions; LoadFacts; Close] /\ conn w' = Closed
  | inr (SysExit code) =>
      code = 1%Z /\
      (calls w' = calls w ++ [LoadDimensions; Close] \/
       calls w' = calls w ++ [LoadDimensions; LoadFacts; Close]) /\
      conn w' = (if close_ok env then Closed else conn w)
  | inr _ => False
  end.
Proof.
  unfold load. unfold pbind at 1. unfold pbind at 1, called at 1, on_loader at 1.
  cbn [loader conn calls logger].
  destruct (load_dimensions_returns data (loader w)) as [b [l1 [Hd _]]].
  rewrite Hd. destruct b.
  2:{ unfold close_db_connection, pbind, called, log, set_conn, sys_exit, pret.
      destruct (close_ok env); cbn; intros [= <- <-]; cbn; rewrite <- ?app_assoc;
        auto. }
  unfold pbind at 1, pret at 1. unfold pbind at 1.
  unfold pbind at 1, called at 1, on_loader at 1. cbn [loader conn calls logger].
  destruct (load_facts_returns data l1) as [b [l2 Hf]]. rewrite Hf.
  unfold close_db_connection, pbind, called, log, set_conn, sys_exit, pret.
  destruct b, (close_ok env); cbn; intros [= <- <-]; cbn; rewrite <- ?app_assoc;
    cbn; auto 10.
Qed.

(** [run] ends in one of three ways. It returns, after the four calls
    connect, dimension load, fact load and close, the connection closed. It
    leaves through [sys.exit], and the status is 1. Or an exception that
    nothing catches leaves it, from [to_parquet] on the result of
    [transform_data]: the connection has been opened and [close] is not
    called on it. *)
Theorem run_endings env w r w' :
  run env w = (r, w') ->
  match r with
  | inl _ =>
      calls w' = calls w ++ [Connect; LoadDimensions; LoadFacts; Close] /\
      conn w' = Closed
  | inr (SysExit code) =>
      code = 1%Z /\
      (calls w' = calls w \/ calls w' = calls w ++ [Connect] \/
       exists loads, calls w' = calls w ++ Connect :: loads ++ [Close] /\
                     (loads = [] \/ loads = [LoadDimensions] \/
                      loads = [LoadDimensions; LoadFacts]))
  | inr (Uncaught e) =>
      (e = OSError \/ e = AttributeError "to_parquet") /\
      calls w' = calls w ++ [Connect] /\ conn w' = Opened
  | inr Returned => False
  end.
Proof.
  unfold run, pbind. destruct (prepare env w) as [[data|e] w1] eqn:Hp;
    apply prepare_cases in Hp.
  - destruct Hp as [_ [_ [_ [Hc Hconn]]]]. intros Hl. apply load_cases in Hl.
    destruct r as [[]|[|code|e]]; try contradiction.
    + destruct Hl as [_ [_ [-> ->]]]. rewrite Hc, <- app_assoc. auto.
    + destruct Hl as [-> [Hl _]]. split; [reflexivity|]. right. right.
      destruct Hl as [->| ->]; rewrite Hc, <- app_assoc.
      * exists [LoadDimensions]. auto.
      * exists [LoadDimensions; LoadFacts]. auto.
  - intros [= <- <-]. destruct e as [|code|e]; [assumption| |].
    + destruct Hp as [-> Hp]. split; [reflexivity|].
      destruct Hp as [[_ [-> _]]|[[_ [_ [-> _]]]|[_ [_ [_ [-> _]]]]]]; auto.
      right. right. exists []. auto.
    + destruct Hp as [_ [_ [_ [[data [_ He]] [-> ->]]]]]. split; [|auto].
      destruct He as [[_ ->]|[_ [_ ->]]]; auto.
Qed.

(** When [transform_data] returns [None], [run] does not stop in order:
    the attribute [to_parquet] of [None] is asked for, the exception leaves
    [run], nothing is loaded and the connection stays open. *)
Theorem failed_transformation_leaves_connection_open env w data :
  load_config_ok env = true -> connect_ok env = true -> extract_data env = true ->
  process_data env = Some data -> transform_data env data = None ->
  exists w',
    run env w = (inr (Uncaught (AttributeError "to_parquet")), w') /\
    calls w' = calls w ++ [Connect] /\ conn w' = Opened /\
    loader w' = loader w /\
    logger w' = logger w ++ [(INFO, MsgConfigLoaded); (INFO, MsgConnectionOpened)].
Proof.
  intros H1 H2 H3 H4 H5.
  unfold run, prepare, load_config, initialize_db_connection, pbind, log, called,
    set_conn, uncaught, pret.
  rewrite H1, H2, H3, H4, H5. cbn. eexists. split; [reflexivity|]. cbn.
  rewrite <- app_assoc. auto.
Qed.

End PipelineProperties.

Section PipelineWitnesses.

Import Main PipelineTerms.
#[local] Existing Instance Load.Strict.dates.

Lemma run_endings_witness :
  let w' := snd (run untransformed_env start) in
  (AttributeError "to_parquet" = OSError \/
   AttributeError "to_parquet" = AttributeError "to_parquet") /\
  calls w' = calls start ++ [Connect] /\ conn w' = Opened.
Proof.
  exact (run_endings untransformed_env start _ _ eq_refl).
Defined.

Lemma failed_transformation_leaves_connection_open_witness :
  exists w',
    run untransformed_env start = (inr (Uncaught (AttributeError "to_parquet")), w') /\
    calls w' = calls start ++ [Connect] /\ conn w' = Opened /\
    loader w' = loader start /\
    logger w' = logger start ++ [(INFO, MsgConfigLoaded); (INFO, MsgConnectionOpened)].
Proof.
  exact (failed_transformation_leaves_connection_open untransformed_env start
           DataQualityTerms.nameless_frame eq_refl eq_refl eq_refl eq_refl eq_refl).
Defined.

End PipelineWitnesses.

(** ** The transformation and its frames *)

Section TransformProperties.

Import DataQualityTerms NullTerms Transform.
Context {N : Numerics} {F : Frames} {T : Dtypes}.

Lemma update_length {A} (l : list A) : forall i x,
  List.length (update l i x) = List.length l.
Proof. induction l as [|y l IH]; intros [|i] x; simpl; auto. Qed.

Lemma update_same {A} (l : list A) : forall i x d,
  i < List.length l -> nth i (update l i x) d = x.
Proof.
  induction l as [|y l IH]; intros [|i] x d H; simpl in *; try lia; auto.
  apply IH. lia.
Qed.

Lemma update_other {A} (l : list A) : forall i x a d,
  a <> i -> nth a (update l i x) d = nth a l d.
Proof.
  induction l as [|y l IH]; intros [|i] x [|a] d H; simpl; auto; try contradiction.
Qed.

(** *** The conversion of the date columns *)

Lemma set_column_rectangular df c s s' :
  rectangular df -> column df c = Some s ->
  List.length (cells s') = List.length (cells s) ->
  rectangular (set_column df c s') /\ nrows (set_column df c s') = nrows df.
Proof.
  intros Hrect Hc Hlen.
  assert (Hn : nrows (set_column df c s') = nrows df).
  { destruct df as [|[n s0] df]; simpl in *; [discriminate|].
    destruct (String.eqb c n); simpl; [|reflexivity].
    injection Hc as ->. exact Hlen. }
  split; [|exact Hn].
  intros c0 s0 Hin. rewrite Hn.
  assert (H : In (c0, s0) df \/ s0 = s').
  { clear -Hin. induction df as [|[n s1] df IH]; simpl in Hin.
    - destruct Hin as [[= <- <-]|[]]. now right.
    - destruct (String.eqb c n); destruct Hin as [Hin|Hin].
      + injection Hin as <- <-. now right.
      + left. now right.
      + left. now left.
      + destruct (IH Hin) as [H|H]; [left; now right | now right]. }
  destruct H as [H| ->]; [eapply Hrect; eassumption|].
  rewrite Hlen. eapply Hrect, column_In; eassumption.
Qed.

(** The loop of [_convert_to_datetime] over the columns that it has
    listed. *)
Lemma convert_loop cols : forall df,
  NoDup cols ->
  let df' := fold_left (fun df col =>
                          match column df col with
                          | Some s => set_column df col (STime (to_datetime s))
                          | None => df
                          end) cols df in
  columns df' = columns df /\
  (forall c, column df' c
             = if existsb (String.eqb c) cols
               then option_map (fun s => STime (to_datetime s)) (column df c)
               else column df c) /\
  (keeps_length -> rectangular df -> rectangular df' /\ nrows df' = nrows df).
Proof.
  induction cols as [|col cols IH]; intros df Hnd; cbn zeta.
  - simpl. repeat split; auto.
  - inversion Hnd as [|? ? Hnotin Hnd']; subst. simpl fold_left.
    destruct (column df col) as [s|] eqn:Hc.
    + destruct (IH (set_column df col (STime (to_datetime s))) Hnd') as [H1 [H2 H3]].
      split; [|split].
      * rewrite H1. eapply columns_set_column; eassumption.
      * intros c. rewrite H2. simpl existsb.
        destruct (String.eqb c col) eqn:E.
        -- apply String.eqb_eq in E. subst c.
           replace (existsb (String.eqb col) cols) with false.
           ++ now rewrite column_set_same, Hc.
           ++ symmetry. apply not_true_is_false. intros H.
              apply existsb_exists in H as [x [Hx Heq]].
              apply String.eqb_eq in Heq. now subst x.
        -- apply String.eqb_neq in E. simpl. now rewrite column_set_other.
      * intros Hk Hrect.
        destruct (set_column_rectangular df col s (STime (to_datetime s)) Hrect Hc)
          as [Hr Hn].
        { simpl. rewrite length_map. apply Hk. }
        destruct (H3 Hk Hr) as [Hr' Hn']. split; [assumption | congruence].
    + destruct (IH df Hnd') as [H1 [H2 H3]]. split; [assumption|]. split; [|assumption].
      intros c. rewrite H2. simpl existsb.
      destruct (String.eqb c col) eqn:E; [|reflexivity].
      apply String.eqb_eq in E. subst c. rewrite Hc. simpl.
      now destruct (existsb (String.eqb col) cols).
Qed.

Lemma NoDup_filter {A} (p : A -> bool) l : NoDup l -> NoDup (filter p l).
Proof.
  induction 1 as [|x l Hx _ IH]; simpl; [constructor|].
  destruct (p x); [|assumption]. constructor; [|assumption].
  intros H. apply filter_In in H. tauto.
Qed.

Lemma column_columns df c s : column df c = Some s -> In c (columns df).
Proof.
  intros H. apply column_In in H. unfold columns. apply in_map_iff.
  now exists (c, s).
Qed.

Lemma convert_to_datetime_spec df :
  NoDup (columns df) ->
  columns (convert_to_datetime df) = columns df /\
  (forall c s, column df c = Some s ->
     column (convert_to_datetime df) c
     = Some (if is_date_column c then STime (to_datetime s) else s)) /\
  (forall c, column df c = None -> column (convert_to_datetime df) c = None) /\
  (keeps_length -> rectangular df ->
   rectangular (convert_to_datetime df) /\ nrows (convert_to_datetime df) = nrows df).
Proof.
  intros Hnd. unfold convert_to_datetime.
  destruct (convert_loop (filter is_date_column (columns df)) df
              (NoDup_filter _ _ Hnd)) as [H1 [H2 H3]].
  cbn zeta in *. split; [assumption|]. split; [|split; [|assumption]].
  - intros c s Hc. rewrite H2, Hc. simpl.
    destruct (is_date_column c) eqn:Hd.
    + replace (existsb (String.eqb c) (filter is_date_column (columns df))) with true;
        [reflexivity|].
      symmetry. apply existsb_exists. exists c. split; [|apply String.eqb_refl].
      apply filter_In. split; [eapply column_columns; eassumption | assumption].
    + replace (existsb (String.eqb c) (filter is_date_column (columns df))) with false;
        [reflexivity|].
      symmetry. apply not_true_is_false. intros H.
      apply existsb_exists in H as [x [Hx Heq]]. apply String.eqb_eq in Heq. subst x.
      apply filter_In in Hx. destruct Hx as [_ Hx]. congruence.
  - intros c Hc. rewrite H2, Hc. now destruct (existsb _ _).
Qed.

(** *** The null report *)

Lemma flat_map_ext_in {A B} (f g : A -> list B) l :
  (forall a, In a l -> f a = g a) -> flat_map f l = flat_map g l.
Proof.
  induction l as [|x l IH]; intros H; simpl; [reflexivity|].
  rewrite (H x (or_introl eq_refl)), IH; [reflexivity|].
  intros a Ha. apply H. now right.
Qed.

Lemma check_null_values_loop_spec items : forall combined self,
  NoDup (map snd items) ->
  (forall item, In item items -> snd item < List.length (frames self)) ->
  exists self',
    check_null_values_loop items combined self
    = (Ok (combined
           ++ flat_map (fun item =>
                          null_rows (fst item)
                            (convert_to_datetime (deref (frames self) (snd item))))
                       items),
       self') /\
    datasets self' = datasets self /\
    List.length (frames self') = List.length (frames self) /\
    (forall item, In item items ->
       deref (frames self') (snd item)
       = convert_to_datetime (deref (frames self) (snd item))) /\
    (forall a, ~ In a (map snd items) ->
       deref (frames self') a = deref (frames self) a).
Proof.
  induction items as [|[name a] items IH]; intros combined self Hnd Hin.
  - simpl. exists self. rewrite app_nil_r. repeat split; auto. intros item [].
  - inversion Hnd as [|? ? Ha Hnd']; subst.
    pose proof (Hin (name, a) (or_introl eq_refl)) as Hlt. cbn [snd] in Hlt.
    set (self1 := {| frames := update (frames self) a
                                 (convert_to_datetime (deref (frames self) a));
                     datasets := datasets self; logger := logger self |}).
    assert (Hsame : deref (frames self1) a
                    = convert_to_datetime (deref (frames self) a)).
    { unfold deref, self1. cbn [frames]. now apply update_same. }
    assert (Hother : forall b, b <> a ->
              deref (frames self1) b = deref (frames self) b).
    { intros b Hb. unfold deref, self1. cbn [frames]. now apply update_other. }
    assert (Hrest : forall combined1 lg,
              exists self',
                check_null_values_loop items combined1
                  {| frames := frames self1; datasets := datasets self1;
                     logger := lg |}
                = (Ok (combined1
                       ++ flat_map (fun item =>
                                      null_rows (fst item)
                                        (convert_to_datetime
                                           (deref (frames self) (snd item))))
                                   items),
                   self') /\
                datasets self' = datasets self /\
                List.length (frames self') = List.length (frames self) /\
                (forall item, In item ((name, a) :: items) ->
                   deref (frames self') (snd item)
                   = convert_to_datetime (deref (frames self) (snd item))) /\
                (forall b, ~ In b (map snd ((name, a) :: items)) ->
                   deref (frames self') b = deref (frames self) b)).
    { intros combined1 lg.
      destruct (IH combined1 {| frames := frames self1; datasets := datasets self1;
                                logger := lg |} Hnd')
        as [self' [Hrun [Hds [Hlen [Hconv Hkeep]]]]].
      { intros item Hitem. cbn [frames]. unfold self1. cbn [frames].
        rewrite update_length. apply Hin. now right. }
      cbn [frames datasets] in *.
      assert (Hitems : forall item, In item items -> snd item <> a).
      { intros item Hitem E. apply Ha. rewrite <- E. now apply in_map. }
      exists self'. split.
      - rewrite Hrun. f_equal. f_equal. f_equal. apply flat_map_ext_in.
        intros item Hitem. now rewrite Hother by now apply Hitems.
      - split; [assumption|]. split.
        + rewrite Hlen. unfold self1. cbn [frames]. apply update_length.
        + split.
          * intros item [<-|Hitem]; cbn [snd].
            -- rewrite Hkeep by assumption. exact Hsame.
            -- rewrite Hconv by assumption. now rewrite Hother by now apply Hitems.
          * intros b Hb. simpl in Hb. rewrite Hkeep by tauto.
            apply Hother. intros ->. tauto. }
    simpl check_null_values_loop. unfold bind at 1, modify_frame at 1.
    fold self1. unfold bind at 1, get_state at 1. rewrite Hsame.
    simpl flat_map. cbn [fst snd].
    destruct (null_rows name (convert_to_datetime (deref (frames self) a)))
      as [|row rows] eqn:Hrows.
    + destruct (Hrest combined (logger self1)) as [self' H]. exists self'.
      destruct self1; exact H.
    + unfold bind at 1, log at 1.
      destruct (Hrest (combined ++ row :: rows)
                  (logger self1 ++ [(INFO, MsgDatasetHasNulls name)]))
        as [self' [Hrun H]].
      exists self'. split; [|exact H]. rewrite Hrun. now rewrite <- app_assoc.
Qed.

(** [check_null_values] is not a check only. It converts, in the frame of
    each dataset, every column whose name holds [date] or [timestamp], and
    reports the nulls of the frame as it is after the conversion; it
    raises nothing, binds no name anew and writes to no other frame. *)
Theorem check_null_values_converts_in_place self :
  NoDup (map snd (datasets self)) ->
  (forall item, In item (datasets self) -> snd item < List.length (frames self)) ->
  exists self',
    check_null_values self
    = (Ok (flat_map (fun item =>
                       null_rows (fst item)
                         (convert_to_datetime (deref (frames self) (snd item))))
                    (datasets self)),
       self') /\
    datasets self' = datasets self /\
    List.length (frames self') = List.length (frames self) /\
    (forall item, In item (datasets self) ->
       deref (frames self') (snd item)
       = convert_to_datetime (deref (frames self) (snd item))) /\
    (forall a, ~ In a (map snd (datasets self)) ->
       deref (frames self') a = deref (frames self) a).
Proof.
  intros Hnd Hin. unfold check_null_values. unfold bind, get_state.
  exact (check_null_values_loop_spec (datasets self) [] self Hnd Hin).
Qed.

(** The conversion of [_convert_to_datetime] keeps the columns of the
    frame and their order. A column whose lower-cased name holds [date] or
    [timestamp] becomes a temporal column, whatever its type was; every
    other column is left as it is. *)
Theorem convert_to_datetime_by_name df :
  NoDup (columns df) ->
  columns (convert_to_datetime df) = columns df /\
  (forall c s, column df c = Some s ->
     column (convert_to_datetime df) c
     = Some (if is_date_column c then STime (to_datetime s) else s)) /\
  (forall c, column df c = None -> column (convert_to_datetime df) c = None) /\
  (keeps_length -> rectangular df ->
   rectangular (convert_to_datetime df) /\ nrows (convert_to_datetime df) = nrows df).
Proof. apply convert_to_datetime_spec. Qed.

Example updated_is_a_date_column :
  is_date_column "updated" = true /\ is_date_column "Published_Date" = true /\
  is_date_column "TIMESTAMP" = true /\ is_date_column "title" = false.
Proof. repeat split; reflexivity. Qed.

(** *** What [transform_data] returns *)

Lemma NoDup_singleton {A} (x : A) l :
  NoDup l -> In x l -> (forall y, In y l -> y = x) -> l = [x].
Proof.
  intros Hnd Hin Hall. destruct l as [|a l]; [destruct Hin|].
  assert (a = x) by (apply Hall; now left). subst a.
  destruct l as [|b l]; [reflexivity|]. exfalso.
  assert (b = x) by (apply Hall; right; now left). subst b.
  inversion Hnd as [|? ? Hx _]; subst. apply Hx. now left.
Qed.

(** The first step: the names that the report of [check_duplicates] gives
    to [handle_duplicates]. *)
Lemma reading_check_duplicates data :
  exists r lg,
    reading DataQuality.check_duplicates (held data)
    = (r, {| frames := [data]; datasets := [("bbc_df", 0)]; logger := lg |}) /\
    match r with
    | Ok rep =>
        ungroupable data = false /\
        existsb (String.eqb "Dataset") (report_columns rep) = true /\
        unique (map (fun r => get r "Dataset") (report_rows rep))
        = if has_duplicates data then [VStr "bbc_df"] else []
    | Raise e => e = IndexError /\ ungroupable data = true
    end.
Proof.
  unfold reading.
  change (view (held data)) with (with_dataset data).
  destruct (check_duplicates_full (with_dataset data)) as [r [Hrun Hr]].
  rewrite Hrun. exists r. eexists. split; [reflexivity|].
  cbn [with_dataset DataQuality.datasets existsb snd] in Hr.
  rewrite orb_false_r in Hr.
  destruct r as [rep|e]; [|exact Hr]. destruct Hr as [Hnone [Hlen Hcol]].
  split; [exact Hnone|]. split.
  - apply existsb_exists. exists "Dataset". split; [assumption | apply String.eqb_refl].
  - unfold DataQuality.check_duplicates in Hrun. unfold bind, get_state in Hrun.
    destruct (DataQualityLemmas.check_duplicates_loop_spec
                (DataQuality.datasets (with_dataset data))
                {| report_columns := ["Dataset"]; report_rows := [] |}
                (with_dataset data))
      as [r' [lg' [Hrun' Hr']]].
    rewrite Hrun in Hrun'. injection Hrun' as <- _. destruct Hr' as [_ [Hrows _]].
    destruct (has_duplicates data) eqn:Hd.
    + apply NoDup_singleton.
      * apply DataQualityLemmas.unique_NoDup.
      * apply DataQualityLemmas.unique_In_VStr, Hrows. right.
        exists "bbc_df", data. split; [now left | auto].
      * intros y Hy. unfold unique in Hy. apply select_In in Hy.
        apply Hrows in Hy as [[]|[name [df [[[= <- <-]|[]] [_ ->]]]]]. reflexivity.
    + cbn [with_dataset DataQuality.datasets total_duplicates fold_right snd] in Hlen.
      unfold has_duplicates in Hd. apply Nat.ltb_ge in Hd.
      destruct (report_rows rep); [reflexivity | simpl in Hlen; lia].
Qed.

Lemma check_null_values_single fr a lg :
  a < List.length fr ->
  exists lg',
    check_null_values {| frames := fr; datasets := [("bbc_df", a)]; logger := lg |}
    = (Ok (null_rows "bbc_df" (convert_to_datetime (deref fr a))),
       {| frames := update fr a (convert_to_datetime (deref fr a));
          datasets := [("bbc_df", a)]; logger := lg' |}).
Proof.
  intros Ha. unfold check_null_values. unfold bind at 1, get_state at 1.
  cbn [datasets]. simpl check_null_values_loop.
  unfold bind at 1, modify_frame at 1. unfold bind at 1, get_state at 1.
  cbn [frames datasets logger].
  replace (deref (update fr a (convert_to_datetime (deref fr a))) a)
    with (convert_to_datetime (deref fr a))
    by (unfold deref; now rewrite update_same).
  destruct (null_rows "bbc_df" (convert_to_datetime (deref fr a))) as [|row rows].
  - eexists. reflexivity.
  - unfold bind, log, ret. cbn [frames datasets logger]. eexists. reflexivity.
Qed.

Lemma update_update {A} (l : list A) : forall i x y,
  update (update l i x) i y = update l i y.
Proof. induction l as [|z l IH]; intros [|i] x y; simpl; auto. now rewrite IH. Qed.

(** The null step on the one dataset, bound to the address [a]. *)
Lemma null_step_single fr a lg :
  a < List.length fr ->
  match cleaned (deref fr a) with
  | Ok df =>
      exists lg',
        (null_values_df <- check_null_values ;;
         in_place (DataQuality.handle_null_values null_values_df (25 # 1)%Q))
          {| frames := fr; datasets := [("bbc_df", a)]; logger := lg |}
        = (Ok tt, {| frames := update fr a df; datasets := [("bbc_df", a)];
                     logger := lg' |})
  | Raise e =>
      exists self',
        (null_values_df <- check_null_values ;;
         in_place (DataQuality.handle_null_values null_values_df (25 # 1)%Q))
          {| frames := fr; datasets := [("bbc_df", a)]; logger := lg |}
        = (Raise e, self')
  end.
Proof.
  intros Ha. destruct (check_null_values_single fr a lg Ha) as [lg1 Hchk].
  unfold bind at 1. unfold bind at 1. rewrite Hchk. unfold in_place, cleaned.
  set (converted := convert_to_datetime (deref fr a)).
  replace (view {| frames := update fr a converted; datasets := [("bbc_df", a)];
                   logger := lg1 |})
    with (with_dataset converted).
  2:{ unfold view, with_dataset. cbn [frames datasets map fst snd].
      unfold deref. now rewrite update_same. }
  destruct (DataQuality.handle_null_values (null_rows "bbc_df" converted) (25 # 1)%Q
              (with_dataset converted)) as [[[]|e] v] eqn:Hrun.
  - cbn [frames datasets logger]. unfold write_back. cbn [fold_left fst snd].
    destruct (ds_get (DataQuality.datasets v) "bbc_df") as [df|].
    + eexists. rewrite update_update. reflexivity.
    + eexists. unfold converted at 2.
      rewrite <- (update_update fr a converted converted) at 1.
      fold converted. rewrite update_update. reflexivity.
  - eexists. reflexivity.
Qed.

(** Lines 101-116 on the one dataset, bound to the address [a]. *)
Lemma null_and_validation_single fr a lg :
  a < List.length fr ->
  let rest :=
    (null_values_df <- check_null_values ;;
     in_place (DataQuality.handle_null_values null_values_df (25 # 1)%Q) ;;;
     self <- get_state ;;
     log INFO (MsgValidation
                 (DataQuality.validate_data_types_and_ranges (view self)
                    expected_data_types value_ranges)))
      {| frames := fr; datasets := [("bbc_df", a)]; logger := lg |} in
  match cleaned (deref fr a) with
  | Ok df => exists lg', rest = (Ok tt, {| frames := update fr a df;
                                           datasets := [("bbc_df", a)];
                                           logger := lg' |})
  | Raise e => exists self', rest = (Raise e, self')
  end.
Proof.
  intros Ha. cbv zeta. pose proof (null_step_single fr a lg Ha) as H.
  revert H. unfold bind.
  destruct (check_null_values {| frames := fr; datasets := [("bbc_df", a)];
                                 logger := lg |}) as [[rows|e0] s1].
  - destruct (in_place (DataQuality.handle_null_values rows (25 # 1)%Q) s1)
      as [[[]|e1] s2];
      destruct (cleaned (deref fr a)) as [df|e]; intros [x H]; try discriminate.
    + injection H as ->. unfold get_state, log. cbn [frames datasets logger].
      eexists. reflexivity.
    + injection H as -> ->. eexists. reflexivity.
  - destruct (cleaned (deref fr a)) as [df|e]; intros [x H]; [discriminate|].
    injection H as -> ->. eexists. reflexivity.
Qed.

Lemma transform_data_cases data :
  fst (transform_data data)
  = if has_duplicates data then
      if ungrouped data then None
      else
        match drop_duplicates data "url" with
        | Ok unique_rows =>
            match cleaned unique_rows with
            | Ok _ => Some data
            | Raise _ => None
            end
        | Raise _ => None
        end
    else
      match cleaned data with
      | Ok df => Some df
      | Raise _ => None
      end.
Proof.
  unfold transform_data, transform_steps.
  destruct (reading_check_duplicates data) as [r [lg [Hread Hr]]].
  unfold bind at 1. rewrite Hread. unfold ungroupable in Hr.
  destruct r as [rep|e].
  2:{ destruct Hr as [_ Hu]. apply andb_true_iff in Hu as [-> ->]. reflexivity. }
  destruct Hr as [Hu [Hcol HL]].
  unfold bind at 1.
  unfold handle_duplicates. rewrite Hcol. cbn [negb]. cbv zeta. rewrite HL.
  destruct (has_duplicates data).
  - simpl in Hu. rewrite Hu. simpl for_each. unfold bind at 1. unfold handle_duplicates_body.
    unfold bind at 1, get_state at 1. cbn [datasets DataQuality.lookup].
    cbn [String.eqb Ascii.eqb Bool.eqb]. unfold bind at 1, log at 1.
    unfold bind at 1, lift at 1. cbn [frames datasets logger].
    change (deref [data] 0) with data.
    destruct (drop_duplicates data "url") as [unique_rows|e]; [|reflexivity].
    unfold rebind, ret. cbn [frames datasets logger map fst snd List.length app].
    cbn [String.eqb Ascii.eqb Bool.eqb].
    pose proof (null_and_validation_single [data; unique_rows] 1
                  (lg ++ [(INFO, Quality (MsgRemovingDuplicates "bbc_df"))])
                  ltac:(simpl; lia)) as H.
    cbv zeta in H. change (deref [data; unique_rows] 1) with unique_rows in H.
    destruct (cleaned unique_rows) as [df|e]; destruct H as [x H]; rewrite H;
      reflexivity.
  - simpl for_each. unfold ret at 1.
    pose proof (null_and_validation_single [data] 0 lg ltac:(simpl; lia)) as H.
    cbv zeta in H. change (deref [data] 0) with data in H.
    destruct (cleaned data) as [df|e]; destruct H as [x H]; rewrite H; reflexivity.
Qed.

(** [transform_data] returns the frame that it was given, and what that
    frame holds depends on one thing. When the frame holds no row twice,
    the conversion of the date columns and the null handling have been
    written into it. When it holds a row twice, the rows without repeated
    [url] are a new frame, the rest of the work is done on that one, and
    the frame that is returned is the frame as it came in, duplicates and
    nulls included. [None] is returned when an exception was raised: by
    the check of duplicates on a frame that holds a row twice and a null
    in every row, by [drop_duplicates], or by the null step. *)
Theorem transform_data_returns_its_argument data :
  fst (transform_data data)
  = if has_duplicates data then
      if ungrouped data then None
      else
        match drop_duplicates data "url" with
        | Ok unique_rows =>
            match cleaned unique_rows with
            | Ok _ => Some data
            | Raise _ => None
            end
        | Raise _ => None
        end
    else
      match cleaned data with
      | Ok df => Some df
      | Raise _ => None
      end.
Proof. apply transform_data_cases. Qed.

(** *** The null handling on the report of the null check *)

Lemma fold_max_attained l : l <> [] -> In (fold_right Nat.max 0 l) l.
Proof.
  induction l as [|x l IH]; intros H; [contradiction|]. simpl.
  destruct l as [|y l].
  - simpl. rewrite Nat.max_0_r. now left.
  - destruct (Nat.max_dec x (fold_right Nat.max 0 (y :: l))) as [E|E]; rewrite E.
    + now left.
    + right. apply IH. discriminate.
Qed.

Lemma first_kept {K} (eqb : K -> K -> bool) l :
  (forall a b, eqb a b = true <-> a = b) ->
  forall seen y, In y l -> existsb (eqb y) seen = false ->
    In y (select (map negb (duplicated_from eqb seen l)) l).
Proof.
  intros Heq. induction l as [|k l IH]; intros seen y Hin Hseen; [destruct Hin|].
  simpl. destruct (eqb y k) eqn:E.
  - apply Heq in E. subst k. rewrite Hseen. now left.
  - destruct Hin as [->|Hin].
    + rewrite (proj2 (Heq y y) eq_refl) in E. discriminate.
    + assert (H : In y (select (map negb (duplicated_from eqb (k :: seen) l)) l)).
      { apply IH; [assumption|]. simpl. now rewrite E. }
      destruct (negb (existsb (eqb k) seen)); [now right | assumption].
Qed.

(** A list that holds a value has a mode. *)
Lemma modes_nonempty {K} (eqb leb : K -> K -> bool) l :
  (forall a b, eqb a b = true <-> a = b) -> modes eqb leb l = [] -> l = [].
Proof.
  intros Heq H. destruct l as [|x l]; [reflexivity|]. exfalso.
  set (l0 := x :: l) in *.
  assert (Htop : In (fold_right Nat.max 0 (map (occurrences eqb l0) l0))
                    (map (occurrences eqb l0) l0)).
  { apply fold_max_attained. discriminate. }
  apply in_map_iff in Htop as [y [Hy Hin]].
  assert (Hm : In y (modes eqb leb l0)).
  { unfold modes. apply sort_In, filter_In. split.
    - now apply first_kept.
    - now apply Nat.eqb_eq. }
  rewrite H in Hm. destruct Hm.
Qed.

Lemma null_rows_In name df row :
  In row (null_rows name df) ->
  Dataset row = name /\
  exists s, In (Kolom row, s) df /\ 0 < null_count s /\
    Persentase_Null_Values row = percentage (null_count s) (nrows df).
Proof.
  unfold null_rows. intros H. apply in_flat_map in H as [[c s] [Hin H]].
  cbn [fst snd] in H. destruct (0 <? null_count s) eqn:E; [|destruct H].
  destruct H as [<-|[]]. cbn. split; [reflexivity|]. exists s.
  apply Nat.ltb_lt in E. auto.
Qed.

Lemma null_rows_NoDup name df :
  NoDup (columns df) -> NoDup (map Kolom (null_rows name df)).
Proof.
  unfold null_rows, columns. generalize (nrows df) as len.
  induction df as [|[c s] df IH]; intros len Hnd; simpl; [constructor|].
  inversion Hnd as [|? ? Hc Hnd']; subst. rewrite map_app. apply NoDup_app.
  - destruct (0 <? null_count s); simpl; repeat constructor. intros [].
  - now apply IH.
  - intros k Hk Hk'. destruct (0 <? null_count s); [|destruct Hk].
    destruct Hk as [<-|[]]. cbn [Kolom] in Hk'. apply Hc.
    apply in_map_iff in Hk' as [row [Hrow Hin]].
    apply in_flat_map in Hin as [[c' s'] [Hin' Hr]]. cbn [fst snd] in Hr.
    destruct (0 <? null_count s'); [|destruct Hr]. destruct Hr as [<-|[]].
    cbn [Kolom] in Hrow. subst c'. apply in_map_iff. now exists (c, s').
Qed.

Lemma In_column df c s : NoDup (columns df) -> In (c, s) df -> column df c = Some s.
Proof.
  unfold columns. induction df as [|[n s0] df IH]; simpl; [tauto|].
  intros Hnd. inversion Hnd as [|? ? Hn Hnd']; subst.
  intros [[= -> ->]|Hin]; [now rewrite String.eqb_refl|].
  destruct (String.eqb c n) eqn:E; [|auto].
  apply String.eqb_eq in E. subst n. exfalso. apply Hn.
  apply in_map_iff. now exists (c, s).
Qed.

Lemma null_count_blank xs :
  dropna xs = [] -> null_count (SObj xs) = List.length (cells (SObj xs)).
Proof.
  unfold null_count. simpl. induction xs as [|[x|] xs IH]; simpl; intros H;
    [reflexivity | discriminate | now rewrite IH].
Qed.

(** On the report that the null check gives for a dataset,
    [handle_null_values] with a threshold below 100 does not raise. *)
Lemma null_handling_total name df drop_null_threshold lg :
  rectangular df -> NoDup (columns df) -> full_is_hundred ->
  (drop_null_threshold < 100 # 1)%Q ->
  fst (DataQuality.handle_null_values (null_rows name df) drop_null_threshold
         {| DataQuality.datasets := [(name, df)]; DataQuality.logger := lg |})
  = Ok tt.
Proof.
  intros Hrect Hnd Hfull Hthr.
  destruct (DataQuality.handle_null_values (null_rows name df) drop_null_threshold
              {| DataQuality.datasets := [(name, df)]; DataQuality.logger := lg |})
    as [[[]|e] self'] eqn:Hrun; [reflexivity|]. exfalso.
  apply handle_null_values_raise_split in Hrun
    as [pre [row [post [s1 [Hrows [Hpre Hrow]]]]]].
  apply handle_null_row_raises in Hrow as [_ [_ [Hp [df1 [s [Hd1 [Hc1 [Hobj Hmode]]]]]]]].
  assert (Hin : In row (null_rows name df)) by (rewrite Hrows; apply in_elt).
  apply null_rows_In in Hin as [Hname [s0 [Hs0 [Hpos Hpct]]]].
  destruct (handle_null_values_reach _ _ _ _ _ Hpre) as [_ Hreach].
  destruct (Hreach name df) as [df1' [Hd1' [_ Hkeep]]].
  { simpl. now rewrite String.eqb_refl. }
  rewrite Hname in Hd1. rewrite Hd1 in Hd1'. injection Hd1' as <-.
  assert (Hsame : column df1 (Kolom row) = column df (Kolom row)).
  { apply Hkeep. intros r Hr _ Heq.
    pose proof (null_rows_NoDup name df Hnd) as Hk. rewrite Hrows, map_app in Hk.
    simpl in Hk. apply NoDup_remove_2 in Hk. apply Hk. apply in_or_app. left.
    rewrite <- Heq. now apply in_map. }
  rewrite (In_column _ _ _ Hnd Hs0) in Hsame. rewrite Hc1 in Hsame.
  injection Hsame as ->.
  destruct s0 as [xs|xs|xs|xs]; try discriminate.
  simpl in Hmode. apply map_eq_nil in Hmode.
  apply modes_nonempty in Hmode; [|apply String.eqb_eq].
  rewrite (null_count_blank xs Hmode) in Hpct, Hpos.
  rewrite (Hrect _ _ Hs0) in Hpct, Hpos.
  apply Qle_bool_iff in Hp. rewrite Hpct, (Hfull _ Hpos) in Hp.
  apply (Qlt_not_le _ _ Hthr Hp).
Qed.

(** The null handling does not raise on the report of the null check.
    [KeyError: 0] needs a column of strings without any value that is
    imputed; the null check gives such a column 100 per cent, and a
    threshold below 100 has it dropped. *)
Theorem null_check_then_handling_does_not_raise name df drop_null_threshold lg :
  rectangular df -> NoDup (columns df) -> full_is_hundred ->
  (drop_null_threshold < 100 # 1)%Q ->
  fst (DataQuality.handle_null_values (null_rows name df) drop_null_threshold
         {| DataQuality.datasets := [(name, df)]; DataQuality.logger := lg |})
  = Ok tt.
Proof. apply null_handling_total. Qed.

Lemma cleaned_total df :
  rectangular df -> NoDup (columns df) -> keeps_length -> full_is_hundred ->
  exists df', cleaned df = Ok df'.
Proof.
  intros Hrect Hnd Hk Hfull. unfold cleaned. cbv zeta.
  destruct (convert_to_datetime_spec df Hnd) as [Hcols [_ [_ Hr]]].
  destruct (Hr Hk Hrect) as [Hrect' _].
  pose proof (null_handling_total "bbc_df" (convert_to_datetime df) (25 # 1)%Q []
                Hrect' ltac:(now rewrite Hcols) Hfull ltac:(reflexivity)) as H.
  unfold with_dataset.
  destruct (DataQuality.handle_null_values _ _ _) as [[[]|e] v]; [|discriminate].
  destruct (ds_get (DataQuality.datasets v) "bbc_df"); eauto.
Qed.

Lemma transform_data_none data :
  rectangular data -> NoDup (columns data) -> keeps_length -> full_is_hundred ->
  (fst (transform_data data) = None <->
   has_duplicates data = true /\
   (ungrouped data = true \/ column data "url" = None)).
Proof.
  intros Hrect Hnd Hk Hfull. rewrite transform_data_cases.
  destruct (has_duplicates data).
  - destruct (ungrouped data); [tauto|].
    unfold drop_duplicates at 1.
    destruct (column data "url") as [s|] eqn:Hc; [|tauto].
    destruct (drop_duplicates_again data "url" _ Hrect
                ltac:(unfold drop_duplicates; rewrite Hc; reflexivity))
      as [_ [Hrect' [Hcols' _]]].
    destruct (cleaned_total _ Hrect' ltac:(now rewrite Hcols') Hk Hfull) as [df' ->].
    split; [discriminate | intros [_ [[=]|[=]]]].
  - destruct (cleaned_total _ Hrect Hnd Hk Hfull) as [df' ->].
    split; [discriminate | intros [[=] _]].
Qed.

(** [transform_data] returns [None] in two cases only, both of a frame
    that holds a row twice: the frame has a null in every row, so that
    the check of duplicates raises [IndexError], or it has no [url]
    column, so that [drop_duplicates] raises [KeyError]. In every other
    case it returns the frame. *)
Theorem transform_data_fails_without_url data :
  rectangular data -> NoDup (columns data) -> keeps_length -> full_is_hundred ->
  (fst (transform_data data) = None <->
   has_duplicates data = true /\
   (ungrouped data = true \/ column data "url" = None)).
Proof. apply transform_data_none. Qed.

(** The removal of duplicates does not reach the caller. When the frame
    holds a row twice and [transform_data] returns a frame, that frame is
    the frame as it was given: it still holds the row twice. *)
Theorem duplicates_survive_transformation data transformed_data :
  has_duplicates data = true ->
  fst (transform_data data) = Some transformed_data ->
  transformed_data = data /\ has_duplicates transformed_data = true.
Proof.
  intros Hd. rewrite transform_data_cases, Hd.
  destruct (ungrouped data); [discriminate|].
  destruct (drop_duplicates data "url") as [unique_rows|e]; [|discriminate].
  destruct (cleaned unique_rows); [|discriminate].
  intros [= <-]. auto.
Qed.

End TransformProperties.

Section TransformWitnesses.

Import DataQualityTerms NullTerms Transform.
#[local] Existing Instance Ideal.numerics.
#[local] Existing Instance Exact.frames.
#[local] Existing Instance Spelled.dtypes.

Lemma exact_keeps_length : keeps_length.
Proof. intros s. destruct s; simpl; now rewrite ?length_map. Qed.

Lemma exact_full_is_hundred : full_is_hundred.
Proof.
  intros n Hn. simpl. unfold Exact.percentage. rewrite Qred_correct.
  rewrite Nat2Z.inj_mul, inject_Z_mult. field.
  unfold Qeq. simpl. lia.
Qed.

Lemma single_frame_columns : NoDup (columns single_frame).
Proof. repeat constructor; simpl; intuition discriminate. Qed.

Lemma check_null_values_converts_in_place_witness :
  exists self',
    check_null_values (held single_frame)
    = (Ok (flat_map (fun item =>
                       null_rows (fst item)
                         (convert_to_datetime (deref [single_frame] (snd item))))
                    [("bbc_df", 0)]),
       self') /\
    datasets self' = [("bbc_df", 0)] /\
    List.length (frames self') = 1 /\
    (forall item, In item [("bbc_df", 0)] ->
       deref (frames self') (snd item)
       = convert_to_datetime (deref [single_frame] (snd item))) /\
    (forall a, ~ In a [0] -> deref (frames self') a = deref [single_frame] a).
Proof.
  refine (check_null_values_converts_in_place (held single_frame) _ _).
  - repeat constructor. intros [].
  - intros item [<-|[]]. simpl. lia.
Defined.

Lemma convert_to_datetime_by_name_witness :
  columns (convert_to_datetime single_frame) = columns single_frame /\
  (forall c s, column single_frame c = Some s ->
     column (convert_to_datetime single_frame) c
     = Some (if is_date_column c then STime (to_datetime s) else s)) /\
  (forall c, column single_frame c = None ->
     column (convert_to_datetime single_frame) c = None) /\
  (keeps_length -> rectangular single_frame ->
   rectangular (convert_to_datetime single_frame) /\
   nrows (convert_to_datetime single_frame) = nrows single_frame).
Proof.
  exact (convert_to_datetime_by_name single_frame single_frame_columns).
Defined.

Example doubled_frame_comes_back :
  fst (transform_data doubled_frame) = Some doubled_frame.
Proof. reflexivity. Qed.

Example single_frame_is_cleaned :
  fst (transform_data single_frame)
  = Some [("title", SObj [Some "a"; Some "a"; Some "a"; Some "b"]);
          ("url", SObj [Some "http://x/1"; Some "http://x/2"; Some "http://x/3";
                        Some "http://x/4"]);
          ("published_date",
           STime [Some 1710460800000000000%Z; Some 1710547200000000000%Z;
                  Some 1710590400000000000%Z; Some 1710633600000000000%Z])].
Proof. reflexivity. Qed.

Lemma duplicates_survive_transformation_witness :
  doubled_frame = doubled_frame /\ has_duplicates doubled_frame = true.
Proof.
  exact (duplicates_survive_transformation doubled_frame doubled_frame eq_refl eq_refl).
Defined.

Lemma blank_frame_rectangular : rectangular blank_frame.
Proof. intros c s [[= <- <-]|[]]. reflexivity. Qed.

Lemma null_check_then_handling_does_not_raise_witness :
  fst (DataQuality.handle_null_values (null_rows "bbc_df" blank_frame) (25 # 1)%Q
         {| DataQuality.datasets := [("bbc_df", blank_frame)];
            DataQuality.logger := [] |})
  = Ok tt.
Proof.
  refine (null_check_then_handling_does_not_raise "bbc_df" blank_frame (25 # 1)%Q []
            blank_frame_rectangular _ exact_full_is_hundred eq_refl).
  repeat constructor. intros [].
Defined.

Lemma sectionless_frame_rectangular : rectangular sectionless_frame.
Proof. intros c s [[= <- <-]|[[= <- <-]|[]]]; reflexivity. Qed.

Lemma transform_data_fails_without_url_witness :
  fst (transform_data sectionless_frame) = None.
Proof.
  refine (proj2 (transform_data_fails_without_url sectionless_frame
                   sectionless_frame_rectangular _ exact_keeps_length
                   exact_full_is_hundred)
                (conj eq_refl (or_introl eq_refl))).
  repeat constructor; simpl; intuition discriminate.
Defined.

(** Without [url] column the duplicated row has [drop_duplicates] raise,
    and the exception logged is the [KeyError]. *)
Example nameless_frame_is_not_transformed :
  transform_data nameless_frame
  = (None,
     [(INFO, Quality (MsgDuplicateRows "bbc_df" 1));
      (INFO, Quality (MsgRemovingDuplicates "bbc_df"));
      (ERROR, MsgTransformFailed (KeyError "url"))]).
Proof. reflexivity. Qed.

(** With a null in every row the check of duplicates raises. *)
Example sectionless_frame_is_not_transformed :
  transform_data sectionless_frame
  = (None,
     [(INFO, Quality (MsgDuplicateRows "bbc_df" 1));
      (ERROR, MsgTransformFailed IndexError)]).
Proof. reflexivity. Qed.

End TransformWitnesses.

(** ** The transformation in the pipeline *)

Section EndToEndProperties.

Import DataQualityTerms Transform Main EndToEnd.
Context {N : Numerics} {F : Frames} {T : Dtypes} {D : Load.Dates}.

(** What [run] does with a staging frame that holds a row twice. Without
    a [url] column, or with a null in every row, the transformation
    returns [None], and [run] ends on the [AttributeError] of
    [None.to_parquet], the connection open and nothing loaded. With a
    [url] column and a row that holds no null the load gets the frame as
    it was staged, the duplicated rows included. *)
Theorem staged_duplicates_in_the_run data w :
  has_duplicates data = true ->
  (column data "url" = None \/ ungrouped data = true ->
   exists w',
     run (pipeline_env (Some data)) w
     = (inr (Uncaught (AttributeError "to_parquet")), w') /\
     calls w' = calls w ++ [Connect] /\ conn w' = Opened /\ loader w' = loader w) /\
  (column data "url" <> None -> ungrouped data = false ->
   rectangular data -> NoDup (columns data) -> keeps_length -> full_is_hundred ->
   exists w1,
     prepare (pipeline_env (Some data)) w = (inl data, w1) /\
     run (pipeline_env (Some data)) w = load (pipeline_env (Some data)) data w1).
Proof.
  intros Hdup.
  assert (Hnone : column data "url" = None \/ ungrouped data = true ->
                  fst (Transform.transform_data data) = None).
  { intros Hc. rewrite transform_data_cases, Hdup.
    destruct (ungrouped data); [reflexivity|].
    destruct Hc as [Hc|Hc]; [|discriminate]. unfold drop_duplicates.
    now rewrite Hc. }
  split.
  - intros Hc. specialize (Hnone Hc).
    unfold run, prepare, load_config, initialize_db_connection, pbind, log, called,
      set_conn, uncaught, pret, pipeline_env.
    cbn [load_config_ok connect_ok extract_data process_data Main.transform_data
         to_parquet_ok].
    rewrite Hnone. cbn. eexists. split; [reflexivity|]. cbn.
    rewrite <- ?app_assoc. auto.
  - intros Hc Hung Hrect Hnd Hk Hfull.
    assert (Hsome : fst (Transform.transform_data data) = Some data).
    { destruct (fst (Transform.transform_data data)) as [r|] eqn:E.
      - f_equal. rewrite transform_data_cases, Hdup, Hung in E.
        destruct (drop_duplicates data "url") as [unique_rows|e]; [|discriminate].
        destruct (cleaned unique_rows); [|discriminate]. now injection E.
      - apply (transform_data_none data Hrect Hnd Hk Hfull) in E as [_ [E|E]];
          [congruence | contradiction]. }
    unfold run, prepare, load_config, initialize_db_connection, pbind, log, called,
      set_conn, uncaught, pret, pipeline_env.
    cbn [load_config_ok connect_ok extract_data process_data Main.transform_data
         to_parquet_ok].
    rewrite Hsome. cbn. eexists. split; reflexivity.
Qed.

End EndToEndProperties.

Section EndToEndWitnesses.

Import DataQualityTerms Transform Main EndToEnd.
#[local] Existing Instance Ideal.numerics.
#[local] Existing Instance Exact.frames.
#[local] Existing Instance Spelled.dtypes.
#[local] Existing Instance Load.Strict.dates.

Lemma staged_duplicates_in_the_run_witness :
  exists w',
    run (pipeline_env (Some sectionless_frame)) start
    = (inr (Uncaught (AttributeError "to_parquet")), w') /\
    calls w' = calls start ++ [Connect] /\ conn w' = Opened /\
    loader w' = loader start.
Proof.
  exact (proj1 (staged_duplicates_in_the_run sectionless_frame start eq_refl)
               (or_intror eq_refl)).
Defined.

End EndToEndWitnesses.

(** ** The logger *)

Section LoggerProperties.

Import Logging.

Lemma lookup_store_same d name x : lookup (store d name x) name = Some x.
Proof.
  induction d as [|[n old] d IH]; simpl.
  - now rewrite String.eqb_refl.
  - destruct (String.eqb name n) eqn:E; simpl; rewrite E; auto.
Qed.

Lemma lookup_store_other d name x other :
  other <> name -> lookup (store d name x) other = lookup d other.
Proof.
  intros Hne. induction d as [|[n old] d IH]; simpl.
  - destruct (String.eqb other name) eqn:E; [|reflexivity].
    apply String.eqb_eq in E. contradiction.
  - destruct (String.eqb name n) eqn:E; simpl.
    + apply String.eqb_eq in E. subst n.
      destruct (String.eqb other name) eqn:E'; [|reflexivity].
      apply String.eqb_eq in E'. contradiction.
    + destruct (String.eqb other n); auto.
Qed.

Lemma lookup_app d name x other :
  lookup (d ++ [(name, x)]) other
  = match lookup d other with
    | Some y => Some y
    | None => if String.eqb other name then Some x else None
    end.
Proof.
  induction d as [|[n old] d IH]; simpl; [reflexivity|].
  destruct (String.eqb other n); auto.
Qed.

























(** *** The way up ends at the root *)

Lemma rfind_from_bound s : forall i stop last j,
  rfind_from s i stop last = Some j ->
  last = Some j \/ (j < stop /\ j < i + String.length s).
Proof.
  induction s as [|c s IH]; intros i stop last j; simpl; [auto|].
  destruct (i <? stop) eqn:E; [|auto]. intros H. apply IH in H as [H|[H1 H2]].
  - destruct (Ascii.eqb c "."); [|auto]. injection H as <-. right.
    apply Nat.ltb_lt in E. lia.
  - right. lia.
Qed.

Lemma rfind_bound s stop j : rfind s stop = Some j -> j < stop /\ j < String.length s.
Proof.
  unfold rfind. intros H. apply rfind_from_bound in H as [H|H]; [discriminate | exact H].
Qed.

Lemma length_prefix s : forall n, n <= String.length s ->
  String.length (substring 0 n s) = n.
Proof.
  induction s as [|c s IH]; intros [|n] H; simpl in *; try reflexivity; try lia.
  rewrite IH; lia.
Qed.

Lemma prefixes_from_shorter name fuel : forall i s,
  (forall j, i = Some j -> j < String.length name) ->
  In s (prefixes_from fuel name i) -> String.length s < String.length name.
Proof.
  induction fuel as [|fuel IH]; intros i s Hi; [intros []|].
  destruct i as [[|i']|]; cbn [prefixes_from]; [intros [] | | intros []].
  cbn [In]. intros [<-|Hin].
  - specialize (Hi _ eq_refl). rewrite length_prefix; lia.
  - apply (IH (rfind name i')); [|assumption].
    intros j Hj. now apply rfind_bound in Hj.
Qed.

Lemma prefixes_shorter name s :
  In s (prefixes name) -> String.length s < String.length name.
Proof.
  apply prefixes_from_shorter. intros j Hj. now apply rfind_bound in Hj.
Qed.

Lemma is_logger_store d name x other :
  other <> name -> is_logger d other -> is_logger (store d name x) other.
Proof. intros Hne [l H]. exists l. now rewrite lookup_store_other. Qed.

Lemma is_logger_store_real d name l other :
  is_logger d other -> is_logger (store d name (Real l)) other.
Proof.
  intros H. destruct (String.eqb other name) eqn:E.
  - apply String.eqb_eq in E. subst other. exists l. apply lookup_store_same.
  - apply String.eqb_neq in E. now apply is_logger_store.
Qed.

Lemma above_mono (d d' : list (string * node)) name p :
  (forall q, is_logger d q -> is_logger d' q) -> above d name p -> above d' name p.
Proof. intros H. destruct p as [|q]; [auto|]. intros [H1 H2]. split; auto. Qed.

(** A placeholder put under a name that has no logger. *)
Lemma well_formed_placeholder d d' s loggerMap :
  well_formed d ->
  (forall n, n <> s -> lookup d' n = lookup d n) ->
  lookup d' s = Some (PlaceHolder loggerMap) ->
  ~ is_logger d s ->
  (forall c, In c loggerMap -> String.length s < String.length c /\ is_logger d c) ->
  well_formed d'.
Proof.
  intros [Hreal Hph] Hother Hs Hnot Hmap.
  assert (Hkeep : forall q, is_logger d q -> is_logger d' q).
  { intros q [l Hq]. exists l. rewrite Hother; [assumption|].
    intros ->. apply Hnot. now exists l. }
  split.
  - intros name l Hl. destruct (String.eqb name s) eqn:E.
    + apply String.eqb_eq in E. subst name. congruence.
    + apply String.eqb_neq in E. rewrite Hother in Hl by assumption.
      eapply above_mono; [exact Hkeep | now apply Hreal].
  - intros n loggerMap' c Hn Hc. destruct (String.eqb n s) eqn:E.
    + apply String.eqb_eq in E. subst n. rewrite Hs in Hn. injection Hn as <-.
      destruct (Hmap c Hc) as [H1 H2]. auto.
    + apply String.eqb_neq in E. rewrite Hother in Hn by assumption.
      destruct (Hph n loggerMap' c Hn Hc) as [H1 H2]. auto.
Qed.

Lemma fixupParents_well_formed name substrs : forall d,
  (forall s, In s substrs -> String.length s < String.length name) ->
  is_logger d name -> well_formed d ->
  well_formed (fst (fixupParents name substrs d)) /\
  (forall n, is_logger d n -> is_logger (fst (fixupParents name substrs d)) n) /\
  (forall n l, lookup d n = Some (Real l) ->
     lookup (fst (fixupParents name substrs d)) n = Some (Real l)) /\
  above (fst (fixupParents name substrs d)) name (snd (fixupParents name substrs d)).
Proof.
  induction substrs as [|substr rest IH]; intros d Hshort Hname Hwf; simpl.
  - split; [assumption|]. split; [auto|]. split; [auto | exact I].
  - assert (Hs : String.length substr < String.length name) by (apply Hshort; now left).
    assert (Hrest : forall s, In s rest -> String.length s < String.length name)
      by (intros s H; apply Hshort; now right).
    destruct (lookup d substr) as [[l|loggerMap]|] eqn:E.
    + cbn [fst snd]. split; [assumption|]. split; [auto|]. split; [auto|].
      split; [assumption | now exists l].
    + set (d1 := store d substr
                   (PlaceHolder (if existsb (String.eqb name) loggerMap then loggerMap
                                 else loggerMap ++ [name]))).
      assert (Hkeep : forall n l, lookup d n = Some (Real l) ->
                                  lookup d1 n = Some (Real l)).
      { intros n l Hn. unfold d1. rewrite lookup_store_other; [assumption|].
        intros ->. congruence. }
      assert (Hwf1 : well_formed d1).
      { apply (well_formed_placeholder d d1 substr
                 (if existsb (String.eqb name) loggerMap then loggerMap
                  else loggerMap ++ [name]) Hwf).
        - intros n Hn. now apply lookup_store_other.
        - apply lookup_store_same.
        - intros [l Hl]. congruence.
        - intros c Hc. destruct Hwf as [_ Hph].
          destruct (existsb (String.eqb name) loggerMap); [now apply (Hph substr loggerMap)|].
          apply in_app_or in Hc as [Hc|[<-|[]]]; [now apply (Hph substr loggerMap) | auto]. }
      assert (Hname1 : is_logger d1 name).
      { destruct Hname as [l Hl]. exists l. now apply Hkeep. }
      destruct (IH d1 Hrest Hname1 Hwf1) as [H1 [H2 [H3 H4]]].
      split; [exact H1|]. split; [|split; [|exact H4]].
      * intros n [l Hn]. apply H2. exists l. now apply Hkeep.
      * intros n l Hn. apply H3. now apply Hkeep.
    + set (d1 := d ++ [(substr, PlaceHolder [name])]).
      assert (Hkeep : forall n l, lookup d n = Some (Real l) ->
                                  lookup d1 n = Some (Real l)).
      { intros n l Hn. unfold d1. now rewrite lookup_app, Hn. }
      assert (Hwf1 : well_formed d1).
      { apply (well_formed_placeholder d d1 substr [name] Hwf).
        - intros n Hn. unfold d1. rewrite lookup_app.
          destruct (lookup d n); [reflexivity|].
          apply String.eqb_neq in Hn. now rewrite Hn.
        - unfold d1. now rewrite lookup_app, E, String.eqb_refl.
        - intros [l Hl]. congruence.
        - intros c [<-|[]]. auto. }
      assert (Hname1 : is_logger d1 name).
      { destruct Hname as [l Hl]. exists l. now apply Hkeep. }
      destruct (IH d1 Hrest Hname1 Hwf1) as [H1 [H2 [H3 H4]]].
      split; [exact H1|]. split; [|split; [|exact H4]].
      * intros n [l Hn]. apply H2. exists l. now apply Hkeep.
      * intros n l Hn. apply H3. now apply Hkeep.
Qed.

(** A logger put in the place of a logger, its parent a logger above it. *)
Lemma well_formed_replace d name l l' :
  well_formed d -> lookup d name = Some (Real l) -> above d name (parent l') ->
  well_formed (store d name (Real l')).
Proof.
  intros [Hreal Hph] Hl Hp.
  assert (Hkeep : forall q, is_logger d q -> is_logger (store d name (Real l')) q)
    by (intros q; apply is_logger_store_real).
  split.
  - intros n ln Hn. destruct (String.eqb n name) eqn:E.
    + apply String.eqb_eq in E. subst n. rewrite lookup_store_same in Hn.
      injection Hn as <-. eapply above_mono; eassumption.
    + apply String.eqb_neq in E. rewrite lookup_store_other in Hn by assumption.
      eapply above_mono; [exact Hkeep | now apply Hreal].
  - intros s loggerMap c Hs Hc. destruct (String.eqb s name) eqn:E.
    + apply String.eqb_eq in E. subst s. rewrite lookup_store_same in Hs. discriminate.
    + apply String.eqb_neq in E. rewrite lookup_store_other in Hs by assumption.
      destruct (Hph s loggerMap c Hs Hc) as [H1 H2]. auto.
Qed.

Lemma set_parent_well_formed d name p :
  well_formed d -> above d name p -> well_formed (set_parent d name p).
Proof.
  intros Hwf Hp. unfold set_parent.
  destruct (lookup d name) as [[l|ph]|] eqn:E; try assumption.
  now apply (well_formed_replace d name l).
Qed.

Lemma set_parent_is_logger d name p q :
  is_logger d q -> is_logger (set_parent d name p) q.
Proof.
  intros H. unfold set_parent. destruct (lookup d name) as [[l|ph]|]; try assumption.
  now apply is_logger_store_real.
Qed.

Lemma fixupChildren_well_formed loggerMap name : forall d,
  (forall c, In c loggerMap -> String.length name < String.length c) ->
  is_logger d name -> well_formed d ->
  well_formed (fixupChildren loggerMap name d) /\
  is_logger (fixupChildren loggerMap name d) name.
Proof.
  unfold fixupChildren.
  induction loggerMap as [|c rest IH]; intros d Hlong Hname Hwf; simpl; [auto|].
  apply IH.
  - intros c' H. apply Hlong. now right.
  - destruct (lookup d c) as [[l|ph]|]; try assumption.
    destruct (String.eqb _ name); [assumption | now apply set_parent_is_logger].
  - destruct (lookup d c) as [[l|ph]|]; try assumption.
    destruct (String.eqb _ name); [assumption|].
    apply set_parent_well_formed; [assumption|]. split; [|assumption].
    apply Hlong. now left.
Qed.

(** A new logger under a name that has none, its parent the root. *)
Lemma well_formed_new d d' name l :
  well_formed d -> ~ is_logger d name ->
  (forall n, n <> name -> lookup d' n = lookup d n) ->
  lookup d' name = Some (Real l) -> parent l = Root ->
  well_formed d'.
Proof.
  intros [Hreal Hph] Hnot Hother Hl Hroot.
  assert (Hkeep : forall q, is_logger d q -> is_logger d' q).
  { intros q [lq Hq]. exists lq. rewrite Hother; [assumption|].
    intros ->. apply Hnot. now exists lq. }
  split.
  - intros n ln Hn. destruct (String.eqb n name) eqn:E.
    + apply String.eqb_eq in E. subst n. rewrite Hl in Hn. injection Hn as <-.
      now rewrite Hroot.
    + apply String.eqb_neq in E. rewrite Hother in Hn by assumption.
      eapply above_mono; [exact Hkeep | now apply Hreal].
  - intros s loggerMap c Hs Hc. destruct (String.eqb s name) eqn:E.
    + apply String.eqb_eq in E. subst s. congruence.
    + apply String.eqb_neq in E. rewrite Hother in Hs by assumption.
      destruct (Hph s loggerMap c Hs Hc) as [H1 H2]. auto.
Qed.

Lemma getLogger_well_formed name m :
  well_formed (loggerDict m) -> well_formed (loggerDict (getLogger name m)).
Proof.
  intros Hwf. unfold getLogger. destruct (is_root name); [assumption|].
  destruct (lookup (loggerDict m) name) as [[l|loggerMap]|] eqn:E; [assumption| |].
  - set (d1 := store (loggerDict m) name (Real fresh_logger)).
    assert (Hwf1 : well_formed d1).
    { apply (well_formed_new (loggerDict m) d1 name fresh_logger Hwf).
      - intros [l Hl]. congruence.
      - intros n Hn. now apply lookup_store_other.
      - apply lookup_store_same.
      - reflexivity. }
    assert (Hname1 : is_logger d1 name) by (exists fresh_logger; apply lookup_store_same).
    destruct (fixupChildren_well_formed loggerMap name d1) as [Hwf2 Hname2]; auto.
    { intros c Hc. destruct Hwf as [_ Hph]. now apply (Hph name loggerMap c). }
    destruct (fixupParents_well_formed name (prefixes name) _
                (prefixes_shorter name) Hname2 Hwf2) as [Hwf3 [_ [_ Hp]]].
    destruct (fixupParents name (prefixes name) _) as [d3 p]. cbn [fst snd] in *.
    cbn [loggerDict]. now apply set_parent_well_formed.
  - set (d1 := loggerDict m ++ [(name, Real fresh_logger)]).
    assert (Hwf1 : well_formed d1).
    { apply (well_formed_new (loggerDict m) d1 name fresh_logger Hwf).
      - intros [l Hl]. congruence.
      - intros n Hn. unfold d1. rewrite lookup_app.
        destruct (lookup (loggerDict m) n); [reflexivity|].
        apply String.eqb_neq in Hn. now rewrite Hn.
      - unfold d1. now rewrite lookup_app, E, String.eqb_refl.
      - reflexivity. }
    assert (Hname1 : is_logger d1 name).
    { exists fresh_logger. unfold d1. now rewrite lookup_app, E, String.eqb_refl. }
    destruct (fixupParents_well_formed name (prefixes name) _
                (prefixes_shorter name) Hname1 Hwf1) as [Hwf3 [_ [_ Hp]]].
    destruct (fixupParents name (prefixes name) _) as [d3 p]. cbn [fst snd] in *.
    cbn [loggerDict]. now apply set_parent_well_formed.
Qed.

Lemma setLevel_well_formed r log_level m :
  well_formed (loggerDict m) -> well_formed (loggerDict (setLevel r log_level m)).
Proof.
  intros Hwf. destruct r as [|name]; cbn [setLevel]; [assumption|].
  destruct (lookup (loggerDict m) name) as [[l|ph]|] eqn:E; try assumption.
  cbn [loggerDict]. apply (well_formed_replace _ name l); [assumption | assumption|].
  cbn [parent]. destruct Hwf as [Hreal _]. now apply Hreal.
Qed.

Lemma addHandler_well_formed r h m :
  well_formed (loggerDict m) -> well_formed (loggerDict (addHandler r h m)).
Proof.
  intros Hwf. destruct r as [|name]; cbn [addHandler]; [assumption|].
  destruct (lookup (loggerDict m) name) as [[l|ph]|] eqn:E; try assumption.
  cbn [loggerDict]. apply (well_formed_replace _ name l); [assumption | assumption|].
  cbn [parent]. destruct Hwf as [Hreal _]. now apply Hreal.
Qed.

Lemma imported_well_formed : well_formed (loggerDict imported).
Proof. split; intros; discriminate. Qed.

(** [Logger] keeps the hierarchy in order. *)
Lemma Logger_well_formed name log_level m :
  well_formed (loggerDict m) -> well_formed (loggerDict (Logger name log_level m)).
Proof.
  intros Hwf. unfold Logger.
  now apply addHandler_well_formed, addHandler_well_formed, setLevel_well_formed,
    getLogger_well_formed.
Qed.

Lemma constructed_from_well_formed names : forall m,
  well_formed (loggerDict m) ->
  well_formed (loggerDict (fold_left (fun m name => Logger name DEBUG m) names m)).
Proof.
  induction names as [|name names IH]; intros m Hwf; simpl; [assumption|].
  now apply IH, Logger_well_formed.
Qed.

(** Whatever classes have been constructed, the hierarchy is in order. *)
Lemma constructed_well_formed names : well_formed (loggerDict (constructed names)).
Proof. apply constructed_from_well_formed, imported_well_formed. Qed.

(** In a hierarchy that is in order the way up from a logger ends at the
    root: the steps that [lineage] takes are enough. *)
Lemma chain_reaches_root m :
  well_formed (loggerDict m) ->
  forall fuel name, String.length name < fuel -> is_logger (loggerDict m) name ->
  exists below,
    chain fuel m (Named name) = below ++ [(root_level m, root_handlers m)].
Proof.
  intros [Hreal _]. induction fuel as [|fuel IH]; intros name Hlen [l Hl]; [lia|].
  cbn [chain]. rewrite Hl. pose proof (Hreal name l Hl) as Hp.
  destruct (parent l) as [|q].
  - exists [(level l, handlers l)]. now destruct fuel.
  - destruct Hp as [Hq Hqreal]. destruct (IH q ltac:(lia) Hqreal) as [below ->].
    exists ((level l, handlers l) :: below). reflexivity.
Qed.

Lemma lineage_reaches_root m r :
  well_formed (loggerDict m) -> own m r <> None ->
  exists below, lineage m r = below ++ [(root_level m, root_handlers m)].
Proof.
  intros Hwf Ho. destruct r as [|name].
  - now exists [].
  - apply chain_reaches_root; [assumption | simpl; lia|].
    cbn [own] in Ho. unfold state_of in Ho.
    destruct (lookup (loggerDict m) name) as [[l|ph]|] eqn:E; try contradiction.
    now exists l.
Qed.


End LoggerProperties.


(** A record goes up: what is sent to the logger of a module is also
    written by the handlers of a logger above it, whichever of the two
    was constructed first. *)
Example records_reach_the_handlers_above :
  Logging.emit (Logging.constructed ["scripts.etl"; "scripts.etl.load"])
               (Logging.Named "scripts.etl.load") Logging.INFO
  = [Logging.File; Logging.Console; Logging.File; Logging.Console] /\
  Logging.emit (Logging.constructed ["scripts.etl.load"; "scripts.etl"])
               (Logging.Named "scripts.etl.load") Logging.INFO
  = [Logging.File; Logging.Console; Logging.File; Logging.Console] /\
  Logging.emit (Logging.constructed ["scripts.etl.load"; "scripts.etl"])
               (Logging.Named "scripts.etl") Logging.INFO
  = [Logging.File; Logging.Console].
Proof. repeat split. Qed.

(** The modules of the pipeline name no logger above another: a record
    is written once to the file and, from [INFO] on, once to the
    console. *)
Example pipeline_loggers :
  let m := Logging.constructed
             ["__main__"; "scripts.utils.db_connection"; "scripts.etl.extract";
              "scripts.etl.transform"; "scripts.utils.data_quality";
              "scripts.etl.load"] in
  Logging.emit m (Logging.Named "scripts.etl.load") Logging.INFO
  = [Logging.File; Logging.Console] /\
  Logging.emit m (Logging.Named "scripts.utils.data_quality") Logging.DEBUG
  = [Logging.File] /\
  Logging.emit m (Logging.Named "__main__") Logging.ERROR
  = [Logging.File; Logging.Console].
Proof. repeat split. Qed.

(** Without any [Logger] a warning goes to the handler of last resort,
    and a record below [WARNING] goes nowhere. *)
Example nothing_constructed :
  Logging.emit Logging.imported Logging.Root Logging.WARNING = [Logging.LastResort] /\
  Logging.emit Logging.imported Logging.Root Logging.INFO = [].
Proof. split; reflexivity. Qed.
